(** * example-app: the OAuth2/JWT gate and the chat orchestrator

    A shallow embedding of the token and discovery endpoints
    ([routes/oauth.ts], two revisions), the key manager
    ([utils/jwt-keys.ts]), the bearer-token middleware
    ([middleware/auth.ts]), the chat handler ([routes/chat.ts], with and
    without its tool-call loop), the list of allowed models
    ([utils/litellm-config.ts]) and the guest-screening routes
    ([routes/rental.ts]), together with the parts of the JavaScript
    platform they run on: [JSON.parse] / [JSON.stringify], [String.split],
    [parseInt], the [zod] schemas of the requests and the documented
    behaviour of [jsonwebtoken]'s [sign] and [verify]. *)

From Stdlib Require Import ZArith List String Ascii Bool Lia.
From Stdlib Require Import DecimalString DecimalZ DecimalPos.
Import ListNotations.

#[local] Set Warnings "-register-all".
Local Open Scope list_scope.
Local Open Scope string_scope.

(** ** Characters and strings

    A JavaScript string is modelled as a Rocq [string]: the sequence of its
    bytes in UTF-8. *)

Module Chars.

Definition dquote : ascii := ascii_of_N 34.
Definition backslash : ascii := ascii_of_N 92.

Definition code (c : ascii) : N := N_of_ascii c.

Definition is_digit (c : ascii) : bool :=
  (48 <=? code c)%N && (code c <=? 57)%N.

Definition is_digit19 (c : ascii) : bool :=
  (49 <=? code c)%N && (code c <=? 57)%N.

(** JSON white space: space, tab, line feed, carriage return. *)
Definition is_ws (c : ascii) : bool :=
  match code c with
  | 32 | 9 | 10 | 13 => true
  | _ => false
  end%N.

Definition hex_digit (n : N) : ascii :=
  if (n <? 10)%N then ascii_of_N (48 + n) else ascii_of_N (87 + n).

Definition hex_value (c : ascii) : option N :=
  let n := code c in
  if (48 <=? n)%N && (n <=? 57)%N then Some (n - 48)%N
  else if (97 <=? n)%N && (n <=? 102)%N then Some (n - 87)%N
  else if (65 <=? n)%N && (n <=? 70)%N then Some (n - 55)%N
  else None.

Definition str1 (c : ascii) : string := String c EmptyString.

(** [Array.prototype.join] on strings. *)
Fixpoint join (sep : string) (l : list string) : string :=
  match l with
  | [] => ""
  | [x] => x
  | x :: t => x ++ sep ++ join sep t
  end.

(** [String.prototype.split] with a one-character separator: the pieces
    between the separators, the empty ones included; the empty string splits
    into one empty piece. *)
Fixpoint split (sep : ascii) (s : string) : list string :=
  match s with
  | EmptyString => [""]
  | String c r =>
      if Ascii.eqb c sep then "" :: split sep r
      else match split sep r with
           | [] => [str1 c]
           | p :: ps => String c p :: ps
           end
  end.

End Chars.

(** ** JSON values, [JSON.stringify] and [JSON.parse] *)

Module JSON.
Import Chars.

(** A number is kept as its literal: the program never computes with the
    numbers of a request body, it only asks whether a value is one. *)
Inductive Json : Type :=
| JNull
| JBool (b : bool)
| JNum (lit : string)
| JStr (s : string)
| JArr (items : list Json)
| JObj (members : list (string * Json)).

(** The integer [z] as a JSON number. *)
Definition JInt (z : Z) : Json := JNum (NilZero.string_of_int (Z.to_int z)).

(** *** Printing *)

Definition escape_char (c : ascii) : string :=
  if Ascii.eqb c dquote then String backslash (str1 dquote)
  else if Ascii.eqb c backslash then String backslash (str1 backslash)
  else if (code c <? 32)%N then
    match code c with
    | 8 => String backslash "b"
    | 9 => String backslash "t"
    | 10 => String backslash "n"
    | 12 => String backslash "f"
    | 13 => String backslash "r"
    | n => String backslash
             ("u00" ++ String (hex_digit (n / 16)) (str1 (hex_digit (n mod 16))))
    end%N
  else str1 c.

Fixpoint escape (s : string) : string :=
  match s with
  | EmptyString => ""
  | String c r => escape_char c ++ escape r
  end.

Definition quote (s : string) : string :=
  String dquote (escape s ++ str1 dquote).

Fixpoint stringify (v : Json) : string :=
  match v with
  | JNull => "null"
  | JBool true => "true"
  | JBool false => "false"
  | JNum lit => lit
  | JStr s => quote s
  | JArr items => "[" ++ join "," (map stringify items) ++ "]"
  | JObj members =>
      "{" ++ join "," (map (fun kv => quote (fst kv) ++ ":" ++ stringify (snd kv))
                           members) ++ "}"
  end.

(** *** Parsing *)

Fixpoint skip_ws (s : string) : string :=
  match s with
  | String c r => if is_ws c then skip_ws r else s
  | EmptyString => s
  end.

Fixpoint take_digits (s : string) : string * string :=
  match s with
  | String c r =>
      if is_digit c then let (ds, r') := take_digits r in (String c ds, r')
      else ("", s)
  | EmptyString => ("", "")
  end.

(** The exponent part of a number, after the text [acc] already read. *)
Definition scan_exp (acc s : string) : option (string * string) :=
  match s with
  | String e r =>
      if Ascii.eqb e "e" || Ascii.eqb e "E" then
        let (sg, r1) :=
          match r with
          | String g r' =>
              if Ascii.eqb g "+" || Ascii.eqb g "-" then (str1 g, r') else ("", r)
          | EmptyString => ("", r)
          end in
        let (ds, r2) := take_digits r1 in
        match ds with
        | EmptyString => None
        | _ => Some (acc ++ str1 e ++ sg ++ ds, r2)
        end
      else Some (acc, s)
  | EmptyString => Some (acc, s)
  end.

(** The fraction part, then the exponent. *)
Definition scan_frac (acc s : string) : option (string * string) :=
  match s with
  | String d r =>
      if Ascii.eqb d "." then
        let (ds, r1) := take_digits r in
        match ds with
        | EmptyString => None
        | _ => scan_exp (acc ++ "." ++ ds) r1
        end
      else scan_exp acc s
  | EmptyString => scan_exp acc s
  end.

(** The integer part: [0], or a digit [1-9] followed by digits. *)
Definition scan_int (sign s : string) : option (string * string) :=
  match s with
  | String c r =>
      if Ascii.eqb c "0" then scan_frac (sign ++ "0") r
      else if is_digit19 c then
        let (ds, r1) := take_digits r in scan_frac (sign ++ String c ds) r1
      else None
  | EmptyString => None
  end.

(** A number literal at the head of [s], and what follows it. *)
Definition scan_number (s : string) : option (string * string) :=
  match s with
  | String c r => if Ascii.eqb c "-" then scan_int "-" r else scan_int "" s
  | EmptyString => None
  end.

(** UTF-8 of a code point below 65536. *)
Definition utf8_bmp (cp : N) : string :=
  (if cp <? 128 then str1 (ascii_of_N cp)
   else if cp <? 2048 then
     String (ascii_of_N (192 + cp / 64)) (str1 (ascii_of_N (128 + cp mod 64)))
   else
     String (ascii_of_N (224 + cp / 4096))
       (String (ascii_of_N (128 + (cp / 64) mod 64))
          (str1 (ascii_of_N (128 + cp mod 64)))))%N.

(** UTF-8 of the code point of a surrogate pair. *)
Definition utf8_pair (hi lo : N) : string :=
  (let cp := 65536 + (hi - 55296) * 1024 + (lo - 56320) in
   String (ascii_of_N (240 + cp / 262144))
     (String (ascii_of_N (128 + (cp / 4096) mod 64))
        (String (ascii_of_N (128 + (cp / 64) mod 64))
           (str1 (ascii_of_N (128 + cp mod 64))))))%N.

Definition hex4 (a b c d : ascii) : option N :=
  match hex_value a, hex_value b, hex_value c, hex_value d with
  | Some x, Some y, Some z, Some w => Some (((x * 16 + y) * 16 + z) * 16 + w)%N
  | _, _, _, _ => None
  end.

Definition is_high_surrogate (n : N) : bool := (55296 <=? n)%N && (n <=? 56319)%N.
Definition is_low_surrogate (n : N) : bool := (56320 <=? n)%N && (n <=? 57343)%N.

(** The low half of a surrogate pair written [\uXXXX] at the head of [s]. *)
Definition low_escape (s : string) : option N :=
  match s with
  | String b (String u (String h1 (String h2 (String h3 (String h4 _))))) =>
      if Ascii.eqb b backslash && Ascii.eqb u "u" then
        match hex4 h1 h2 h3 h4 with
        | Some lo => if is_low_surrogate lo then Some lo else None
        | None => None
        end
      else None
  | _ => None
  end.

(** The characters of a string literal after its opening quote, up to the
    closing quote, and what follows it. *)
Fixpoint string_body (s : string) : option (string * string) :=
  match s with
  | EmptyString => None
  | String c r =>
      if Ascii.eqb c dquote then Some ("", r)
      else if Ascii.eqb c backslash then
        match r with
        | EmptyString => None
        | String e r1 =>
            let simple (x : ascii) :=
              match string_body r1 with
              | Some (t, rest) => Some (String x t, rest)
              | None => None
              end in
            if Ascii.eqb e dquote then simple dquote
            else if Ascii.eqb e backslash then simple backslash
            else if Ascii.eqb e "/" then simple "/"%char
            else if Ascii.eqb e "b" then simple (ascii_of_N 8)
            else if Ascii.eqb e "f" then simple (ascii_of_N 12)
            else if Ascii.eqb e "n" then simple (ascii_of_N 10)
            else if Ascii.eqb e "r" then simple (ascii_of_N 13)
            else if Ascii.eqb e "t" then simple (ascii_of_N 9)
            else if Ascii.eqb e "u" then
              match r1 with
              | String h1 (String h2 (String h3 (String h4 r5))) =>
                  match hex4 h1 h2 h3 h4 with
                  | None => None
                  | Some cp =>
                      match (if is_high_surrogate cp then low_escape r5 else None), r5 with
                      | Some lo, String _ (String _ (String _ (String _ (String _ (String _ r11))))) =>
                          match string_body r11 with
                          | Some (t, rest) => Some (utf8_pair cp lo ++ t, rest)
                          | None => None
                          end
                      | _, _ =>
                          match string_body r5 with
                          | Some (t, rest) => Some (utf8_bmp cp ++ t, rest)
                          | None => None
                          end
                      end
                  end
              | _ => None
              end
            else None
        end
      else if (code c <? 32)%N then None
      else
        match string_body r with
        | Some (t, rest) => Some (String c t, rest)
        | None => None
        end
  end.

(** A value at the head of [s] (no leading white space), and what follows.
    Every nested value costs one unit of [fuel], every further element of an
    array or member of an object one more. *)
Fixpoint parse_value (fuel : nat) (s : string) : option (Json * string) :=
  match fuel with
  | O => None
  | S f =>
      match s with
      | String "n" (String "u" (String "l" (String "l" r))) => Some (JNull, r)
      | String "t" (String "r" (String "u" (String "e" r))) => Some (JBool true, r)
      | String "f" (String "a" (String "l" (String "s" (String "e" r)))) =>
          Some (JBool false, r)
      | String c r =>
          if Ascii.eqb c "[" then
            match skip_ws r with
            | EmptyString => None
            | String c1 r1 =>
                if Ascii.eqb c1 "]" then Some (JArr [], r1)
                else
                  match parse_elements f (String c1 r1) with
                  | Some (items, rest) => Some (JArr items, rest)
                  | None => None
                  end
            end
          else if Ascii.eqb c "{" then
            match skip_ws r with
            | EmptyString => None
            | String c1 r1 =>
                if Ascii.eqb c1 "}" then Some (JObj [], r1)
                else
                  match parse_members f (String c1 r1) with
                  | Some (ms, rest) => Some (JObj ms, rest)
                  | None => None
                  end
            end
          else if Ascii.eqb c dquote then
            match string_body r with
            | Some (t, rest) => Some (JStr t, rest)
            | None => None
            end
          else
            match scan_number s with
            | Some (lit, rest) => Some (JNum lit, rest)
            | None => None
            end
      | EmptyString => None
      end
  end

(** The elements of an array after its bracket, through the closing
    bracket. *)
with parse_elements (fuel : nat) (s : string) : option (list Json * string) :=
  match fuel with
  | O => None
  | S f =>
      match parse_value f s with
      | None => None
      | Some (v, r) =>
          match skip_ws r with
          | EmptyString => None
          | String c r' =>
              if Ascii.eqb c "]" then Some ([v], r')
              else if Ascii.eqb c "," then
                match parse_elements f (skip_ws r') with
                | Some (vs, rest) => Some (v :: vs, rest)
                | None => None
                end
              else None
          end
      end
  end

(** The members of an object after its brace, through the closing brace. *)
with parse_members (fuel : nat) (s : string) : option (list (string * Json) * string) :=
  match fuel with
  | O => None
  | S f =>
      match s with
      | EmptyString => None
      | String q r =>
          if Ascii.eqb q dquote then
            match string_body r with
            | None => None
            | Some (k, r1) =>
                match skip_ws r1 with
                | EmptyString => None
                | String colon r2 =>
                    if Ascii.eqb colon ":" then
                      match parse_value f (skip_ws r2) with
                      | None => None
                      | Some (v, r3) =>
                          match skip_ws r3 with
                          | EmptyString => None
                          | String c r' =>
                              if Ascii.eqb c "}" then Some ([(k, v)], r')
                              else if Ascii.eqb c "," then
                                match parse_members f (skip_ws r') with
                                | Some (ms, rest) => Some ((k, v) :: ms, rest)
                                | None => None
                                end
                              else None
                          end
                      end
                    else None
                end
            end
          else None
      end
  end.

(** [JSON.parse]: [None] stands for the [SyntaxError] it throws.  An object
    keeps its members as written; [get] reads the last one of a name, the
    one JavaScript keeps. *)
Definition parse (s : string) : option Json :=
  match parse_value (S (String.length s)) (skip_ws s) with
  | Some (v, rest) =>
      match skip_ws rest with
      | EmptyString => Some v
      | _ => None
      end
  | None => None
  end.

(** [obj[key]] on the members of an object: [None] is [undefined]. *)
Fixpoint get (key : string) (members : list (string * Json)) : option Json :=
  match members with
  | [] => None
  | (k, v) :: rest =>
      match get key rest with
      | Some v' => Some v'
      | None => if String.eqb k key then Some v else None
      end
  end.

(** *** Well-formed values

    A value [JSON.parse] can return: every number in it is a literal of the
    JSON grammar. *)

Definition number_literal (lit : string) : bool :=
  match scan_number lit with
  | Some (l, EmptyString) => String.eqb l lit
  | _ => false
  end.

Fixpoint wf (v : Json) : bool :=
  match v with
  | JNum lit => number_literal lit
  | JArr items => forallb wf items
  | JObj members => forallb (fun kv => wf (snd kv)) members
  | _ => true
  end.

(** The fuel [parse_value] needs for the text of a value. *)
Fixpoint size (v : Json) : nat :=
  match v with
  | JArr items => S (fold_right (fun x n => S (size x + n)) 0 items)
  | JObj members => S (fold_right (fun kv n => S (size (snd kv) + n)) 0 members)
  | _ => 1
  end.

(** What may follow a value inside a text: nothing, or a separator. *)
Definition delimited (rest : string) : bool :=
  match rest with
  | EmptyString => true
  | String c _ => Ascii.eqb c "," || Ascii.eqb c "]" || Ascii.eqb c "}"
  end.

End JSON.

(** ** JavaScript numbers and truthiness *)

Module JS.
Import Chars.

(** The numbers the program computes with are integers (seconds, status
    codes); [NaN] is what [parseInt] yields on text with no leading digits,
    and it absorbs addition.  [Int z] stands for the number of value [z]
    when a double holds [z] exactly, that is up to 2^53 - 1 in absolute
    value; the properties below say so where they compute with numbers. *)
Inductive Number : Type :=
| Int (z : Z)
| NaN.

Definition add (a b : Number) : Number :=
  match a, b with
  | Int x, Int y => Int (x + y)
  | _, _ => NaN
  end.

(** A number as [JSON.stringify] writes it: [NaN] becomes [null]. *)
Definition number_json (n : Number) : JSON.Json :=
  match n with
  | Int z => JSON.JInt z
  | NaN => JSON.JNull
  end.

(** [!!v] for a value that is a string or [undefined]. *)
Definition truthy (v : option string) : bool :=
  match v with
  | Some (String _ _) => true
  | _ => false
  end.

(** [v || d] for such a value. *)
Definition or_else (v : option string) (d : string) : string :=
  match v with
  | Some (String c r) => String c r
  | _ => d
  end.

(** White space [parseInt] skips (the ASCII part of it). *)
Definition is_js_ws (c : ascii) : bool :=
  match code c with
  | 32 | 9 | 10 | 11 | 12 | 13 => true
  | _ => false
  end%N.

Fixpoint skip_js_ws (s : string) : string :=
  match s with
  | String c r => if is_js_ws c then skip_js_ws r else s
  | EmptyString => s
  end.

Fixpoint digits_value (acc : Z) (ds : string) : Z :=
  match ds with
  | String c r => digits_value (10 * acc + (Z.of_N (code c) - 48)) r
  | EmptyString => acc
  end.

(** [parseInt(s, 10)]: optional white space, an optional sign, then the
    longest run of decimal digits; [NaN] when there is none. *)
Definition parseInt (s : string) : Number :=
  let s1 := skip_js_ws s in
  let (negative, s2) :=
    match s1 with
    | String c r =>
        if Ascii.eqb c "-" then (true, r)
        else if Ascii.eqb c "+" then (false, r)
        else (false, s1)
    | EmptyString => (false, s1)
    end in
  match fst (JSON.take_digits s2) with
  | EmptyString => NaN
  | ds => Int (if negative then - digits_value 0 ds else digits_value 0 ds)
  end.

(** What a [try] block yields: a value, or the message of the [Error] thrown. *)
Inductive Try (A : Type) : Type :=
| Returned (a : A)
| Thrown (message : string).
Arguments Returned {A} a.
Arguments Thrown {A} message.

End JS.

(** ** HTTP responses of the OAuth endpoints and the middleware *)

Module Http.

Record Response : Type := { status : Z; body : JSON.Json }.

(** [res.status(code).json({error, error_description})]. *)
Definition oauth_error (code : Z) (error description : string) : Response :=
  {| status := code;
     body := JSON.JObj [("error", JSON.JStr error);
                        ("error_description", JSON.JStr description)] |}.

End Http.

(** ** [jsonwebtoken]: signing and verifying

    The library is not part of the repository.  Its cryptography and its
    wire format (RS256 over the base64url of a JSON header and payload) are
    an interface, [Backend], with the laws every conforming implementation
    satisfies; [sign] and [verify] follow the library's documented steps on
    top of it. *)

Module Jwt.
Import JS.

Record JoseHeader : Type := { alg : string; typ : option string }.

(** [jwt.JwtPayload], the claims the program writes or reads.  A date that
    is present but not a number ([NaN] when signing, which JSON writes as
    [null]) is [Some NaN]. *)
Record JwtPayload : Type := {
  iss : option string;
  sub : option string;
  aud : option string;
  exp : option Number;
  nbf : option Number;
  iat : option Number;
  role : option string;
  scope : option string
}.

(** [crypto.JsonWebKey] of an RSA public key: modulus and exponent. *)
Record JsonWebKey : Type := { jwk_n : option string; jwk_e : option string }.

(** No space in the text, and some text. *)
Definition compact (s : string) : bool :=
  match s with
  | EmptyString => false
  | _ => forallb (fun c => negb (Ascii.eqb c " ")) (list_ascii_of_string s)
  end.

Class Backend : Type := {
  PrivateKey : Type;
  PublicKey : Type;
  (** the public half of a generated pair *)
  public_of : PrivateKey -> PublicKey;
  (** SHA-256 of the key's SPKI encoding, in hexadecimal *)
  fingerprint : PublicKey -> string;
  (** [key.export({format: 'jwk'})], and the key a verifier rebuilds from a
      published modulus and exponent *)
  export_jwk : PublicKey -> JsonWebKey;
  import_jwk : string -> string -> option PublicKey;
  (** the compact serialisation of a signed token *)
  jws_sign : JoseHeader -> JwtPayload -> PrivateKey -> string;
  (** header and payload of a three-part token, when it has that shape *)
  jws_decode : string -> option (JoseHeader * JwtPayload);
  (** [jws.decode] throws instead of returning: the token has three parts,
      its header says [typ: 'JWT'], and its payload is no JSON text, which
      the unguarded [JSON.parse] of the payload answers with a SyntaxError *)
  jws_throws : string -> bool;
  (** [jws.verify(token, algorithm, key)] *)
  jws_verify : string -> string -> PublicKey -> bool;

  decode_sign : forall h p k, jws_decode (jws_sign h p k) = Some (h, p);
  sign_readable : forall h p k, jws_throws (jws_sign h p k) = false;
  verify_sign : forall h p k,
      alg h = "RS256" -> jws_verify (jws_sign h p k) "RS256" (public_of k) = true;
  sign_compact : forall h p k, compact (jws_sign h p k) = true;
  import_export : forall pk,
      exists n e, export_jwk pk = {| jwk_n := Some n; jwk_e := Some e |}
                  /\ n <> "" /\ e <> "" /\ import_jwk n e = Some pk
}.

(** What [jwt.verify] throws: its own three classes of error, and the
    SyntaxError of [jws.decode], which it passes on as it is. *)
Inductive VerifyError : Type :=
| TokenExpiredError
| NotBeforeError
| JsonWebTokenError (message : string)
| SyntaxError.

Inductive Verified : Type :=
| Decoded (payload : JwtPayload)
| Failed (e : VerifyError).

Section WithBackend.
Context {B : Backend}.

(** [jwt.sign(payload, key, {algorithm})]: the header names the algorithm,
    and [iat] is the payload's own when it has a truthy one, the clock's
    otherwise. *)
Definition sign (clock : Z) (payload : JwtPayload) (key : PrivateKey)
    (algorithm : string) : string :=
  let timestamp :=
    match iat payload with
    | Some (Int t) => if (t =? 0)%Z then Int clock else Int t
    | _ => Int clock
    end in
  jws_sign {| alg := algorithm; typ := Some "JWT" |}
    {| iss := iss payload; sub := sub payload; aud := aud payload;
       exp := exp payload; nbf := nbf payload; iat := Some timestamp;
       role := role payload; scope := scope payload |}
    key.

(** The two checks of time, [nbf] before [exp]: a token is rejected while
    [nbf > clock] and from [clock >= exp] on. *)
Definition check_dates (clockTimestamp : Z) (payload : JwtPayload) : Verified :=
  let not_before :=
    match nbf payload with
    | Some NaN => Some (JsonWebTokenError "invalid nbf value")
    | Some (Int n) => if (n >? clockTimestamp)%Z then Some NotBeforeError else None
    | None => None
    end in
  match not_before with
  | Some e => Failed e
  | None =>
      match exp payload with
      | Some NaN => Failed (JsonWebTokenError "invalid exp value")
      | Some (Int e) =>
          if (clockTimestamp >=? e)%Z then Failed TokenExpiredError
          else Decoded payload
      | None => Decoded payload
      end
  end.

(** [jwt.verify(token, key, {algorithms})] at [clockTimestamp]: structure,
    algorithm, signature, then the dates.  The error of a decoding that
    throws is passed on.  No issuer, audience or subject option is passed, so
    none of them is compared. *)
Definition verify (clockTimestamp : Z) (token : string) (key : PublicKey)
    (algorithms : list string) : Verified :=
  if jws_throws token then Failed SyntaxError
  else
    match jws_decode token with
    | None => Failed (JsonWebTokenError "jwt malformed")
    | Some (header, payload) =>
        if negb (existsb (String.eqb (alg header)) algorithms) then
          Failed (JsonWebTokenError "invalid algorithm")
        else if negb (jws_verify token (alg header) key) then
          Failed (JsonWebTokenError "invalid signature")
        else check_dates clockTimestamp payload
    end.

End WithBackend.
End Jwt.

(** ** [utils/jwt-keys.ts]: the key manager *)

Module JwtKeys.
Import JS Jwt.

Section WithBackend.
Context {B : Backend}.

Record KeyPair : Type := {
  privateKey : PrivateKey;
  publicKey : PublicKey;
  kid : string
}.

(** The module-level [keyPair]: [None] is [null], before the first
    generation. *)
Definition KeyState : Type := option KeyPair.

Definition not_initialized : string :=
  "Key pair not initialized. Call generateRSAKeyPair() first.".

(** [generateRSAKeyPair()], the generated private key being [fresh]: the key
    id is the first 16 characters of the public key's fingerprint. *)
Definition generateRSAKeyPair (fresh : PrivateKey) : KeyState :=
  let publicKeyBuffer := public_of fresh in
  Some {| privateKey := fresh;
          publicKey := publicKeyBuffer;
          kid := substring 0 16 (fingerprint publicKeyBuffer) |}.

Definition getPrivateKey (keyPair : KeyState) : Try PrivateKey :=
  match keyPair with
  | None => Thrown not_initialized
  | Some kp => Returned (privateKey kp)
  end.

Definition getPublicKey (keyPair : KeyState) : Try PublicKey :=
  match keyPair with
  | None => Thrown not_initialized
  | Some kp => Returned (publicKey kp)
  end.

(** One entry of the discovery document. *)
Record Jwk : Type := {
  kty : string;
  use : string;
  jwk_kid : string;
  n : string;
  e : string
}.

Definition getPublicKeyJWK (keyPair : KeyState) : Try (list Jwk) :=
  match keyPair with
  | None => Thrown not_initialized
  | Some kp =>
      let jwk := export_jwk (publicKey kp) in
      Returned [ {| kty := "RSA"; use := "sig"; jwk_kid := kid kp;
                    n := or_else (jwk_n jwk) "";
                    e := or_else (jwk_e jwk) "" |} ]
  end.

(** The key a client verifies with, rebuilt from the published document. *)
Definition published_key (keys : list Jwk) : option PublicKey :=
  match keys with
  | [k] => import_jwk (n k) (e k)
  | _ => None
  end.

End WithBackend.
End JwtKeys.

(** ** Configuration read from the environment at start-up *)

Module Config.
Import JS.

Inductive Role : Type := readonly | readwrite | admin.

Definition role_name (r : Role) : string :=
  match r with
  | readonly => "readonly"
  | readwrite => "readwrite"
  | admin => "admin"
  end.

Record ClientConfig : Type := {
  clientId : string;
  clientSecret : string;
  client_role : Role
}.

Record UserConfig : Type := {
  username : string;
  password : string;
  user_role : Role
}.

(** [process.env]: a variable is a string or [undefined]. *)
Record Env : Type := {
  OAUTH_CLIENT_ID_READONLY : option string;
  OAUTH_CLIENT_SECRET_READONLY : option string;
  OAUTH_CLIENT_ID_READWRITE : option string;
  OAUTH_CLIENT_SECRET_READWRITE : option string;
  OAUTH_CLIENT_ID_ADMIN : option string;
  OAUTH_CLIENT_SECRET_ADMIN : option string;
  OAUTH_USERNAME_READONLY : option string;
  OAUTH_PASSWORD_READONLY : option string;
  OAUTH_USERNAME_READWRITE : option string;
  OAUTH_PASSWORD_READWRITE : option string;
  OAUTH_USERNAME_ADMIN : option string;
  OAUTH_PASSWORD_ADMIN : option string;
  OAUTH_TOKEN_EXPIRES_IN : option string
}.

Definition nonempty (s : string) : bool :=
  match s with
  | EmptyString => false
  | String _ _ => true
  end.

(** The configured clients: the three roles' entries, those with an empty
    identifier or secret filtered out. *)
Definition clients (env : Env) : list ClientConfig :=
  filter (fun client => nonempty (clientId client) && nonempty (clientSecret client))
    [ {| clientId := or_else (OAUTH_CLIENT_ID_READONLY env) "";
         clientSecret := or_else (OAUTH_CLIENT_SECRET_READONLY env) "";
         client_role := readonly |};
      {| clientId := or_else (OAUTH_CLIENT_ID_READWRITE env) "";
         clientSecret := or_else (OAUTH_CLIENT_SECRET_READWRITE env) "";
         client_role := readwrite |};
      {| clientId := or_else (OAUTH_CLIENT_ID_ADMIN env) "";
         clientSecret := or_else (OAUTH_CLIENT_SECRET_ADMIN env) "";
         client_role := admin |} ].

Definition users (env : Env) : list UserConfig :=
  filter (fun user => nonempty (username user) && nonempty (password user))
    [ {| username := or_else (OAUTH_USERNAME_READONLY env) "";
         password := or_else (OAUTH_PASSWORD_READONLY env) "";
         user_role := readonly |};
      {| username := or_else (OAUTH_USERNAME_READWRITE env) "";
         password := or_else (OAUTH_PASSWORD_READWRITE env) "";
         user_role := readwrite |};
      {| username := or_else (OAUTH_USERNAME_ADMIN env) "";
         password := or_else (OAUTH_PASSWORD_ADMIN env) "";
         user_role := admin |} ].

Definition TOKEN_EXPIRES_IN (env : Env) : Number :=
  parseInt (or_else (OAUTH_TOKEN_EXPIRES_IN env) "3600").

(** The body of [POST /oauth/token], form-encoded: each field is a string
    or absent. *)
Record TokenRequest : Type := {
  grant_type : option string;
  client_id : option string;
  client_secret : option string;
  req_username : option string;
  req_password : option string;
  req_scope : option string
}.

(** [value === field] for a configured string and a request field. *)
Definition same (configured : string) (field : option string) : bool :=
  match field with
  | Some s => String.eqb configured s
  | None => false
  end.

(** [clients.find((c) => c.clientId === clientId && c.clientSecret ===
    clientSecret)]: the first configured client with both. *)
Definition find_client (env : Env) (id secret : option string) : option ClientConfig :=
  find (fun c => same (clientId c) id && same (clientSecret c) secret) (clients env).

Definition find_user (env : Env) (name pass : option string) : option UserConfig :=
  find (fun u => same (username u) name && same (password u) pass) (users env).

(** [if (scope) obj.scope = scope]: the member, when the scope is truthy. *)
Definition scope_member (scope : option string) : list (string * JSON.Json) :=
  match scope with
  | Some (String c r) => [("scope", JSON.JStr (String c r))]
  | _ => []
  end.

Definition scope_claim (scope : option string) : option string :=
  match scope with
  | Some (String c r) => Some (String c r)
  | _ => None
  end.

End Config.

(** ** [routes/oauth.ts]: the token endpoint, client-credentials grant *)

Module OAuth.
Import JS Http Jwt JwtKeys Config.

Section WithBackend.
Context {B : Backend}.

(** The claims minted for [subject] with [role] at [now]. *)
Definition mint (env : Env) (now : Z) (subject : option string) (role : Role)
    (scope : option string) : JwtPayload :=
  let expiresAt := add (Int now) (TOKEN_EXPIRES_IN env) in
  {| iss := Some "example-app";
     sub := subject;
     aud := Some "example-app";
     exp := Some expiresAt;
     nbf := None;
     iat := Some (Int now);
     role := Some (role_name role);
     scope := scope_claim scope |}.

(** The token response. *)
Definition token_response (env : Env) (accessToken : string)
    (scope : option string) : Response :=
  {| status := 200;
     body := JSON.JObj ([("access_token", JSON.JStr accessToken);
                         ("token_type", JSON.JStr "Bearer");
                         ("expires_in", number_json (TOKEN_EXPIRES_IN env))]
                        ++ scope_member scope) |}.

(** Sign the payload and answer; an error thrown on the way is caught and
    answered with [server_error]. *)
Definition issue (env : Env) (keyPair : KeyState) (now : Z)
    (payload : JwtPayload) (scope : option string) : Response :=
  match getPrivateKey keyPair with
  | Thrown message => oauth_error 500 "server_error" message
  | Returned privateKey =>
      let accessToken := sign now payload privateKey "RS256" in
      token_response env accessToken scope
  end.

Definition tokenHandler (env : Env) (keyPair : KeyState) (now : Z)
    (req : TokenRequest) : Response :=
  match clients env with
  | [] =>
      oauth_error 500 "server_error"
        "OAuth server configuration error: No clients configured"
  | _ =>
      let grantType := grant_type req in
      let clientId := client_id req in
      let clientSecret := client_secret req in
      let scope := req_scope req in
      if negb (truthy grantType) then
        oauth_error 400 "invalid_request" "Missing required parameter: grant_type"
      else if negb (same "client_credentials" grantType) then
        oauth_error 400 "invalid_grant" "Unsupported grant type"
      else if negb (truthy clientId) then
        oauth_error 400 "invalid_request" "Missing required parameter: client_id"
      else if negb (truthy clientSecret) then
        oauth_error 400 "invalid_request" "Missing required parameter: client_secret"
      else
        match find_client env clientId clientSecret with
        | None => oauth_error 401 "invalid_client" "Invalid client credentials"
        | Some client =>
            issue env keyPair now
              (mint env now clientId (client_role client) scope) scope
        end
  end.

End WithBackend.
End OAuth.

(** ** The token endpoint with the password grant added (a later revision
    of [routes/oauth.ts]) *)

Module OAuthPassword.
Import JS Http Jwt JwtKeys Config.

Section WithBackend.
Context {B : Backend}.

Definition tokenHandler (env : Env) (keyPair : KeyState) (now : Z)
    (req : TokenRequest) : Response :=
  let grantType := grant_type req in
  let scope := req_scope req in
  if negb (truthy grantType) then
    oauth_error 400 "invalid_request" "Missing required parameter: grant_type"
  else if same "client_credentials" grantType then
    match clients env with
    | [] =>
        oauth_error 500 "server_error"
          "OAuth server configuration error: No clients configured"
    | _ =>
        let clientId := client_id req in
        let clientSecret := client_secret req in
        if negb (truthy clientId) then
          oauth_error 400 "invalid_request" "Missing required parameter: client_id"
        else if negb (truthy clientSecret) then
          oauth_error 400 "invalid_request" "Missing required parameter: client_secret"
        else
          match find_client env clientId clientSecret with
          | None => oauth_error 401 "invalid_client" "Invalid client credentials"
          | Some client =>
              OAuth.issue env keyPair now
                (OAuth.mint env now clientId (client_role client) scope) scope
          end
    end
  else if same "password" grantType then
    match users env with
    | [] =>
        oauth_error 500 "server_error"
          "OAuth server configuration error: No users configured"
    | _ =>
        let username := req_username req in
        let password := req_password req in
        if negb (truthy username) then
          oauth_error 400 "invalid_request" "Missing required parameter: username"
        else if negb (truthy password) then
          oauth_error 400 "invalid_request" "Missing required parameter: password"
        else
          match find_user env username password with
          | None => oauth_error 401 "invalid_grant" "Invalid username or password"
          | Some user =>
              OAuth.issue env keyPair now
                (OAuth.mint env now username (user_role user) scope) scope
          end
    end
  else
    oauth_error 400 "invalid_grant"
      "Unsupported grant type. Supported types: client_credentials, password".

End WithBackend.
End OAuthPassword.

(** ** [middleware/auth.ts]: the bearer-token middleware *)

Module Auth.
Import JS Http Jwt JwtKeys.

Section WithBackend.
Context {B : Backend}.

(** What the middleware does with a request: call [next()] with the decoded
    claims stored in [req.user], or answer it. *)
Inductive Outcome : Type :=
| Next (user : JwtPayload)
| Respond (r : Response).

Definition unauthorized (description : string) : Outcome :=
  Respond (oauth_error 401 "unauthorized" description).

(** [authorization] is [req.headers.authorization]; [clock] the time in
    seconds at which [jwt.verify] runs. *)
Definition authenticateToken (keyPair : KeyState) (clock : Z)
    (authorization : option string) : Outcome :=
  if negb (truthy authorization) then
    unauthorized "Missing Authorization header"
  else
    let authHeader := or_else authorization "" in
    let parts := Chars.split " " authHeader in
    if negb (Nat.eqb (List.length parts) 2)
       || negb (String.eqb (nth 0 parts "") "Bearer") then
      unauthorized "Invalid Authorization header format. Expected: Bearer <token>"
    else
      let token := nth 1 parts "" in
      if negb (Config.nonempty token) then
        unauthorized "Missing access token"
      else
        match getPublicKey keyPair with
        | Thrown _ => Respond (oauth_error 500 "server_error" "Authentication error")
        | Returned publicKey =>
            match verify clock token publicKey ["RS256"] with
            | Decoded decoded => Next decoded
            | Failed TokenExpiredError => unauthorized "Token has expired"
            | Failed NotBeforeError => unauthorized "Token not yet valid"
            | Failed (JsonWebTokenError _) => unauthorized "Invalid or malformed token"
            | Failed SyntaxError =>
                Respond (oauth_error 500 "server_error" "Authentication error")
            end
        end.

(** A protected route, [app.post(path, authenticateToken, handler)]: the
    handler runs on the state [S] of the application only when the
    middleware calls [next()].  The second component counts the runs of the
    handler. *)
Definition protected {S R : Type} (respond : Response -> R)
    (handler : JwtPayload -> S -> R * S) (keyPair : KeyState) (clock : Z)
    (authorization : option string) (st : S) : R * S * nat :=
  match authenticateToken keyPair clock authorization with
  | Next user => (handler user st, 1)
  | Respond r => (respond r, st, 0)
  end.

End WithBackend.
End Auth.

(** ** [routes/chat.ts]: the chat handler and its tool-call loop *)

Module Chat.
Import Chars JSON JS Jwt.

Inductive Level : Type := insecure | secure.

Inductive Domain : Type := general | finance | medicine | vacation_rental | taxes.

(** [levelPathSchema] and [FISH_TO_LEVEL]: the path parameter is [minnow]
    or [shark]. *)
Definition FISH_TO_LEVEL (fish : option string) : option Level :=
  match fish with
  | Some "minnow" => Some insecure
  | Some "shark" => Some secure
  | _ => None
  end.

Definition domain_of (s : string) : option Domain :=
  if String.eqb s "general" then Some general
  else if String.eqb s "finance" then Some finance
  else if String.eqb s "medicine" then Some medicine
  else if String.eqb s "vacation-rental" then Some vacation_rental
  else if String.eqb s "taxes" then Some taxes
  else None.

Record Query : Type := { model : option string; domain : Domain }.

(** [chatQuerySchema]: an optional string [model], a [domain] of the
    enumeration with [general] as default, and no other key. *)
Definition chatQuerySchema (query : list (string * Json)) : option Query :=
  if forallb (fun kv => String.eqb (fst kv) "model" || String.eqb (fst kv) "domain") query
  then
    match get "model" query, get "domain" query with
    | None, None => Some {| model := None; domain := general |}
    | Some (JStr m), None => Some {| model := Some m; domain := general |}
    | None, Some (JStr d) =>
        option_map (fun d' => {| model := None; domain := d' |}) (domain_of d)
    | Some (JStr m), Some (JStr d) =>
        option_map (fun d' => {| model := Some m; domain := d' |}) (domain_of d)
    | _, _ => None
    end
  else None.

(** A turn as the caller writes it, and as the schema returns it. *)
Record Turn : Type := { role : string; content : string }.

Definition turn_json (t : Turn) : Json :=
  JObj [("role", JStr (role t)); ("content", JStr (content t))].

Definition user_turn (text : string) : Json :=
  turn_json {| role := "user"; content := text |}.

(** [normalizeMessages(input)], [None] being [undefined].  An array is
    returned as it is; a string is tried as JSON first; anything else is
    wrapped as one user turn holding [String(input)], which throws on an
    object with a [toString] member of its own.  For a number the literal
    stands for [String(input)], which it is when the literal is an integer
    in decimal digits that a JavaScript number holds exactly. *)
Definition normalizeMessages (input : option Json) : Try (list Json) :=
  match input with
  | Some (JArr items) => Returned items
  | Some (JStr text) =>
      match parse text with
      | Some (JArr items) => Returned items
      | Some (JObj members) => Returned [JObj members]
      | Some _ => Returned [user_turn text]
      | None => Returned [user_turn text]
      end
  | None => Returned [user_turn "undefined"]
  | Some JNull => Returned [user_turn "null"]
  | Some (JBool true) => Returned [user_turn "true"]
  | Some (JBool false) => Returned [user_turn "false"]
  | Some (JNum lit) => Returned [user_turn lit]
  | Some (JObj members) =>
      match get "toString" members with
      | Some _ => Thrown "Cannot convert object to primitive value"
      | None => Returned [user_turn "[object Object]"]
      end
  end.

(** [z.object({role: z.string(), content: z.string()})]: other members are
    stripped. *)
Definition turn_schema (v : Json) : option Turn :=
  match v with
  | JObj members =>
      match get "role" members, get "content" members with
      | Some (JStr r), Some (JStr c) => Some {| role := r; content := c |}
      | _, _ => None
      end
  | _ => None
  end.

Fixpoint turns_schema (items : list Json) : option (list Turn) :=
  match items with
  | [] => Some []
  | v :: rest =>
      match turn_schema v, turns_schema rest with
      | Some t, Some ts => Some (t :: ts)
      | _, _ => None
      end
  end.

(** [z.array(...).min(1)]. *)
Definition messages_schema (items : list Json) : option (list Turn) :=
  match items with
  | [] => None
  | _ => turns_schema items
  end.

(** The result of [safeParse], or the exception that escaped it. *)
Inductive Parsed (A : Type) : Type :=
| Valid (data : A)
| Invalid
| Raised (message : string).
Arguments Valid {A} data.
Arguments Invalid {A}.
Arguments Raised {A} message.

(** [chatBodySchema.safeParse(req.body)]. *)
Definition chatBodySchema (body : Json) : Parsed (list Turn) :=
  match body with
  | JObj members =>
      match normalizeMessages (get "messages" members) with
      | Thrown message => Raised message
      | Returned items =>
          match messages_schema items with
          | Some turns => Valid turns
          | None => Invalid
          end
      end
  | _ => Invalid
  end.

(** *** The conversation with the completion service *)

Record ToolCall : Type := {
  call_id : string;
  function_name : string;
  function_arguments : option string
}.

Inductive Message : Type :=
| Plain (t : Turn)
| AssistantToolCalls (text : option string) (calls : list ToolCall)
| ToolResult (tool_call_id : string) (result : string).

Record ToolDefinition : Type := { tool_name : string; tool_description : string }.

Definition TOOLS : list ToolDefinition :=
  [ {| tool_name := "get_user";
       tool_description := "Get information about the current authenticated user including their ID, role, and token details" |} ].

Record LitellmRequest : Type := {
  messages : list Message;
  tools : list ToolDefinition;
  tool_choice : string;
  request_model : option string
}.

Record AssistantMessage : Type := {
  message_content : option string;
  tool_calls : option (list ToolCall)
}.

Record Choice : Type := { message : option AssistantMessage }.

Record Completion : Type := { choices : list Choice }.

(** What [fetch] resolves to: the status, the body as text, and the body as
    [response.json()] reads it ([None] when that throws). *)
Record FetchReply : Type := {
  reply_status : Z;
  reply_text : string;
  reply_json : option Completion
}.

Inductive Fetched : Type :=
| Reply (r : FetchReply)
| Rejected (message : string).

(** The completion service: its answer to the [k]-th call of a request,
    [k] counted from 1. *)
Definition Upstream : Type := nat -> LitellmRequest -> Fetched.

Definition ok (r : FetchReply) : bool :=
  (200 <=? reply_status r)%Z && (reply_status r <=? 299)%Z.

Inductive ChatBody : Type :=
| ErrorBody (error message : string)
| Data (data : Completion).

Record ChatResponse : Type := { status : Z; body : ChatBody }.

(** A handled request: the response, the requests sent upstream in order,
    the rounds of tool execution and the tools run. *)
Record Handled : Type := {
  response : ChatResponse;
  upstream_calls : list LitellmRequest;
  tool_rounds : nat;
  tools_run : list string
}.

Record ChatRequest : Type := {
  params_level : option string;
  query : list (string * Json);
  req_body : Json;
  user : option JwtPayload
}.

Definition MAX_TOOL_ITERATIONS : nat := 10.

Section Handler.
(** [getSystemPrompt], read from the domains' prompt files. *)
Variable getSystemPrompt : Domain -> Level -> string.
(** [new Date(ms).toISOString()]. *)
Variable toISOString : Z -> string.

Definition opt_member (key : string) (v : option string) : list (string * Json) :=
  match v with
  | Some s => [(key, JStr s)]
  | None => []
  end.

(** [t ? new Date(t * 1000).toISOString() : null].  [toISOString] throws on
    a time outside the range of a [Date], 8.64e15 milliseconds either side
    of the epoch; the function here is read within that range only. *)
Definition iso_or_null (seconds : option Number) : Json :=
  match seconds with
  | Some (Int t) => if (t =? 0)%Z then JNull else JStr (toISOString (t * 1000))
  | _ => JNull
  end.

(** [executeToolCall(toolName, args, req)]. *)
Definition executeToolCall (toolName : string) (args : Json)
    (req_user : option JwtPayload) : string :=
  if String.eqb toolName "get_user" then
    match req_user with
    | Some u =>
        stringify
          (JObj (opt_member "userId" (sub u)
                 ++ [("role", JStr (or_else (Jwt.role u) "unknown"))]
                 ++ opt_member "issuer" (iss u)
                 ++ opt_member "audience" (aud u)
                 ++ [("issuedAt", iso_or_null (iat u));
                     ("expiresAt", iso_or_null (exp u));
                     ("scope", match scope u with
                               | Some (String c r) => JStr (String c r)
                               | _ => JNull
                               end)]))
    | None =>
        stringify
          (JObj [("error", JStr "No authenticated user");
                 ("message", JStr "This endpoint requires authentication to retrieve user information")])
    end
  else
    stringify
      (JObj [("error", JStr "Unknown tool");
             ("message", JStr ("Tool '" ++ toolName ++ "' is not available"))]).

(** One tool call of the assistant's message: parse the arguments (an
    unreadable text counts as no argument), run the tool, and phrase the
    result as a [tool] message. *)
Definition run_tool (req_user : option JwtPayload) (toolCall : ToolCall) : Message :=
  let toolName := function_name toolCall in
  let toolArgs :=
    match parse (or_else (function_arguments toolCall) "{}") with
    | Some v => v
    | None => JObj []
    end in
  ToolResult (call_id toolCall) (executeToolCall toolName toolArgs req_user).

(** [data.choices?.[0]?.message]'s tool calls, when there is at least one. *)
Definition requested_calls (data : Completion) : list ToolCall :=
  match choices data with
  | {| message := Some m |} :: _ =>
      match tool_calls m with
      | Some calls => calls
      | None => []
      end
  | _ => []
  end.

Definition first_content (data : Completion) : option string :=
  match choices data with
  | {| message := Some m |} :: _ => message_content m
  | _ => None
  end.

Definition error_response (code : Z) (error message : string) : ChatResponse :=
  {| status := code; body := ErrorBody error message |}.

Definition limit_message : string :=
  "Maximum tool call iterations (10) reached".

(** The [while (iteration < MAX_TOOL_ITERATIONS)] loop, with [left]
    iterations to go and [h] what has happened so far. *)
Fixpoint tool_loop (upstream : Upstream) (req_user : option JwtPayload)
    (request : LitellmRequest) (left : nat) (h : Handled) : Handled :=
  match left with
  | O =>
      {| response := error_response 500 "Tool call limit exceeded" limit_message;
         upstream_calls := upstream_calls h;
         tool_rounds := tool_rounds h;
         tools_run := tools_run h |}
  | S left' =>
      let iteration := S (List.length (upstream_calls h)) in
      let sent := (upstream_calls h ++ [request])%list in
      let answer r :=
        {| response := r; upstream_calls := sent;
           tool_rounds := tool_rounds h; tools_run := tools_run h |} in
      match upstream iteration request with
      | Rejected message => answer (error_response 500 "Internal server error" message)
      | Reply r =>
          if negb (ok r) then
            answer (error_response (reply_status r) "LiteLLM server error" (reply_text r))
          else
            match reply_json r with
            | None =>
                answer (error_response 500 "Internal server error"
                          "Unexpected token in JSON")
            | Some data =>
                match requested_calls data with
                | [] => answer {| status := 200; body := Data data |}
                | calls =>
                    let assistant :=
                      AssistantToolCalls
                        (match first_content data with
                         | Some (String c t) => Some (String c t)
                         | _ => None
                         end) calls in
                    tool_loop upstream req_user
                      {| messages := (messages request ++ assistant
                                       :: map (run_tool req_user) calls)%list;
                         tools := tools request;
                         tool_choice := tool_choice request;
                         request_model := request_model request |}
                      left'
                      {| response := response h;
                         upstream_calls := sent;
                         tool_rounds := S (tool_rounds h);
                         tools_run := (tools_run h ++ map function_name calls)%list |}
                end
            end
      end
  end.

Definition nothing_yet (r : ChatResponse) : Handled :=
  {| response := r; upstream_calls := []; tool_rounds := 0; tools_run := [] |}.

(** The message of a validation error is the text [zod] makes of its
    issues (after a fixed opening, for the path), and that of a body that
    does not read as JSON is the platform's; neither text is modelled, the
    strings here stand for them, and the claims about such a response are
    about its status and its error name. *)
Definition chatHandler (upstream : Upstream) (req : ChatRequest) : Handled :=
  match FISH_TO_LEVEL (params_level req) with
  | None =>
      nothing_yet (error_response 400 "Invalid path parameter"
                     "Security level must be 'minnow' or 'shark'.")
  | Some level =>
      match chatQuerySchema (query req) with
      | None => nothing_yet (error_response 400 "Invalid query parameters" "")
      | Some q =>
          match chatBodySchema (req_body req) with
          | Raised message =>
              nothing_yet (error_response 500 "Internal server error" message)
          | Invalid => nothing_yet (error_response 400 "Invalid request body" "")
          | Valid userMessages =>
              let systemPrompt := getSystemPrompt (domain q) level in
              let litellmRequest :=
                {| messages :=
                     Plain {| role := "system"; content := systemPrompt |}
                     :: map Plain userMessages;
                   tools := TOOLS;
                   tool_choice := "auto";
                   request_model :=
                     match model q with
                     | Some (String c m) => Some (String c m)
                     | _ => None
                     end |} in
              tool_loop upstream (user req) litellmRequest MAX_TOOL_ITERATIONS
                (nothing_yet (error_response 0 "" ""))
          end
      end
  end.

End Handler.
End Chat.

(** ** [routes/oauth.ts]: the discovery endpoint *)

Module Jwks.
Import JSON JS Http Jwt JwtKeys.

Section WithBackend.
Context {B : Backend}.

(** One key of the document, as [res.json] writes it. *)
Definition jwk_json (k : Jwk) : Json :=
  JObj [("kty", JStr (kty k));
        ("use", JStr (use k));
        ("kid", JStr (jwk_kid k));
        ("n", JStr (n k));
        ("e", JStr (e k))].

(** [jwksHandler]: the document of [getPublicKeyJWK], or [server_error]
    with the message of the error it threw. *)
Definition jwksHandler (keyPair : KeyState) : Response :=
  match getPublicKeyJWK keyPair with
  | Returned jwks =>
      {| status := 200; body := JObj [("keys", JArr (map jwk_json jwks))] |}
  | Thrown message => oauth_error 500 "server_error" message
  end.

End WithBackend.
End Jwks.

(** ** [server.ts]: the two chat routes *)

Module Server.
Import JSON JS Http Jwt JwtKeys.

(** What a route with the middleware in front answers: the middleware's own
    response, or what the handler did. *)
Inductive Served : Type :=
| Refused (r : Response)
| Reached (h : Chat.Handled).

Section Routes.
Context {B : Backend}.
Variable getSystemPrompt : Chat.Domain -> Chat.Level -> string.
Variable toISOString : Z -> string.

(** [app.post('/:level/chat', chatHandler)]: no middleware sets
    [req.user]. *)
Definition chat (upstream : Chat.Upstream) (level : option string)
    (query : list (string * Json)) (body : Json) : Chat.Handled :=
  Chat.chatHandler getSystemPrompt toISOString upstream
    {| Chat.params_level := level; Chat.query := query; Chat.req_body := body;
       Chat.user := None |}.

(** [app.post('/authorized/:level/chat', authenticateToken, chatHandler)]:
    the handler runs when the middleware calls [next()], with the decoded
    claims in [req.user]. *)
Definition authorizedChat (keyPair : KeyState) (clock : Z)
    (authorization : option string) (upstream : Chat.Upstream)
    (level : option string) (query : list (string * Json)) (body : Json) : Served :=
  match Auth.authenticateToken keyPair clock authorization with
  | Auth.Respond r => Refused r
  | Auth.Next decoded =>
      Reached (Chat.chatHandler getSystemPrompt toISOString upstream
                 {| Chat.params_level := level; Chat.query := query;
                    Chat.req_body := body; Chat.user := Some decoded |})
  end.

End Routes.
End Server.

(** ** [utils/litellm-config.ts]: the allowed models *)

Module LitellmConfig.
Import JS.

Record LitellmParams : Type := { params_model : option string }.

Record ModelConfig : Type := {
  model_name : option string;
  litellm_params : option LitellmParams
}.

Record LiteLLMConfig : Type := { model_list : option (list ModelConfig) }.

(** [modelConfig.model_name || modelConfig.litellm_params?.model]. *)
Definition modelName (modelConfig : ModelConfig) : option string :=
  if truthy (model_name modelConfig) then model_name modelConfig
  else match litellm_params modelConfig with
       | Some params => params_model params
       | None => None
       end.

(** The names pushed while walking [config.model_list]. *)
Definition model_names (config : LiteLLMConfig) : list string :=
  match model_list config with
  | Some entries =>
      flat_map (fun modelConfig =>
                  match modelName modelConfig with
                  | Some (String c r) => [String c r]
                  | _ => []
                  end) entries
  | None => []
  end.

(** [getAllowedModels()].  [allowedModels] is the module variable ([None]
    is [null]); [file] is what reading and parsing [litellm_config.yaml]
    gives at the time of the call, [None] when that throws or the file
    holds no document.  The result is the list returned and the module
    variable afterwards. *)
Definition getAllowedModels (allowedModels : option (list string))
    (file : option LiteLLMConfig) : list string * option (list string) :=
  match allowedModels with
  | Some cached => (cached, allowedModels)
  | None =>
      match file with
      | Some config =>
          let models := model_names config in
          (models, Some models)
      | None => ([], None)
      end
  end.

(** [isModelAllowed(model)]. *)
Definition isModelAllowed (allowedModels : option (list string))
    (file : option LiteLLMConfig) (model : string) : bool * option (list string) :=
  let (allowed, after) := getAllowedModels allowedModels file in
  (Nat.eqb (List.length allowed) 0 || existsb (String.eqb model) allowed, after).

End LitellmConfig.

(** ** [routes/chat.ts]: the chat handler that forwards once *)

Module ChatV1.
Import Chars JSON JS LitellmConfig.

Record LitellmRequest : Type := {
  messages : list Chat.Turn;
  model : string
}.

(** What [fetch] resolves to: the status, the body as text, and the body as
    [response.json()] reads it ([None] when that throws). *)
Record FetchReply : Type := {
  reply_status : Z;
  reply_text : string;
  reply_json : option Json
}.

Inductive Fetched : Type :=
| Reply (r : FetchReply)
| Rejected (message : string).

Definition ok (r : FetchReply) : bool :=
  (200 <=? reply_status r)%Z && (reply_status r <=? 299)%Z.

Inductive ChatBody : Type :=
| ErrorBody (error message : string)
| Data (data : Json).

Record ChatResponse : Type := { status : Z; body : ChatBody }.

(** A handled request: the response and the requests sent upstream. *)
Record Handled : Type := {
  response : ChatResponse;
  upstream_calls : list LitellmRequest
}.

Record ChatRequest : Type := {
  params_level : option string;
  query : list (string * Json);
  req_body : Json
}.

Section Handler.
Variable getSystemPrompt : Chat.Domain -> Chat.Level -> string.
(** The configuration file when the module is loaded, and when the request
    is handled. *)
Variable startup : option LiteLLMConfig.
Variable now : option LiteLLMConfig.

(** The refinement of [model]: [const allowedModels = getAllowedModels()]
    is evaluated once, when the module is loaded; [isModelAllowed] runs
    later, on the module variable that first call left. *)
Definition model_refine (val : option string) : bool :=
  let (allowedModels, after) := getAllowedModels None startup in
  if negb (truthy val) then true
  else if Nat.eqb (List.length allowedModels) 0 then true
  else fst (isModelAllowed after now (or_else val "")).

(** [chatQuerySchema]: the schema of the later revision, with the
    refinement on [model]. *)
Definition chatQuerySchema (query : list (string * Json)) : option Chat.Query :=
  match Chat.chatQuerySchema query with
  | Some q => if model_refine (Chat.model q) then Some q else None
  | None => None
  end.

Definition error_response (code : Z) (error message : string) : ChatResponse :=
  {| status := code; body := ErrorBody error message |}.

Definition unsent (r : ChatResponse) : Handled :=
  {| response := r; upstream_calls := [] |}.

(** As in the later revision, the messages of the validation errors and of
    a body that does not read as JSON are not modelled. *)
Definition chatHandler (upstream : LitellmRequest -> Fetched) (req : ChatRequest)
    : Handled :=
  match Chat.FISH_TO_LEVEL (params_level req) with
  | None =>
      unsent (error_response 400 "Invalid path parameter"
                "Security level must be 'minnow' or 'shark'.")
  | Some level =>
      match chatQuerySchema (query req) with
      | None => unsent (error_response 400 "Invalid query parameters" "")
      | Some q =>
          match Chat.chatBodySchema (req_body req) with
          | Chat.Raised message =>
              unsent (error_response 500 "Internal server error" message)
          | Chat.Invalid => unsent (error_response 400 "Invalid request body" "")
          | Chat.Valid userMessages =>
              let systemPrompt := getSystemPrompt (Chat.domain q) level in
              let litellmRequest :=
                {| messages :=
                     {| Chat.role := "system"; Chat.content := systemPrompt |}
                     :: userMessages;
                   model := or_else (Chat.model q) "gpt-5-mini" |} in
              let answer r :=
                {| response := r; upstream_calls := [litellmRequest] |} in
              match upstream litellmRequest with
              | Rejected message =>
                  answer (error_response 500 "Internal server error" message)
              | Reply r =>
                  if negb (ok r) then
                    answer (error_response (reply_status r) "LiteLLM server error"
                              (reply_text r))
                  else
                    match reply_json r with
                    | None =>
                        answer (error_response 500 "Internal server error"
                                  "Unexpected token in JSON")
                    | Some data => answer {| status := 200; body := Data data |}
                    end
              end
          end
      end
  end.

End Handler.
End ChatV1.

(** ** [routes/rental.ts]: guest screening, behind the middleware

    The prompt of the evaluation, the text of the notification and the
    schema of an e-mail address are long templates and library code; they
    are parameters here.  What is modelled is what the two routes do with
    a request: validate, look the application up, call the completion
    service, answer, and log the notification. *)

Module Rental.
Import Chars JSON JS.

(** [v.key], for a key that is neither an index nor a built-in property:
    a [TypeError] on [undefined] and [null], the member of an object,
    [undefined] on any other value. *)
Definition member (v : option Json) (key : string) : Try (option Json) :=
  match v with
  | None | Some JNull => Thrown "Cannot read properties of undefined"
  | Some (JObj members) => Returned (get key members)
  | Some _ => Returned None
  end.

(** [v[0]]: the first element of an array, the first character of a
    string, the member [0] of an object. *)
Definition first (v : option Json) : Try (option Json) :=
  match v with
  | None | Some JNull => Thrown "Cannot read properties of undefined"
  | Some (JArr items) => Returned (hd_error items)
  | Some (JStr (String c _)) => Returned (Some (JStr (str1 c)))
  | Some (JObj members) => Returned (get "0" members)
  | Some _ => Returned None
  end.

Definition and_then {A C : Type} (t : Try A) (f : A -> Try C) : Try C :=
  match t with
  | Returned a => f a
  | Thrown message => Thrown message
  end.

(** [data.choices[0].message.content]. *)
Definition first_content (data : Json) : Try (option Json) :=
  and_then (member (Some data) "choices") (fun choices =>
  and_then (first choices) (fun choice =>
  and_then (member choice "message") (fun message =>
  member message "content"))).

(** [loadGuestApplications()]: [file] is what reading the data file gives,
    the text or the error thrown. *)
Definition loadGuestApplications (file : Try string) : Try Json :=
  and_then file (fun rawData =>
  match parse rawData with
  | Some database => Returned database
  | None => Thrown "Unexpected token in JSON"
  end).

(** [applications.find((app) => app.applicationId === applicationId)] on
    the elements of an array: the first object whose [applicationId] is
    that string; reading the member of a [null] element throws. *)
Fixpoint find_in (applications : list Json) (applicationId : string)
    : Try (option Json) :=
  match applications with
  | [] => Returned None
  | JNull :: _ => Thrown "Cannot read properties of null"
  | JObj members :: rest =>
      match get "applicationId" members with
      | Some (JStr id) =>
          if String.eqb id applicationId then Returned (Some (JObj members))
          else find_in rest applicationId
      | _ => find_in rest applicationId
      end
  | _ :: rest => find_in rest applicationId
  end.

(** [database.applications.find(...)]: anything but an array under
    [applications] has no [find] to call. *)
Definition find_application (database : Json) (applicationId : string)
    : Try (option Json) :=
  and_then (member (Some database) "applications") (fun applications =>
  match applications with
  | Some (JArr items) => find_in items applicationId
  | _ => Thrown "database.applications.find is not a function"
  end).

(** A message logged as sent. *)
Record Email : Type := {
  email_to : string;
  email_subject : string;
  email_content : string
}.

Inductive RentalBody : Type :=
| ValidationError
| ErrorBody (error message : string)
| Answer (members : list (string * Json)).

Record RentalResponse : Type := { status : Z; body : RentalBody }.

(** A handled request: the response, the requests sent to the completion
    service, and the notifications logged. *)
Record Handled : Type := {
  response : RentalResponse;
  upstream_calls : list ChatV1.LitellmRequest;
  emails : list Email
}.

Record RentalRequest : Type := {
  params_level : option string;
  query : list (string * Json);
  req_body : Json
}.

(** [pathParamsSchema]. *)
Definition pathParamsSchema (level : option string) : option string :=
  match level with
  | Some l => if String.eqb l "minnow" || String.eqb l "shark" then Some l else None
  | None => None
  end.

(** An optional string member: absent, a string, or a failure. *)
Definition optional_string (members : list (string * Json)) (key : string)
    : option (option string) :=
  match get key members with
  | None => Some None
  | Some (JStr s) => Some (Some s)
  | Some _ => None
  end.

Record ScreenQuery : Type := { applicationId : string; model : option string }.

(** [screenGuestQuerySchema]. *)
Definition screenGuestQuerySchema (query : list (string * Json)) : option ScreenQuery :=
  match get "applicationId" query, optional_string query "model" with
  | Some (JStr id), Some m => Some {| applicationId := id; model := m |}
  | _, _ => None
  end.

Record MessageBody : Type := {
  body_applicationId : string;
  message : string;
  propertyOwnerEmail : string;
  body_model : option string
}.

Section Routes.
Variable getSystemPrompt : Chat.Domain -> Chat.Level -> string.
(** The evaluation prompt written for an application. *)
Variable evaluationPrompt : Json -> string.
(** [formatEmailNotification(guestApplication, guestMessage, riskAssessment)]. *)
Variable formatEmailNotification : Json -> string -> option Json -> string.
(** A value inside a template literal. *)
Variable interpolate : option Json -> string.
(** [z.string().email()]. *)
Variable is_email : string -> bool.

(** [sendMessageBodySchema]. *)
Definition sendMessageBodySchema (body : Json) : option MessageBody :=
  match body with
  | JObj members =>
      match get "applicationId" members, get "message" members,
            get "propertyOwnerEmail" members, optional_string members "model" with
      | Some (JStr id), Some (JStr (String c text)), Some (JStr email), Some m =>
          if is_email email then
            Some {| body_applicationId := id; message := String c text;
                    propertyOwnerEmail := email; body_model := m |}
          else None
      | _, _, _, _ => None
      end
  | _ => None
  end.

(** [generateRiskAssessment(guestApplication, level, model)]: what it
    returns or throws, and the request it sent. *)
Definition generateRiskAssessment (upstream : ChatV1.LitellmRequest -> ChatV1.Fetched)
    (guestApplication : Json) (level : string) (model : option string)
    : Try (option Json) * list ChatV1.LitellmRequest :=
  let securityType := if String.eqb level "minnow" then Chat.insecure else Chat.secure in
  let systemPrompt := getSystemPrompt Chat.vacation_rental securityType in
  let request :=
    {| ChatV1.messages :=
         [ {| Chat.role := "system"; Chat.content := systemPrompt |};
           {| Chat.role := "user"; Chat.content := evaluationPrompt guestApplication |} ];
       ChatV1.model := or_else model "gpt-3.5-turbo" |} in
  match upstream request with
  | ChatV1.Rejected message => (Thrown message, [request])
  | ChatV1.Reply r =>
      if negb (ChatV1.ok r) then
        (Thrown ("LiteLLM request failed: " ++ ChatV1.reply_text r), [request])
      else
        match ChatV1.reply_json r with
        | None => (Thrown "Unexpected token in JSON", [request])
        | Some data => (first_content data, [request])
        end
  end.

Definition quiet (r : RentalResponse) : Handled :=
  {| response := r; upstream_calls := []; emails := [] |}.

Definition internal_error (message : string) : RentalResponse :=
  {| status := 500; body := ErrorBody "Internal server error" message |}.

Definition not_found (applicationId : string) : RentalResponse :=
  {| status := 404;
     body := ErrorBody "Application not found"
               ("No guest application found with ID: " ++ applicationId) |}.

(** A member of a response: left out when the value is [undefined]. *)
Definition maybe (key : string) (v : option Json) : list (string * Json) :=
  match v with
  | Some x => [(key, x)]
  | None => []
  end.

(** The member of an application that was found (an object). *)
Definition field (guestApplication : Json) (key : string) : option Json :=
  match guestApplication with
  | JObj members => get key members
  | _ => None
  end.

(** [guestApplication.status === 'pending']. *)
Definition is_pending (guestApplication : Json) : bool :=
  match field guestApplication "status" with
  | Some (JStr s) => String.eqb s "pending"
  | _ => false
  end.

(** [POST /authorized/:level/rental/screen-guest]. *)
Definition screenGuest (file : Try string)
    (upstream : ChatV1.LitellmRequest -> ChatV1.Fetched) (req : RentalRequest) : Handled :=
  match pathParamsSchema (params_level req) with
  | None => quiet {| status := 400; body := ValidationError |}
  | Some level =>
      match screenGuestQuerySchema (query req) with
      | None => quiet {| status := 400; body := ValidationError |}
      | Some q =>
          match loadGuestApplications file with
          | Thrown message => quiet (internal_error message)
          | Returned database =>
              match find_application database (applicationId q) with
              | Thrown message => quiet (internal_error message)
              | Returned None => quiet (not_found (applicationId q))
              | Returned (Some guestApplication) =>
                  let (riskAssessment, sent) :=
                    generateRiskAssessment upstream guestApplication level (model q) in
                  match riskAssessment with
                  | Thrown message =>
                      {| response := internal_error message;
                         upstream_calls := sent; emails := [] |}
                  | Returned risk =>
                      {| response :=
                           {| status := 200;
                              body := Answer
                                        (maybe "applicationId"
                                           (field guestApplication "applicationId")
                                         ++ maybe "guestName"
                                              (field guestApplication "guestName")
                                         ++ maybe "propertyName"
                                              (field guestApplication "propertyName")
                                         ++ maybe "riskAssessment" risk) |};
                         upstream_calls := sent; emails := [] |}
                  end
              end
          end
      end
  end.

(** [POST /authorized/:level/rental/send-message]. *)
Definition sendMessage (file : Try string)
    (upstream : ChatV1.LitellmRequest -> ChatV1.Fetched) (req : RentalRequest) : Handled :=
  match pathParamsSchema (params_level req) with
  | None => quiet {| status := 400; body := ValidationError |}
  | Some level =>
      match sendMessageBodySchema (req_body req) with
      | None => quiet {| status := 400; body := ValidationError |}
      | Some b =>
          match loadGuestApplications file with
          | Thrown message => quiet (internal_error message)
          | Returned database =>
              match find_application database (body_applicationId b) with
              | Thrown message => quiet (internal_error message)
              | Returned None => quiet (not_found (body_applicationId b))
              | Returned (Some guestApplication) =>
                  if negb (is_pending guestApplication) then
                    quiet {| status := 400;
                             body := ErrorBody "Invalid application status"
                                       "Messages can only be sent for pending inquiries. This application has already been processed." |}
                  else
                    let (riskAssessment, sent) :=
                      generateRiskAssessment upstream guestApplication level
                        (body_model b) in
                    match riskAssessment with
                    | Thrown message =>
                        {| response := internal_error message;
                           upstream_calls := sent; emails := [] |}
                    | Returned risk =>
                        {| response :=
                             {| status := 200;
                                body := Answer
                                          ([("success", JBool true);
                                            ("message", JStr "Message sent to property owner with AI-generated risk assessment");
                                            ("sentTo", JStr (propertyOwnerEmail b))]
                                           ++ maybe "applicationId"
                                                (field guestApplication "applicationId")
                                           ++ [("includesRiskAssessment", JBool true)]) |};
                           upstream_calls := sent;
                           emails :=
                             [ {| email_to := propertyOwnerEmail b;
                                  email_subject :=
                                    "New Inquiry for "
                                    ++ interpolate (field guestApplication "propertyName")
                                    ++ " from "
                                    ++ interpolate (field guestApplication "guestName");
                                  email_content :=
                                    formatEmailNotification guestApplication
                                      (message b) risk |} ] |}
                    end
              end
          end
      end
  end.

End Routes.
End Rental.

(** ** A reference backend

    A small implementation of the [Backend] operations, to run the handlers
    on concrete requests and to show that the laws of the interface can be
    met: textbook RSA on two tiny key pairs, hexadecimal in the place of
    base64url, and the JSON of this file. *)

Module Reference.
Import Chars JSON JS Jwt.

(** Two hexadecimal digits per character. *)
Fixpoint hex_encode (s : string) : string :=
  match s with
  | EmptyString => ""
  | String c r =>
      String (hex_digit (code c / 16)) (String (hex_digit (code c mod 16)) (hex_encode r))
  end.

Fixpoint hex_decode (s : string) : option string :=
  match s with
  | EmptyString => Some ""
  | String a (String b r) =>
      match hex_value a, hex_value b, hex_decode r with
      | Some x, Some y, Some t => Some (String (ascii_of_N (x * 16 + y)) t)
      | _, _, _ => None
      end
  | _ => None
  end.

(** The key pairs: modulus, public and private exponent. *)
Inductive ToyKey : Type := KeyA | KeyB.

Definition modulus (k : ToyKey) : Z :=
  match k with
  | KeyA => 33
  | KeyB => 55
  end.

Definition public_exponent (k : ToyKey) : Z := 3.

Definition private_exponent (k : ToyKey) : Z :=
  match k with
  | KeyA => 7
  | KeyB => 27
  end.

Record ToyPublicKey : Type := { pub_modulus : Z; pub_exponent : Z }.

Definition toy_public (k : ToyKey) : ToyPublicKey :=
  {| pub_modulus := modulus k; pub_exponent := public_exponent k |}.

(** A digest of the signing input. *)
Fixpoint digest (acc : Z) (s : string) : Z :=
  match s with
  | EmptyString => acc
  | String c r => digest ((acc * 31 + Z.of_N (code c)) mod 1009) r
  end.

Definition rsa (base exponent m : Z) : Z := (base ^ exponent) mod m.

Definition opt_json (v : option string) : Json :=
  match v with
  | Some s => JStr s
  | None => JNull
  end.

Definition json_opt (v : option Json) : option (option string) :=
  match v with
  | Some (JStr s) => Some (Some s)
  | Some JNull => Some None
  | _ => None
  end.

(** A date member: the decimal text of the seconds, [false] for [NaN]. *)
Definition date_json (v : option Number) : Json :=
  match v with
  | Some (Int z) => JStr (NilZero.string_of_int (Z.to_int z))
  | Some NaN => JBool false
  | None => JNull
  end.

Definition json_date (v : option Json) : option (option Number) :=
  match v with
  | Some (JStr s) =>
      match NilZero.int_of_string s with
      | Some d => Some (Some (Int (Z.of_int d)))
      | None => None
      end
  | Some (JBool false) => Some (Some NaN)
  | Some JNull => Some None
  | _ => None
  end.

Definition header_json (h : JoseHeader) : Json :=
  JObj [("alg", JStr (alg h)); ("typ", opt_json (typ h))].

Definition json_header (v : Json) : option JoseHeader :=
  match v with
  | JObj ms =>
      match get "alg" ms, json_opt (get "typ" ms) with
      | Some (JStr a), Some t => Some {| alg := a; typ := t |}
      | _, _ => None
      end
  | _ => None
  end.

Definition payload_json (p : JwtPayload) : Json :=
  JObj [("iss", opt_json (iss p)); ("sub", opt_json (sub p));
        ("aud", opt_json (aud p)); ("exp", date_json (exp p));
        ("nbf", date_json (nbf p)); ("iat", date_json (iat p));
        ("role", opt_json (role p)); ("scope", opt_json (scope p))].

Definition json_payload (v : Json) : option JwtPayload :=
  match v with
  | JObj ms =>
      match json_opt (get "iss" ms), json_opt (get "sub" ms), json_opt (get "aud" ms),
            json_date (get "exp" ms), json_date (get "nbf" ms), json_date (get "iat" ms),
            json_opt (get "role" ms), json_opt (get "scope" ms) with
      | Some i, Some s, Some a, Some e, Some n, Some t, Some r, Some sc =>
          Some {| iss := i; sub := s; aud := a; exp := e; nbf := n; iat := t;
                  role := r; scope := sc |}
      | _, _, _, _, _, _, _, _ => None
      end
  | _ => None
  end.

Definition signing_input (h : JoseHeader) (p : JwtPayload) : string :=
  hex_encode (stringify (header_json h)) ++ "." ++ hex_encode (stringify (payload_json p)).

Definition signature (k : ToyKey) (input : string) : string :=
  hex_encode (str1 (ascii_of_N (Z.to_N
    (rsa (digest 0 input mod modulus k) (private_exponent k) (modulus k))))).

Definition toy_sign (h : JoseHeader) (p : JwtPayload) (k : ToyKey) : string :=
  signing_input h p ++ "." ++ signature k (signing_input h p).

Definition toy_decode (token : string) : option (JoseHeader * JwtPayload) :=
  match split "." token with
  | [h; p; _] =>
      match hex_decode h, hex_decode p with
      | Some ht, Some pt =>
          match parse ht, parse pt with
          | Some hj, Some pj =>
              match json_header hj, json_payload pj with
              | Some hd, Some pl => Some (hd, pl)
              | _, _ => None
              end
          | _, _ => None
          end
      | _, _ => None
      end
  | _ => None
  end.

(** The header reads as a JSON object that says [typ: 'JWT'], and the text
    of the payload does not read as JSON. *)
Definition toy_throws (token : string) : bool :=
  match split "." token with
  | [h; p; _] =>
      match hex_decode h, hex_decode p with
      | Some ht, Some pt =>
          match parse ht, parse pt with
          | Some (JObj ms), None =>
              match get "typ" ms with
              | Some (JStr t) => String.eqb t "JWT"
              | _ => false
              end
          | _, _ => false
          end
      | _, _ => false
      end
  | _ => false
  end.

Definition toy_verify (token algorithm : string) (key : ToyPublicKey) : bool :=
  String.eqb algorithm "RS256" &&
  match split "." token with
  | [h; p; s] =>
      match hex_decode s with
      | Some (String c EmptyString) =>
          (rsa (Z.of_N (code c)) (pub_exponent key) (pub_modulus key)
           =? digest 0 (h ++ "." ++ p) mod pub_modulus key)%Z
      | _ => false
      end
  | _ => false
  end.

Definition toy_export (key : ToyPublicKey) : JsonWebKey :=
  {| jwk_n := Some (NilZero.string_of_int (Z.to_int (pub_modulus key)));
     jwk_e := Some (NilZero.string_of_int (Z.to_int (pub_exponent key))) |}.

Definition toy_import (n e : string) : option ToyPublicKey :=
  match NilZero.int_of_string n, NilZero.int_of_string e with
  | Some nd, Some ed => Some {| pub_modulus := Z.of_int nd; pub_exponent := Z.of_int ed |}
  | _, _ => None
  end.

Definition toy_fingerprint (key : ToyPublicKey) : string :=
  hex_encode (NilZero.string_of_int (Z.to_int (pub_modulus key * 65537 + pub_exponent key))).

(** Signing and then opening with the public exponent gives back every
    residue of the modulus. *)
Definition rsa_inverts (k : ToyKey) : bool :=
  forallb (fun x => (rsa (rsa x (private_exponent k) (modulus k))
                         (public_exponent k) (modulus k) =? x)%Z)
          (map Z.of_nat (seq 0 (Z.to_nat (modulus k)))).

End Reference.

(** * Properties *)

Import Chars JSON JS Http Jwt JwtKeys Config.

(** ** Vocabulary *)

(** The text has no character [sep]. *)
Definition free_of (sep : ascii) (s : string) : bool :=
  forallb (fun c => negb (Ascii.eqb c sep)) (list_ascii_of_string s).

(** The first character of a value's text is no white space and closes
    neither an array nor an object. *)
Definition value_start (c : ascii) : bool :=
  negb (is_ws c) && negb (Ascii.eqb c "]") && negb (Ascii.eqb c "}").

(** [parse_value] reads the text of [v] back, whatever follows it. *)
Definition roundtrip (v : Json) : Prop :=
  wf v = true -> forall f rest, size v <= f -> delimited rest = true ->
  parse_value f (stringify v ++ rest) = Some (v, rest).

Definition elements_fuel (items : list Json) : nat :=
  fold_right (fun x n => S (size x + n)) 0 items.

Definition members_fuel (members : list (string * Json)) : nat :=
  fold_right (fun kv n => S (size (snd kv) + n)) 0 members.

Definition member_text (kv : string * Json) : string :=
  quote (fst kv) ++ ":" ++ stringify (snd kv).

(** The header [jwt.sign] writes for RS256. *)
Definition rs256_header : JoseHeader := {| alg := "RS256"; typ := Some "JWT" |}.

(** The [access_token] member of a response, when it has one. *)
Definition access_token (r : Response) : option string :=
  match body r with
  | JObj members =>
      match get "access_token" members with
      | Some (JStr token) => Some token
      | _ => None
      end
  | _ => None
  end.

(** An integer a JavaScript number holds exactly, [Number.isSafeInteger]:
    on such integers, and while the results stay such, the arithmetic of
    the program is that of [Z]. *)
Definition safe_integer (z : Z) : Prop := (Z.abs z <= 9007199254740991)%Z.

(** The payload is inside its validity window at [clock]. *)
Definition in_window (clock : Z) (p : JwtPayload) : bool :=
  match nbf p with
  | Some (Int n) => (n <=? clock)%Z
  | Some NaN => false
  | None => true
  end
  && match exp p with
     | Some (Int e) => (clock <? e)%Z
     | Some NaN => false
     | None => true
     end.

(** The request names a configured client and gives a secret that is not
    that client's. *)
Definition wrong_secret (env : Env) (req : TokenRequest) : bool :=
  existsb (fun c => same (clientId c) (client_id req)) (clients env)
  && truthy (client_secret req)
  && negb (existsb (fun c => same (clientId c) (client_id req)
                             && same (clientSecret c) (client_secret req))
                   (clients env)).

(** The request names no configured client. *)
Definition unknown_client (env : Env) (req : TokenRequest) : bool :=
  truthy (client_id req) && truthy (client_secret req)
  && negb (existsb (fun c => same (clientId c) (client_id req)) (clients env)).

Definition wrong_password (env : Env) (req : TokenRequest) : bool :=
  existsb (fun u => same (username u) (req_username req)) (users env)
  && truthy (req_password req)
  && negb (existsb (fun u => same (username u) (req_username req)
                             && same (password u) (req_password req))
                   (users env)).

Definition unknown_user (env : Env) (req : TokenRequest) : bool :=
  truthy (req_username req) && truthy (req_password req)
  && negb (existsb (fun u => same (username u) (req_username req)) (users env)).

Definition no_clients : Response :=
  oauth_error 500 "server_error"
    "OAuth server configuration error: No clients configured".

Definition no_users : Response :=
  oauth_error 500 "server_error"
    "OAuth server configuration error: No users configured".

Definition missing_grant_type : Response :=
  oauth_error 400 "invalid_request" "Missing required parameter: grant_type".

Definition invalid_client : Response :=
  oauth_error 401 "invalid_client" "Invalid client credentials".

(** A request body with the given [messages] member. *)
Definition body_of (messages : Json) : Json := JObj [("messages", messages)].

(** The text does not read as a JSON array or object. *)
Definition plain_text (text : string) : bool :=
  match parse text with
  | Some (JArr _) | Some (JObj _) => false
  | _ => true
  end.




(** The reply is a success that asks for at least one tool call. *)
Definition wants_tools (f : Chat.Fetched) : bool :=
  match f with
  | Chat.Reply r =>
      Chat.ok r
      && match Chat.reply_json r with
         | Some data =>
             match Chat.requested_calls data with
             | [] => false
             | _ => true
             end
         | None => false
         end
  | Chat.Rejected _ => false
  end.

(** The completion of a reply that is a success and asks for no tool. *)
Definition final_answer (f : Chat.Fetched) : option Chat.Completion :=
  match f with
  | Chat.Reply r =>
      if Chat.ok r then
        match Chat.reply_json r with
        | Some data =>
            match Chat.requested_calls data with
            | [] => Some data
            | _ => None
            end
        | None => None
        end
      else None
  | Chat.Rejected _ => None
  end.

Definition limit_exceeded : Chat.ChatResponse :=
  Chat.error_response 500 "Tool call limit exceeded" Chat.limit_message.

(** The handler answered 400 under [error], with some message, and called
    no upstream service. *)
Definition refused_with (error : string) (h : Chat.Handled) : Prop :=
  Chat.upstream_calls h = []
  /\ Chat.status (Chat.response h) = 400%Z
  /\ exists message, Chat.body (Chat.response h) = Chat.ErrorBody error message.

(** ** Sample configurations, requests and services *)

(** Two clients, one user, and no lifetime set. *)
Definition demo_env : Env :=
  {| OAUTH_CLIENT_ID_READONLY := Some "reader";
     OAUTH_CLIENT_SECRET_READONLY := Some "s3cret";
     OAUTH_CLIENT_ID_READWRITE := None;
     OAUTH_CLIENT_SECRET_READWRITE := None;
     OAUTH_CLIENT_ID_ADMIN := Some "root";
     OAUTH_CLIENT_SECRET_ADMIN := Some "hunter2";
     OAUTH_USERNAME_READONLY := Some "alice";
     OAUTH_PASSWORD_READONLY := Some "wonderland";
     OAUTH_USERNAME_READWRITE := None;
     OAUTH_PASSWORD_READWRITE := None;
     OAUTH_USERNAME_ADMIN := None;
     OAUTH_PASSWORD_ADMIN := None;
     OAUTH_TOKEN_EXPIRES_IN := None |}.

(** One client, and tokens that live for no time. *)
Definition instant_env : Env :=
  {| OAUTH_CLIENT_ID_READONLY := Some "reader";
     OAUTH_CLIENT_SECRET_READONLY := Some "s3cret";
     OAUTH_CLIENT_ID_READWRITE := None;
     OAUTH_CLIENT_SECRET_READWRITE := None;
     OAUTH_CLIENT_ID_ADMIN := None;
     OAUTH_CLIENT_SECRET_ADMIN := None;
     OAUTH_USERNAME_READONLY := None;
     OAUTH_PASSWORD_READONLY := None;
     OAUTH_USERNAME_READWRITE := None;
     OAUTH_PASSWORD_READWRITE := None;
     OAUTH_USERNAME_ADMIN := None;
     OAUTH_PASSWORD_ADMIN := None;
     OAUTH_TOKEN_EXPIRES_IN := Some "0" |}.

(** Nothing configured. *)
Definition bare_env : Env :=
  {| OAUTH_CLIENT_ID_READONLY := None;
     OAUTH_CLIENT_SECRET_READONLY := None;
     OAUTH_CLIENT_ID_READWRITE := None;
     OAUTH_CLIENT_SECRET_READWRITE := None;
     OAUTH_CLIENT_ID_ADMIN := None;
     OAUTH_CLIENT_SECRET_ADMIN := None;
     OAUTH_USERNAME_READONLY := None;
     OAUTH_PASSWORD_READONLY := None;
     OAUTH_USERNAME_READWRITE := None;
     OAUTH_PASSWORD_READWRITE := None;
     OAUTH_USERNAME_ADMIN := None;
     OAUTH_PASSWORD_ADMIN := None;
     OAUTH_TOKEN_EXPIRES_IN := None |}.

Definition client_request (id secret : string) (scope : option string) : TokenRequest :=
  {| grant_type := Some "client_credentials";
     client_id := Some id;
     client_secret := Some secret;
     req_username := None;
     req_password := None;
     req_scope := scope |}.

Definition password_request (name pass : string) : TokenRequest :=
  {| grant_type := Some "password";
     client_id := None;
     client_secret := None;
     req_username := Some name;
     req_password := Some pass;
     req_scope := None |}.

Definition empty_request : TokenRequest :=
  {| grant_type := None; client_id := None; client_secret := None;
     req_username := None; req_password := None; req_scope := None |}.

Definition reader_request : TokenRequest := client_request "reader" "s3cret" None.

(** A token of three parts whose header is the RS256 header, with
    [typ: 'JWT'], and whose payload is the text [not json]. *)
Definition unreadable_token : string :=
  Reference.hex_encode (stringify (Reference.header_json rs256_header))
  ++ "." ++ Reference.hex_encode "not json" ++ "." ++ Reference.hex_encode "sig".

(** A completion service that answers at once. *)
Definition answer_now : Chat.Upstream :=
  fun _ _ =>
    Chat.Reply
      {| Chat.reply_status := 200;
         Chat.reply_text := "";
         Chat.reply_json :=
           Some {| Chat.choices :=
                     [ {| Chat.message :=
                            Some {| Chat.message_content := Some "ok";
                                    Chat.tool_calls := None |} |} ] |} |}.

Definition get_user_call : Chat.ToolCall :=
  {| Chat.call_id := "call_1";
     Chat.function_name := "get_user";
     Chat.function_arguments := None |}.

(** A completion service that asks for [get_user] in its first [n] replies
    and answers after them. *)
Definition asks_first (n : nat) : Chat.Upstream :=
  fun k request =>
    if Nat.leb k n then
      Chat.Reply
        {| Chat.reply_status := 200;
           Chat.reply_text := "";
           Chat.reply_json :=
             Some {| Chat.choices :=
                       [ {| Chat.message :=
                              Some {| Chat.message_content := None;
                                      Chat.tool_calls := Some [get_user_call] |} |} ] |} |}
    else answer_now k request.

Definition sample_prompts : Chat.Domain -> Chat.Level -> string := fun _ _ => "prompt".

Definition sample_dates : Z -> string := fun _ => "1970-01-01T00:00:00.000Z".

Definition hello_request : Chat.ChatRequest :=
  {| Chat.params_level := Some "shark";
     Chat.query := [("domain", JStr "finance")];
     Chat.req_body := body_of (JStr "hello");
     Chat.user := None |}.



(** A body whose [messages] is one turn, not wrapped in an array. *)
Definition single_turn_request : Chat.ChatRequest :=
  {| Chat.params_level := Some "minnow";
     Chat.query := [];
     Chat.req_body :=
       body_of (Chat.turn_json {| Chat.role := "user"; Chat.content := "hi" |});
     Chat.user := None |}.

(** ** Strings and JSON: reading back what was written *)

Lemma string_app_assoc (a b c : string) : (a ++ b) ++ c = a ++ (b ++ c).
Proof. induction a as [|x a IH]; simpl; [reflexivity | now rewrite IH]. Qed.

Lemma string_length_app (a b : string) :
  String.length (a ++ b) = String.length a + String.length b.
Proof. induction a as [|x a IH]; simpl; [reflexivity | now rewrite IH]. Qed.

Lemma string_app_empty_r (a : string) : a ++ "" = a.
Proof. induction a as [|x a IH]; simpl; [reflexivity | now rewrite IH]. Qed.

Lemma string_body_char (c : ascii) (t : string) :
  string_body (escape_char c ++ t) =
  match string_body t with
  | Some (x, rest) => Some (String c x, rest)
  | None => None
  end.
Proof.
  destruct c as [b0 b1 b2 b3 b4 b5 b6 b7].
  destruct b0, b1, b2, b3, b4, b5, b6, b7; reflexivity.
Qed.

Lemma string_body_escape (s rest : string) :
  string_body (escape s ++ String dquote rest) = Some (s, rest).
Proof.
  induction s as [|c s IH]; simpl.
  - reflexivity.
  - rewrite string_app_assoc, string_body_char, IH. reflexivity.
Qed.

Lemma delimited_not_digit rest :
  delimited rest = true -> take_digits rest = ("", rest).
Proof.
  destruct rest as [|c r]; simpl; [reflexivity|].
  intros H.
  destruct (Ascii.eqb_spec c ","); [subst; reflexivity|].
  destruct (Ascii.eqb_spec c "]"); [subst; reflexivity|].
  destruct (Ascii.eqb_spec c "}"); [subst; reflexivity|].
  discriminate.
Qed.

Lemma take_digits_app s rest :
  delimited rest = true ->
  take_digits (s ++ rest) = (fst (take_digits s), snd (take_digits s) ++ rest).
Proof.
  intros Hd. induction s as [|c s IH]; simpl.
  - now apply delimited_not_digit.
  - destruct (is_digit c).
    + rewrite IH. destruct (take_digits s); reflexivity.
    + reflexivity.
Qed.

Lemma scan_exp_delimited acc rest :
  delimited rest = true -> scan_exp acc rest = Some (acc, rest).
Proof.
  destruct rest as [|c r]; simpl; [reflexivity|].
  intros H.
  destruct (Ascii.eqb_spec c ","); [subst; reflexivity|].
  destruct (Ascii.eqb_spec c "]"); [subst; reflexivity|].
  destruct (Ascii.eqb_spec c "}"); [subst; reflexivity|].
  discriminate.
Qed.

Lemma scan_exp_app acc s a b rest :
  delimited rest = true ->
  scan_exp acc s = Some (a, b) ->
  scan_exp acc (s ++ rest) = Some (a, b ++ rest).
Proof.
  intros Hd. destruct s as [|e r].
  - simpl. intros [= <- <-]. now apply scan_exp_delimited.
  - simpl. destruct (Ascii.eqb e "e" || Ascii.eqb e "E").
    + destruct r as [|g r'].
      * simpl. discriminate.
      * simpl. destruct (Ascii.eqb g "+" || Ascii.eqb g "-").
        -- rewrite (take_digits_app r' rest Hd).
           destruct (take_digits r') as [ds r2]; simpl.
           destruct ds; [discriminate|]. now intros [= <- <-].
        -- change (String g (r' ++ rest)) with (String g r' ++ rest).
           rewrite (take_digits_app (String g r') rest Hd).
           destruct (take_digits (String g r')) as [ds r2]; simpl.
           destruct ds; [discriminate|]. now intros [= <- <-].
    + now intros [= <- <-].
Qed.

Lemma scan_frac_app acc s a b rest :
  delimited rest = true ->
  scan_frac acc s = Some (a, b) ->
  scan_frac acc (s ++ rest) = Some (a, b ++ rest).
Proof.
  intros Hd. destruct s as [|d r].
  - simpl. intros [= <- <-].
    unfold scan_frac. destruct rest as [|c r]; [reflexivity|].
    simpl in Hd.
    destruct (Ascii.eqb_spec c ","); [subst; reflexivity|].
    destruct (Ascii.eqb_spec c "]"); [subst; reflexivity|].
    destruct (Ascii.eqb_spec c "}"); [subst; reflexivity|].
    discriminate.
  - simpl. destruct (Ascii.eqb d ".").
    + rewrite (take_digits_app r rest Hd).
      destruct (take_digits r) as [ds r1]; simpl.
      destruct ds; [discriminate|]. now apply scan_exp_app.
    + apply (scan_exp_app acc (String d r)); assumption.
Qed.

Lemma scan_int_app sg s a b rest :
  delimited rest = true ->
  scan_int sg s = Some (a, b) ->
  scan_int sg (s ++ rest) = Some (a, b ++ rest).
Proof.
  intros Hd. destruct s as [|c r]; simpl; [discriminate|].
  destruct (Ascii.eqb c "0").
  - now apply scan_frac_app.
  - destruct (is_digit19 c); [|discriminate].
    rewrite (take_digits_app r rest Hd).
    destruct (take_digits r) as [ds r1]; simpl.
    now apply scan_frac_app.
Qed.

Lemma scan_number_app s a b rest :
  delimited rest = true ->
  scan_number s = Some (a, b) ->
  scan_number (s ++ rest) = Some (a, b ++ rest).
Proof.
  intros Hd. destruct s as [|c r]; simpl; [discriminate|].
  destruct (Ascii.eqb c "-").
  - now apply scan_int_app.
  - apply (scan_int_app "" (String c r)); assumption.
Qed.

Lemma number_literal_scan lit rest :
  number_literal lit = true -> delimited rest = true ->
  scan_number (lit ++ rest) = Some (lit, rest).
Proof.
  unfold number_literal. intros H Hd.
  destruct (scan_number lit) as [[l r]|] eqn:E; [|discriminate].
  destruct r; [|discriminate].
  apply String.eqb_eq in H. subst l.
  now rewrite (scan_number_app lit lit "" rest Hd E).
Qed.

Lemma Json_induction (P : Json -> Prop) :
  P JNull -> (forall b, P (JBool b)) -> (forall lit, P (JNum lit)) ->
  (forall s, P (JStr s)) ->
  (forall items, Forall P items -> P (JArr items)) ->
  (forall members, Forall (fun kv => P (snd kv)) members -> P (JObj members)) ->
  forall v, P v.
Proof.
  intros Hnull Hbool Hnum Hstr Harr Hobj.
  fix IH 1. intros [| b | lit | s | items | members].
  - exact Hnull.
  - apply Hbool.
  - apply Hnum.
  - apply Hstr.
  - apply Harr. induction items as [|x items IHl]; constructor; [apply IH | exact IHl].
  - apply Hobj. induction members as [|[k x] members IHl]; constructor; [apply IH | exact IHl].
Qed.

Lemma skip_ws_start c t : value_start c = true -> skip_ws (String c t) = String c t.
Proof.
  unfold value_start. simpl. destruct (is_ws c); [discriminate | reflexivity].
Qed.

Lemma number_literal_head lit :
  number_literal lit = true ->
  exists c t, lit = String c t /\ (is_digit c || Ascii.eqb c "-") = true.
Proof.
  unfold number_literal. destruct lit as [|c t]; [discriminate|].
  intros H. exists c, t. split; [reflexivity|].
  simpl in H. destruct (Ascii.eqb c "-"); [now rewrite orb_true_r|].
  unfold scan_int in H.
  destruct (Ascii.eqb_spec c "0") as [->|_]; [reflexivity|].
  destruct (is_digit19 c) eqn:E; [|discriminate].
  unfold is_digit19 in E. unfold is_digit.
  apply andb_true_iff in E as [E1 E2]. rewrite E2.
  apply N.leb_le in E1. rewrite orb_false_r, andb_true_r. apply N.leb_le. lia.
Qed.

Lemma number_start c : (is_digit c || Ascii.eqb c "-") = true -> value_start c = true.
Proof.
  destruct c as [b0 b1 b2 b3 b4 b5 b6 b7].
  destruct b0, b1, b2, b3, b4, b5, b6, b7; try discriminate; reflexivity.
Qed.

Lemma parse_value_number f c t :
  (is_digit c || Ascii.eqb c "-") = true ->
  parse_value (S f) (String c t) =
  match scan_number (String c t) with
  | Some (lit, rest) => Some (JNum lit, rest)
  | None => None
  end.
Proof.
  destruct c as [b0 b1 b2 b3 b4 b5 b6 b7].
  destruct b0, b1, b2, b3, b4, b5, b6, b7; try discriminate; reflexivity.
Qed.

Lemma stringify_head v :
  wf v = true -> exists c t, stringify v = String c t /\ value_start c = true.
Proof.
  destruct v as [| [|] | lit | s | items | members]; simpl; intros H.
  - now exists "n"%char, "ull".
  - now exists "t"%char, "rue".
  - now exists "f"%char, "alse".
  - destruct (number_literal_head lit H) as (c & t & -> & Hc).
    exists c, t. split; [reflexivity | now apply number_start].
  - eexists _, _. split; [reflexivity | reflexivity].
  - eexists _, _. split; [reflexivity | reflexivity].
  - eexists _, _. split; [reflexivity | reflexivity].
Qed.

Lemma skip_ws_stringify v rest :
  wf v = true -> skip_ws (stringify v ++ rest) = stringify v ++ rest.
Proof.
  intros H. destruct (stringify_head v H) as (c & t & -> & Hc).
  simpl. now apply skip_ws_start.
Qed.

Lemma parse_elements_close f s v r :
  parse_value f s = Some (v, String "]" r) -> parse_elements (S f) s = Some ([v], r).
Proof. intros H. simpl. rewrite H. reflexivity. Qed.

Lemma parse_elements_comma f s v r :
  parse_value f s = Some (v, String "," r) ->
  parse_elements (S f) s =
  match parse_elements f (skip_ws r) with
  | Some (vs, rest) => Some (v :: vs, rest)
  | None => None
  end.
Proof. intros H. simpl. rewrite H. reflexivity. Qed.

Lemma skip_ws_join items rest :
  forallb wf items = true -> items <> [] ->
  skip_ws (join "," (map stringify items) ++ rest) = join "," (map stringify items) ++ rest.
Proof.
  destruct items as [|v vs]; [congruence|]. intros Hw _.
  simpl in Hw. apply andb_true_iff in Hw as [Hw _].
  destruct (stringify_head v Hw) as (c & t & E & Hc).
  simpl. destruct vs; rewrite E; simpl; now apply skip_ws_start.
Qed.

Lemma parse_elements_stringify items :
  Forall roundtrip items -> forallb wf items = true -> items <> [] ->
  forall f rest, elements_fuel items <= f ->
  parse_elements f (join "," (map stringify items) ++ String "]" rest) = Some (items, rest).
Proof.
  induction 1 as [|v vs Hv Hvs IH]; [congruence|].
  intros Hwf _ f rest Hf. simpl in Hwf. apply andb_true_iff in Hwf as [Hw Hws].
  simpl in Hf. destruct f as [|f]; [lia|].
  destruct vs as [|v2 vs].
  - apply parse_elements_close. simpl.
    apply (Hv Hw); [simpl in Hf; lia | reflexivity].
  - change (join "," (map stringify (v :: v2 :: vs)))
      with (stringify v ++ "," ++ join "," (map stringify (v2 :: vs))).
    rewrite string_app_assoc.
    rewrite (parse_elements_comma f _ v
               (join "," (map stringify (v2 :: vs)) ++ String "]" rest)).
    + rewrite skip_ws_join by (assumption || congruence).
      rewrite IH; [reflexivity | assumption | congruence | ].
      fold (elements_fuel (v2 :: vs)) in Hf. lia.
    + apply (Hv Hw); [lia | reflexivity].
Qed.

Lemma member_text_app k v s :
  member_text (k, v) ++ s
  = String dquote (escape k ++ String dquote (String ":" (stringify v ++ s))).
Proof.
  unfold member_text, quote. simpl. rewrite !string_app_assoc. reflexivity.
Qed.

Lemma parse_members_key f k r :
  parse_members (S f) (String dquote (escape k ++ String dquote (String ":" r))) =
  match parse_value f (skip_ws r) with
  | None => None
  | Some (v, r3) =>
      match skip_ws r3 with
      | EmptyString => None
      | String c r' =>
          if Ascii.eqb c "}" then Some ([(k, v)], r')
          else if Ascii.eqb c "," then
            match parse_members f (skip_ws r') with
            | Some (ms, rest) => Some ((k, v) :: ms, rest)
            | None => None
            end
          else None
      end
  end.
Proof.
  cbn [parse_members]. change (Ascii.eqb dquote dquote) with true. cbv iota.
  rewrite string_body_escape. reflexivity.
Qed.

Lemma parse_members_step f k v s :
  parse_value f (stringify v ++ s) = Some (v, s) ->
  wf v = true ->
  parse_members (S f) (member_text (k, v) ++ s) =
  match skip_ws s with
  | EmptyString => None
  | String c r' =>
      if Ascii.eqb c "}" then Some ([(k, v)], r')
      else if Ascii.eqb c "," then
        match parse_members f (skip_ws r') with
        | Some (ms, rest) => Some ((k, v) :: ms, rest)
        | None => None
        end
      else None
  end.
Proof.
  intros H Hw.
  rewrite member_text_app, parse_members_key, (skip_ws_stringify v s Hw), H.
  reflexivity.
Qed.

Lemma skip_ws_members members rest :
  members <> [] ->
  skip_ws (join "," (map member_text members) ++ rest)
  = join "," (map member_text members) ++ rest.
Proof.
  destruct members as [|kv ms]; [congruence|]. intros _.
  simpl. destruct ms; reflexivity.
Qed.

Lemma parse_members_stringify members :
  Forall (fun kv => roundtrip (snd kv)) members ->
  forallb (fun kv => wf (snd kv)) members = true -> members <> [] ->
  forall f rest, members_fuel members <= f ->
  parse_members f (join "," (map member_text members) ++ String "}" rest)
  = Some (members, rest).
Proof.
  induction 1 as [|[k v] ms Hv Hms IH]; [congruence|].
  intros Hwf _ f rest Hf. simpl in Hwf. apply andb_true_iff in Hwf as [Hw Hws].
  simpl in Hf, Hv. destruct f as [|f]; [lia|].
  destruct ms as [|kv2 ms].
  - simpl join. rewrite (parse_members_step f k v (String "}" rest)).
    + reflexivity.
    + apply (Hv Hw); [simpl in Hf; lia | reflexivity].
    + assumption.
  - change (join "," (map member_text ((k, v) :: kv2 :: ms)))
      with (member_text (k, v) ++ "," ++ join "," (map member_text (kv2 :: ms))).
    rewrite string_app_assoc.
    change (("," ++ join "," (map member_text (kv2 :: ms))) ++ String "}" rest)
      with (String "," (join "," (map member_text (kv2 :: ms)) ++ String "}" rest)).
    rewrite (parse_members_step f k v).
    + change (skip_ws (String "," ?x)) with (String "," x).
      change (Ascii.eqb "," "}") with false. change (Ascii.eqb "," ",") with true.
      cbv iota.
      rewrite skip_ws_members by congruence.
      rewrite IH; [reflexivity | assumption | congruence | ].
      fold (members_fuel (kv2 :: ms)) in Hf. lia.
    + apply (Hv Hw); [lia | reflexivity].
    + assumption.
Qed.

Lemma stringify_arr items rest :
  stringify (JArr items) ++ rest
  = String "[" (join "," (map stringify items) ++ String "]" rest).
Proof. simpl. now rewrite string_app_assoc. Qed.

Lemma stringify_obj members rest :
  stringify (JObj members) ++ rest
  = String "{" (join "," (map member_text members) ++ String "}" rest).
Proof. simpl. now rewrite string_app_assoc. Qed.

Lemma stringify_str s rest :
  stringify (JStr s) ++ rest = String dquote (escape s ++ String dquote rest).
Proof. simpl. now rewrite string_app_assoc. Qed.

Lemma parse_value_arr f c t :
  value_start c = true ->
  parse_value (S f) (String "[" (String c t)) =
  match parse_elements f (String c t) with
  | Some (items, rest) => Some (JArr items, rest)
  | None => None
  end.
Proof.
  intros Hc. cbn [parse_value]. change (Ascii.eqb "[" "[") with true. cbv iota.
  rewrite skip_ws_start by assumption.
  unfold value_start in Hc.
  destruct (Ascii.eqb c "]"); [now rewrite andb_false_r in Hc | reflexivity].
Qed.

Lemma parse_value_obj f t :
  parse_value (S f) (String "{" (String dquote t)) =
  match parse_members f (String dquote t) with
  | Some (ms, rest) => Some (JObj ms, rest)
  | None => None
  end.
Proof. reflexivity. Qed.

Lemma parse_value_str f r :
  parse_value (S f) (String dquote r) =
  match string_body r with
  | Some (t, rest) => Some (JStr t, rest)
  | None => None
  end.
Proof. reflexivity. Qed.

Lemma parse_value_roundtrip v : roundtrip v.
Proof.
  induction v as [| b | lit | s | items IH | members IH] using Json_induction;
    intros Hw f rest Hf Hd; (destruct f as [|f]; [simpl in Hf; lia|]).
  - reflexivity.
  - destruct b; reflexivity.
  - simpl in Hw. destruct (number_literal_head lit Hw) as (c & t & -> & Hc).
    simpl stringify.
    change (String c t ++ rest) with (String c (t ++ rest)).
    rewrite parse_value_number by assumption.
    change (String c (t ++ rest)) with (String c t ++ rest).
    now rewrite number_literal_scan.
  - now rewrite stringify_str, parse_value_str, string_body_escape.
  - simpl in Hw. rewrite stringify_arr. destruct items as [|v vs]; [reflexivity|].
    pose proof (parse_elements_stringify (v :: vs) IH Hw ltac:(congruence) f rest) as P.
    assert (Hhead : exists c t, join "," (map stringify (v :: vs)) ++ String "]" rest
                                = String c t /\ value_start c = true).
    { simpl in Hw. apply andb_true_iff in Hw as [Hw' _].
      destruct (stringify_head v Hw') as (c & t & E & Hc).
      simpl. destruct vs; rewrite E; simpl; eauto. }
    destruct Hhead as (c & t & E & Hc). rewrite E in *.
    rewrite parse_value_arr, P; [reflexivity | | assumption].
    simpl in Hf. unfold elements_fuel. simpl. lia.
  - simpl in Hw. rewrite stringify_obj. destruct members as [|kv ms]; [reflexivity|].
    pose proof (parse_members_stringify (kv :: ms) IH Hw ltac:(congruence) f rest) as P.
    assert (E : exists t, join "," (map member_text (kv :: ms)) ++ String "}" rest
                          = String dquote t).
    { simpl. destruct ms; simpl; eauto. }
    destruct E as (t & E). rewrite E in *.
    rewrite parse_value_obj, P; [reflexivity|].
    simpl in Hf. unfold members_fuel. simpl. lia.
Qed.

Lemma length_join_le (texts : list string) (sizes : list nat) :
  Forall2 (fun t n => n <= String.length t) texts sizes ->
  fold_right (fun n acc => S (n + acc)) 0 sizes <= S (String.length (join "," texts)).
Proof.
  induction 1 as [|t n ts ns Hn Hs IH]; simpl; [lia|].
  destruct ts as [|t2 ts].
  - inversion Hs; subst. simpl. lia.
  - rewrite !string_length_app. simpl String.length. simpl in IH. 
    destruct ns; inversion Hs; subst. simpl in *. lia.
Qed.

Lemma number_literal_nonempty lit : number_literal lit = true -> 1 <= String.length lit.
Proof.
  intros H. destruct (number_literal_head lit H) as (c & t & -> & _). simpl. lia.
Qed.

Lemma length_stringify_arr items :
  String.length (stringify (JArr items))
  = S (S (String.length (join "," (map stringify items)))).
Proof. simpl. rewrite string_length_app. simpl. lia. Qed.

Lemma length_stringify_obj members :
  String.length (stringify (JObj members))
  = S (S (String.length (join "," (map member_text members)))).
Proof.
  change (stringify (JObj members))
    with (String "{" (join "," (map member_text members) ++ "}")).
  simpl. rewrite string_length_app. simpl. lia.
Qed.

Lemma size_le_length v : wf v = true -> size v <= String.length (stringify v).
Proof.
  induction v as [| b | lit | s | items IH | members IH] using Json_induction;
    intros Hw.
  - simpl. lia.
  - destruct b; simpl; lia.
  - now apply number_literal_nonempty.
  - simpl. lia.
  - rewrite length_stringify_arr. simpl size. simpl in Hw.
    replace (fold_right (fun x n => S (size x + n)) 0 items)
      with (fold_right (fun n acc => S (n + acc)) 0 (map size items))
      by (clear; induction items; simpl; [reflexivity | now rewrite IHitems]).
    pose proof (length_join_le (map stringify items) (map size items)) as L.
    enough (Forall2 (fun t n => n <= String.length t) (map stringify items) (map size items))
      by (specialize (L H); lia).
    clear L. induction IH; simpl in *; constructor.
    + apply H. now apply andb_true_iff in Hw as [? _].
    + apply IHIH. now apply andb_true_iff in Hw as [_ ?].
  - rewrite length_stringify_obj. simpl size. simpl in Hw.
    replace (fold_right (fun kv n => S (size (snd kv) + n)) 0 members)
      with (fold_right (fun n acc => S (n + acc)) 0 (map (fun kv => size (snd kv)) members))
      by (clear; induction members; simpl; [reflexivity | now rewrite IHmembers]).
    pose proof (length_join_le (map member_text members)
                  (map (fun kv => size (snd kv)) members)) as L.
    enough (Forall2 (fun t n => n <= String.length t) (map member_text members)
              (map (fun kv => size (snd kv)) members))
      by (specialize (L H); lia).
    clear L. induction IH; simpl in *; constructor.
    + unfold member_text. rewrite !string_length_app.
      apply andb_true_iff in Hw as [Hw _]. specialize (H Hw). lia.
    + apply IHIH. now apply andb_true_iff in Hw as [_ ?].
Qed.

Lemma parse_stringify v : wf v = true -> parse (stringify v) = Some v.
Proof.
  intros Hw. unfold parse.
  rewrite <- (string_app_empty_r (stringify v)) at 2.
  rewrite skip_ws_stringify by assumption.
  rewrite parse_value_roundtrip; [reflexivity | assumption | | reflexivity].
  pose proof (size_le_length v Hw). lia.
Qed.

(** ** The reference backend keeps the laws of the interface *)

Import Reference.

Lemma free_of_app sep a b : free_of sep (a ++ b) = free_of sep a && free_of sep b.
Proof.
  unfold free_of. induction a as [|c a IH]; simpl; [reflexivity|].
  now rewrite IH, andb_assoc.
Qed.

Lemma split_free sep s : free_of sep s = true -> split sep s = [s].
Proof.
  unfold free_of. induction s as [|c s IH]; simpl; [reflexivity|].
  intros H. apply andb_true_iff in H as [Hc Hs].
  apply negb_true_iff in Hc. rewrite Hc, (IH Hs). reflexivity.
Qed.

Lemma split_app sep a b :
  free_of sep a = true -> split sep (a ++ String sep b) = a :: split sep b.
Proof.
  unfold free_of. induction a as [|c a IH]; simpl.
  - now rewrite Ascii.eqb_refl.
  - intros H. apply andb_true_iff in H as [Hc Hs].
    apply negb_true_iff in Hc. rewrite Hc, (IH Hs). reflexivity.
Qed.

Lemma hex_char_roundtrip c :
  hex_value (hex_digit (code c / 16)) = Some (code c / 16)%N
  /\ hex_value (hex_digit (code c mod 16)) = Some (code c mod 16)%N
  /\ ascii_of_N ((code c / 16) * 16 + code c mod 16) = c.
Proof.
  destruct c as [b0 b1 b2 b3 b4 b5 b6 b7].
  destruct b0, b1, b2, b3, b4, b5, b6, b7; repeat split; reflexivity.
Qed.

Lemma hex_decode_encode s : hex_decode (hex_encode s) = Some s.
Proof.
  induction s as [|c s IH]; simpl; [reflexivity|].
  destruct (hex_char_roundtrip c) as (-> & -> & ->). now rewrite IH.
Qed.

Lemma hex_char_free c sep :
  (sep = "." \/ sep = " ")%char ->
  negb (Ascii.eqb (hex_digit (code c / 16)) sep)
  && negb (Ascii.eqb (hex_digit (code c mod 16)) sep) = true.
Proof.
  intros [-> | ->];
  destruct c as [b0 b1 b2 b3 b4 b5 b6 b7];
  destruct b0, b1, b2, b3, b4, b5, b6, b7; reflexivity.
Qed.

Lemma hex_encode_free s sep :
  (sep = "." \/ sep = " ")%char -> free_of sep (hex_encode s) = true.
Proof.
  intros Hsep. unfold free_of. induction s as [|c s IH]; simpl; [reflexivity|].
  pose proof (hex_char_free c sep Hsep) as H. apply andb_true_iff in H as [-> ->].
  exact IH.
Qed.

Lemma decimal_roundtrip z :
  NilZero.int_of_string (NilZero.string_of_int (Z.to_int z)) = Some (Z.to_int z).
Proof.
  apply NilZero.isi; destruct z; simpl; try discriminate;
    intros [= H]; now apply Unsigned.to_uint_nonnil in H.
Qed.

Lemma json_opt_roundtrip v : json_opt (Some (opt_json v)) = Some v.
Proof. now destruct v. Qed.

Lemma json_date_roundtrip v : json_date (Some (date_json v)) = Some v.
Proof.
  destruct v as [[z|]|]; simpl; try reflexivity.
  now rewrite decimal_roundtrip, DecimalZ.of_to.
Qed.

Lemma wf_opt_json v : wf (opt_json v) = true.
Proof. now destruct v. Qed.

Lemma wf_date_json v : wf (date_json v) = true.
Proof. now destruct v as [[z|]|]. Qed.

Lemma json_header_roundtrip h : json_header (header_json h) = Some h.
Proof.
  destruct h as [a t]. unfold header_json, json_header. cbn [alg typ].
  change (get "alg" _) with (Some (JStr a)).
  change (get "typ" _) with (Some (opt_json t)).
  now rewrite json_opt_roundtrip.
Qed.

Lemma json_payload_roundtrip p : json_payload (payload_json p) = Some p.
Proof.
  destruct p as [i s a e n t r sc]. unfold payload_json, json_payload.
  cbn [iss sub aud exp nbf iat role scope].
  change (get "iss" _) with (Some (opt_json i)).
  change (get "sub" _) with (Some (opt_json s)).
  change (get "aud" _) with (Some (opt_json a)).
  change (get "exp" _) with (Some (date_json e)).
  change (get "nbf" _) with (Some (date_json n)).
  change (get "iat" _) with (Some (date_json t)).
  change (get "role" _) with (Some (opt_json r)).
  change (get "scope" _) with (Some (opt_json sc)).
  now rewrite !json_opt_roundtrip, !json_date_roundtrip.
Qed.

Lemma toy_sign_parts h p k :
  toy_sign h p k
  = hex_encode (stringify (header_json h))
    ++ String "." (hex_encode (stringify (payload_json p))
                   ++ String "." (signature k (signing_input h p))).
Proof.
  unfold toy_sign, signing_input. rewrite !string_app_assoc. reflexivity.
Qed.

Lemma split_token h p k :
  split "." (toy_sign h p k)
  = [hex_encode (stringify (header_json h));
     hex_encode (stringify (payload_json p));
     signature k (signing_input h p)].
Proof.
  rewrite toy_sign_parts.
  rewrite !split_app by (apply hex_encode_free; now left).
  rewrite split_free by (apply hex_encode_free; now left).
  reflexivity.
Qed.

Lemma toy_decode_sign h p k : toy_decode (toy_sign h p k) = Some (h, p).
Proof.
  unfold toy_decode. rewrite split_token, !hex_decode_encode.
  rewrite !parse_stringify.
  - now rewrite json_header_roundtrip, json_payload_roundtrip.
  - simpl. now rewrite !wf_opt_json, !wf_date_json.
  - simpl. now rewrite wf_opt_json.
Qed.

Lemma toy_sign_readable h p k : toy_throws (toy_sign h p k) = false.
Proof.
  unfold toy_throws. rewrite split_token, !hex_decode_encode.
  rewrite !parse_stringify.
  - reflexivity.
  - simpl. now rewrite !wf_opt_json, !wf_date_json.
  - simpl. now rewrite wf_opt_json.
Qed.

Lemma rsa_roundtrip k x :
  (0 <= x < modulus k)%Z ->
  rsa (rsa x (private_exponent k) (modulus k)) (public_exponent k) (modulus k) = x.
Proof.
  intros Hx.
  assert (H : rsa_inverts k = true) by (destruct k; vm_compute; reflexivity).
  unfold rsa_inverts in H. rewrite forallb_forall in H.
  apply Z.eqb_eq, H, in_map_iff. exists (Z.to_nat x). split; [lia|].
  apply in_seq. lia.
Qed.

Lemma rsa_small k x : (0 <= rsa x (private_exponent k) (modulus k) < 256)%Z.
Proof.
  unfold rsa.
  assert (0 < modulus k <= 256)%Z by (destruct k; simpl; lia).
  pose proof (Z.mod_pos_bound (x ^ private_exponent k) (modulus k)). lia.
Qed.

Lemma toy_verify_sign h p k :
  toy_verify (toy_sign h p k) "RS256" (toy_public k) = true.
Proof.
  unfold toy_verify. rewrite split_token. unfold signature.
  rewrite hex_decode_encode. simpl String.eqb. cbn [andb str1].
  unfold code. rewrite N_ascii_embedding.
  - rewrite Z2N.id by apply rsa_small.
    cbn [toy_public pub_modulus pub_exponent].
    apply Z.eqb_eq. unfold signing_input. apply rsa_roundtrip.
    apply Z.mod_pos_bound. destruct k; reflexivity.
  - pose proof (rsa_small k (digest 0 (signing_input h p) mod modulus k)). lia.
Qed.

Lemma toy_sign_compact h p k : compact (toy_sign h p k) = true.
Proof.
  unfold compact.
  assert (F : free_of " " (toy_sign h p k) = true).
  { unfold toy_sign, signing_input, signature.
    rewrite !free_of_app, !hex_encode_free by now right. reflexivity. }
  unfold free_of in F. rewrite F.
  unfold toy_sign, signing_input.
  destruct (hex_encode (stringify (header_json h))); reflexivity.
Qed.

Lemma string_of_int_nonempty z : NilZero.string_of_int (Z.to_int z) <> "".
Proof.
  intros E. pose proof (decimal_roundtrip z) as R. rewrite E in R. discriminate.
Qed.

Lemma toy_import_export pk :
  exists n e, toy_export pk = {| jwk_n := Some n; jwk_e := Some e |}
              /\ n <> "" /\ e <> "" /\ toy_import n e = Some pk.
Proof.
  destruct pk as [m x]. eexists _, _. split; [reflexivity|].
  repeat split; try apply string_of_int_nonempty.
  unfold toy_import. cbn [pub_modulus pub_exponent].
  now rewrite !decimal_roundtrip, !DecimalZ.of_to.
Qed.

(** The reference backend meets the interface. *)
#[export] Instance reference : Backend := {|
  PrivateKey := ToyKey;
  PublicKey := ToyPublicKey;
  public_of := toy_public;
  fingerprint := toy_fingerprint;
  export_jwk := toy_export;
  import_jwk := toy_import;
  jws_sign := toy_sign;
  jws_decode := toy_decode;
  jws_throws := toy_throws;
  jws_verify := toy_verify;
  decode_sign := toy_decode_sign;
  sign_readable := toy_sign_readable;
  verify_sign := fun h p k _ => toy_verify_sign h p k;
  sign_compact := toy_sign_compact;
  import_export := toy_import_export
|}.

(** ** The token endpoint and the middleware: shared facts *)

Lemma find_existsb {A : Type} (f : A -> bool) (l : list A) :
  existsb f l = false -> find f l = None.
Proof.
  induction l as [|x l IH]; simpl; [reflexivity|].
  destruct (f x); [discriminate | exact IH].
Qed.

Lemma find_first {A : Type} (f : A -> bool) (l : list A) (x : A) :
  In x l -> f x = true -> exists y, find f l = Some y /\ In y l /\ f y = true.
Proof.
  intros Hin Hf. destruct (find f l) as [y|] eqn:E.
  - exists y. destruct (find_some _ _ E). auto.
  - now rewrite (find_none _ _ E x Hin) in Hf.
Qed.

Lemma existsb_weaken {A : Type} (f g : A -> bool) (l : list A) :
  existsb f l = false -> existsb (fun x => f x && g x) l = false.
Proof.
  induction l as [|x l IH]; simpl; [reflexivity|].
  intros H. apply orb_false_iff in H as [-> H]. now rewrite (IH H).
Qed.

Lemma match_nonempty {A X : Type} (l : list A) (a b : X) :
  l <> [] -> match l with [] => a | _ :: _ => b end = b.
Proof. destruct l; congruence. Qed.

Lemma truthy_nonempty s : nonempty s = true -> truthy (Some s) = true.
Proof. now destruct s. Qed.

Lemma same_refl s : same s (Some s) = true.
Proof. apply String.eqb_refl. Qed.

Lemma same_eq a v : same a v = true -> v = Some a.
Proof.
  destruct v as [s|]; simpl; [|discriminate].
  intros H. apply String.eqb_eq in H. now subst.
Qed.

Lemma clients_nonempty env c :
  In c (clients env) ->
  nonempty (clientId c) = true /\ nonempty (clientSecret c) = true.
Proof.
  unfold clients. intros H. apply filter_In in H as [_ H].
  now apply andb_true_iff in H.
Qed.

Lemma users_nonempty env u :
  In u (users env) ->
  nonempty (username u) = true /\ nonempty (password u) = true.
Proof.
  unfold users. intros H. apply filter_In in H as [_ H].
  now apply andb_true_iff in H.
Qed.

Lemma check_dates_accepts clock p :
  check_dates clock p = Decoded p <-> in_window clock p = true.
Proof.
  unfold check_dates, in_window.
  destruct (nbf p) as [[n|]|], (exp p) as [[e|]|]; simpl;
    repeat match goal with
           | |- context [(?a >? ?b)%Z] => destruct (Z.gtb_spec a b)
           | |- context [(?a >=? ?b)%Z] => destruct (Z.geb_spec a b)
           | |- context [(?a <=? ?b)%Z] => destruct (Z.leb_spec a b)
           | |- context [(?a <? ?b)%Z] => destruct (Z.ltb_spec a b)
           end; simpl; split; intros; try discriminate; try reflexivity; try lia.
Qed.

(** The dates of a payload never raise the error of the decoder. *)
Lemma check_dates_readable clock p : check_dates clock p <> Failed SyntaxError.
Proof.
  unfold check_dates.
  destruct (nbf p) as [[n|]|]; [destruct (n >? clock)%Z| |]; try discriminate;
    destruct (exp p) as [[e|]|]; try discriminate;
    destruct (clock >=? e)%Z; discriminate.
Qed.

Lemma access_token_error code error description :
  access_token (oauth_error code error description) = None.
Proof. reflexivity. Qed.

Section IssuerFacts.
Context {B : Backend}.

Lemma sign_mint env now subject role scope key :
  sign now (OAuth.mint env now subject role scope) key "RS256"
  = jws_sign rs256_header (OAuth.mint env now subject role scope) key.
Proof.
  unfold sign, OAuth.mint. cbn [iat iss sub aud exp nbf Jwt.role Jwt.scope].
  destruct (Z.eqb_spec now 0) as [->|_]; reflexivity.
Qed.

Lemma verify_signed clock h p k :
  alg h = "RS256" ->
  verify clock (jws_sign h p k) (public_of k) ["RS256"] = check_dates clock p.
Proof.
  intros Ha. unfold verify. rewrite sign_readable, decode_sign, Ha.
  simpl existsb. cbn [negb orb].
  now rewrite (verify_sign h p k Ha).
Qed.

Lemma bearer_split token :
  compact token = true -> split " " ("Bearer " ++ token) = ["Bearer"; token].
Proof.
  intros H. unfold compact in H. destruct token as [|c t]; [discriminate|].
  assert (F : free_of " " (String c t) = true) by exact H.
  change ("Bearer " ++ String c t) with ("Bearer" ++ String " " (String c t)).
  rewrite split_app by reflexivity.
  now rewrite (split_free " " (String c t) F).
Qed.

Lemma authenticate_bearer fresh clock token :
  compact token = true ->
  Auth.authenticateToken (generateRSAKeyPair fresh) clock (Some ("Bearer " ++ token))
  = match verify clock token (public_of fresh) ["RS256"] with
    | Decoded decoded => Auth.Next decoded
    | Failed TokenExpiredError => Auth.unauthorized "Token has expired"
    | Failed NotBeforeError => Auth.unauthorized "Token not yet valid"
    | Failed (JsonWebTokenError _) => Auth.unauthorized "Invalid or malformed token"
    | Failed SyntaxError =>
        Auth.Respond (oauth_error 500 "server_error" "Authentication error")
    end.
Proof.
  intros H. unfold Auth.authenticateToken.
  change (truthy (Some ("Bearer " ++ token))) with true. cbn [negb].
  change (or_else (Some ("Bearer " ++ token)) "") with ("Bearer " ++ token).
  rewrite (bearer_split token H).
  cbn [List.length Nat.eqb nth negb orb]. simpl String.eqb. cbn [negb].
  unfold compact in H. destruct token as [|c t]; [discriminate|].
  reflexivity.
Qed.

Lemma access_token_issue env fresh now payload scope :
  access_token (OAuth.issue env (generateRSAKeyPair fresh) now payload scope)
  = Some (sign now payload fresh "RS256").
Proof.
  unfold OAuth.issue, access_token. cbn [generateRSAKeyPair getPrivateKey privateKey].
  cbn [OAuth.token_response body]. destruct scope as [[|c s]|]; reflexivity.
Qed.

(** A token the endpoint hands out is the signed mint for the client its
    lookup found. *)
Lemma issued_token env fresh now req token :
  access_token (OAuth.tokenHandler env (generateRSAKeyPair fresh) now req) = Some token ->
  exists client,
    find_client env (client_id req) (client_secret req) = Some client
    /\ token = jws_sign rs256_header
                 (OAuth.mint env now (client_id req) (client_role client) (req_scope req))
                 fresh.
Proof.
  unfold OAuth.tokenHandler. destruct (clients env) as [|c0 cs] eqn:Ecl.
  - now rewrite access_token_error.
  - repeat match goal with
           | |- context [if ?b then _ else _] =>
               destruct b; [now rewrite access_token_error|]
           end.
    destruct (find_client _ _ _) as [client|] eqn:F; [|now rewrite access_token_error].
    rewrite access_token_issue, sign_mint. intros [= <-].
    exists client. split; reflexivity.
Qed.

Lemma published_process_key fresh :
  exists jwks, getPublicKeyJWK (generateRSAKeyPair fresh) = Returned jwks
               /\ published_key jwks = Some (public_of fresh).
Proof.
  unfold getPublicKeyJWK, generateRSAKeyPair. cbn [publicKey kid].
  destruct (import_export (public_of fresh)) as (m & x & E & Hm & Hx & I).
  rewrite E. cbn [jwk_n jwk_e]. eexists. split; [reflexivity|].
  unfold published_key. cbn [JwtKeys.n JwtKeys.e].
  destruct m; [congruence|]. destruct x; [congruence|]. exact I.
Qed.

Lemma check_dates_mint env now subject role scope T clock :
  TOKEN_EXPIRES_IN env = Int T ->
  check_dates clock (OAuth.mint env now subject role scope)
  = if (clock >=? now + T)%Z then Failed TokenExpiredError
    else Decoded (OAuth.mint env now subject role scope).
Proof.
  intros E. unfold check_dates, OAuth.mint. cbn [nbf exp]. rewrite E. reflexivity.
Qed.

End IssuerFacts.

(** ** The header the middleware reads *)

Lemma split_nonempty sep s : split sep s <> [].
Proof.
  destruct s as [|c r]; simpl; [discriminate|].
  destruct (Ascii.eqb c sep); [discriminate|].
  destruct (split sep r); discriminate.
Qed.

(** Joining the pieces with the separator gives the text back. *)
Lemma join_split sep s : join (str1 sep) (split sep s) = s.
Proof.
  induction s as [|c r IH]; [reflexivity|].
  cbn [split]. destruct (Ascii.eqb_spec c sep) as [->|Hc].
  - pose proof (split_nonempty sep r) as Hne.
    destruct (split sep r) as [|p ps]; [congruence|].
    change (join (str1 sep) ("" :: p :: ps))
      with (String sep (join (str1 sep) (p :: ps))).
    now rewrite IH.
  - pose proof (split_nonempty sep r) as Hne.
    destruct (split sep r) as [|p ps]; [congruence|].
    destruct ps as [|q qs].
    + simpl in *. now rewrite IH.
    + change (join (str1 sep) (String c p :: q :: qs))
        with (String c (p ++ str1 sep ++ join (str1 sep) (q :: qs))).
      change (join (str1 sep) (p :: q :: qs))
        with (p ++ str1 sep ++ join (str1 sep) (q :: qs)) in IH.
      now rewrite IH.
Qed.

(** No piece holds the separator. *)
Lemma split_pieces_free sep s : forallb (free_of sep) (split sep s) = true.
Proof.
  induction s as [|c r IH]; [reflexivity|].
  cbn [split]. destruct (Ascii.eqb c sep) eqn:Hc.
  - cbn [forallb]. now rewrite IH.
  - pose proof (split_nonempty sep r) as Hne.
    destruct (split sep r) as [|p ps]; [congruence|].
    cbn [forallb] in *. apply andb_true_iff in IH as [Hp Hps].
    rewrite Hps, andb_true_r. unfold free_of in *. simpl. now rewrite Hc, Hp.
Qed.

Lemma compact_free token :
  compact token = true <-> token <> "" /\ free_of " " token = true.
Proof.
  unfold compact, free_of. destruct token as [|c t].
  - split; [discriminate | now intros [[] _]].
  - split; [intros H; split; [discriminate | exact H] | now intros [_ H]].
Qed.

(** The middleware by the shape of the header: either it is [Bearer], one
    space and a token with no space, and the answer is that of the key
    manager and [jwt.verify]; or it is not, and the answer is one of the
    three 401 responses about the header. *)
Lemma authenticate_header {B : Backend} keyPair clock authorization :
  (exists token,
      authorization = Some ("Bearer " ++ token)
      /\ compact token = true
      /\ Auth.authenticateToken keyPair clock authorization
         = match getPublicKey keyPair with
           | Thrown _ => Auth.Respond (oauth_error 500 "server_error" "Authentication error")
           | Returned publicKey =>
               match verify clock token publicKey ["RS256"] with
               | Decoded decoded => Auth.Next decoded
               | Failed TokenExpiredError => Auth.unauthorized "Token has expired"
               | Failed NotBeforeError => Auth.unauthorized "Token not yet valid"
               | Failed (JsonWebTokenError _) =>
                   Auth.unauthorized "Invalid or malformed token"
               | Failed SyntaxError =>
                   Auth.Respond (oauth_error 500 "server_error" "Authentication error")
               end
           end)
  \/ ((forall token, authorization = Some ("Bearer " ++ token) -> compact token = false)
      /\ exists description,
           In description
             ["Missing Authorization header";
              "Invalid Authorization header format. Expected: Bearer <token>";
              "Missing access token"]
           /\ Auth.authenticateToken keyPair clock authorization
              = Auth.unauthorized description).
Proof.
  unfold Auth.authenticateToken.
  destruct authorization as [[|c h]|].
  - right. split; [intros [|? ?]; discriminate|].
    eexists. split; [|reflexivity]. simpl; tauto.
  - cbn [truthy negb or_else].
    pose proof (join_split " " (String c h)) as J.
    pose proof (split_pieces_free " " (String c h)) as F.
    pose proof (split_nonempty " " (String c h)) as Hne.
    assert (two : forall token,
               Some (String c h) = Some ("Bearer " ++ token) -> compact token = true ->
               split " " (String c h) = ["Bearer"; token]).
    { intros token E C. assert (E' : String c h = "Bearer " ++ token) by congruence.
      rewrite E'. now apply bearer_split. }
    destruct (split " " (String c h)) as [|a [|b [|x xs]]] eqn:S; [congruence| | |].
    + right. split.
      * intros token E. destruct (compact token) eqn:C; [|reflexivity].
        now specialize (two token E C).
      * eexists. split; [|reflexivity]. simpl; tauto.
    + cbn [List.length Nat.eqb negb orb nth].
      destruct (String.eqb_spec a "Bearer") as [->|Ha].
      * cbn [negb]. destruct b as [|b0 b'].
        -- right. split.
           ++ intros token E. destruct (compact token) eqn:C; [|reflexivity].
              specialize (two token E C). injection two as T. subst token. discriminate C.
           ++ eexists. split; [|reflexivity]. simpl; tauto.
        -- left. exists (String b0 b').
           cbn [forallb] in F. apply andb_true_iff in F as [_ F].
           apply andb_true_iff in F as [F _].
           refine (conj _ (conj _ eq_refl)).
           ++ now rewrite <- J.
           ++ apply compact_free. split; [discriminate | exact F].
      * right. split.
        -- intros token E. destruct (compact token) eqn:C; [|reflexivity].
           specialize (two token E C). injection two as T _. congruence.
        -- eexists. split; [|reflexivity]. simpl; tauto.
    + right. split.
      * intros token E. destruct (compact token) eqn:C; [|reflexivity].
        now specialize (two token E C).
      * eexists. split; [|reflexivity]. simpl; tauto.
  - right. split; [discriminate|].
    eexists. split; [|reflexivity]. simpl; tauto.
Qed.

(** * The claims *)

(** The claims of [reader] minted at time 1000, and the token the reference
    backend signs for them with key A. *)
Definition reader_claims : JwtPayload :=
  OAuth.mint demo_env 1000 (Some "reader") readonly None.

Definition reader_token : string :=
  Eval vm_compute in sign (B := reference) 1000 reader_claims KeyA "RS256".

Lemma reader_token_issued :
  access_token (OAuth.tokenHandler demo_env (generateRSAKeyPair KeyA) 1000 reader_request)
  = Some reader_token.
Proof. vm_compute. reflexivity. Qed.

(** C1 (amended).  A claim set minted by the token endpoint, signed with the
    process private key under RS256, verifies against the key published in
    the JWKS document and comes back unchanged, at every clock time before
    its [exp].  The time [now], the configured lifetime [T] and [now + T]
    are integers a JavaScript number holds exactly, so that [exp] is
    [now + T]. *)
Theorem minted_token_roundtrip {B : Backend} env fresh now req token T :
  TOKEN_EXPIRES_IN env = Int T ->
  safe_integer now -> safe_integer T -> safe_integer (now + T) ->
  access_token (OAuth.tokenHandler env (generateRSAKeyPair fresh) now req) = Some token ->
  exists client jwks key,
    find_client env (client_id req) (client_secret req) = Some client
    /\ token = sign now (OAuth.mint env now (client_id req) (client_role client)
                           (req_scope req)) fresh "RS256"
    /\ getPublicKeyJWK (generateRSAKeyPair fresh) = Returned jwks
    /\ published_key jwks = Some key
    /\ exp (OAuth.mint env now (client_id req) (client_role client) (req_scope req))
       = Some (Int (now + T))
    /\ forall clock,
         (clock < now + T)%Z ->
         verify clock token key ["RS256"]
         = Decoded (OAuth.mint env now (client_id req) (client_role client) (req_scope req)).
Proof.
  intros HT _ _ _ H. destruct (issued_token env fresh now req token H) as (client & F & ->).
  destruct (published_process_key fresh) as (jwks & Hj & Hk).
  assert (He : exp (OAuth.mint env now (client_id req) (client_role client) (req_scope req))
               = Some (Int (now + T))).
  { unfold OAuth.mint. cbn [exp]. now rewrite HT. }
  exists client, jwks, (public_of fresh).
  refine (conj F (conj _ (conj Hj (conj Hk (conj He _))))).
  - symmetry. apply sign_mint.
  - intros clock Hlt. rewrite verify_signed by reflexivity.
    apply check_dates_accepts. unfold in_window. rewrite He.
    unfold OAuth.mint. cbn [nbf]. simpl. now apply Z.ltb_lt.
Qed.

(** The token minted at time 1000 with the default lifetime no longer
    verifies at 4600; with a configured lifetime of 0 the token does not
    verify at the very second it is minted. *)
Lemma minted_token_expires :
  verify 4600 reader_token (toy_public KeyA) ["RS256"] = Failed TokenExpiredError
  /\ exists token,
       access_token (OAuth.tokenHandler instant_env (generateRSAKeyPair KeyA) 1000
                       reader_request) = Some token
       /\ verify 1000 token (toy_public KeyA) ["RS256"] = Failed TokenExpiredError.
Proof.
  split; [vm_compute; reflexivity|].
  eexists. split; [vm_compute; reflexivity | vm_compute; reflexivity].
Qed.

Lemma minted_token_roundtrip_witness :
  access_token (OAuth.tokenHandler demo_env (generateRSAKeyPair KeyA) 1000 reader_request)
  = Some reader_token
  /\ exists jwks key,
       getPublicKeyJWK (generateRSAKeyPair KeyA) = Returned jwks
       /\ published_key jwks = Some key
       /\ exp reader_claims = Some (Int 4600)
       /\ forall clock,
            (clock < 4600)%Z ->
            verify clock reader_token key ["RS256"] = Decoded reader_claims.
Proof.
  split; [exact reader_token_issued|].
  destruct (minted_token_roundtrip (B := reference) demo_env KeyA 1000 reader_request
              reader_token 3600 eq_refl) as (client & jwks & key & F & _ & J & K & E & V).
  - unfold safe_integer. lia.
  - unfold safe_integer. lia.
  - unfold safe_integer. lia.
  - exact reader_token_issued.
  - vm_compute in F. injection F as <-.
    exists jwks, key. exact (conj J (conj K (conj E V))).
Defined.

(** ** The tool-call loop *)

(** The request the loop sends after a reply that asks for tools: the
    conversation so far, the assistant's message, and one [tool] message per
    call, in order. *)
Definition follow_up (toISOString : Z -> string) (req_user : option JwtPayload)
    (request : Chat.LitellmRequest) (data : Chat.Completion) : Chat.LitellmRequest :=
  {| Chat.messages :=
       (Chat.messages request
        ++ Chat.AssistantToolCalls
             (match Chat.first_content data with
              | Some (String c t) => Some (String c t)
              | _ => None
              end) (Chat.requested_calls data)
           :: map (Chat.run_tool toISOString req_user) (Chat.requested_calls data))%list;
     Chat.tools := Chat.tools request;
     Chat.tool_choice := Chat.tool_choice request;
     Chat.request_model := Chat.request_model request |}.

(** The time is one a [Date] can hold: at most 8.64e15 milliseconds from
    the epoch. *)
Definition date_range (seconds : option Number) : Prop :=
  match seconds with
  | Some (Int t) => (Z.abs (t * 1000) <= 8640000000000000)%Z
  | _ => True
  end.

(** The dates of the authenticated user, when there is one, are dates the
    tool can print. *)
Definition dates_in_range (req_user : option JwtPayload) : Prop :=
  match req_user with
  | Some u => date_range (iat u) /\ date_range (exp u)
  | None => True
  end.

(** What the handler answers to a reply of the completion service that
    ends the loop; [None] for a reply that asks for tools. *)
Definition reaction (f : Chat.Fetched) : option Chat.ChatResponse :=
  match f with
  | Chat.Rejected message =>
      Some (Chat.error_response 500 "Internal server error" message)
  | Chat.Reply r =>
      if negb (Chat.ok r) then
        Some (Chat.error_response (Chat.reply_status r) "LiteLLM server error"
                (Chat.reply_text r))
      else
        match Chat.reply_json r with
        | None =>
            Some (Chat.error_response 500 "Internal server error"
                    "Unexpected token in JSON")
        | Some data =>
            match Chat.requested_calls data with
            | [] => Some {| Chat.status := 200; Chat.body := Chat.Data data |}
            | _ => None
            end
        end
  end.

(** The response is the one the handler gives to a reply that ends the
    loop: the data of a success that asks for no tool; the status and text
    of a failure, under [LiteLLM server error]; 500 [Internal server error]
    with the message of the error when the call throws, and with some
    message when the body of a success does not read as JSON. *)
Definition reacts (f : Chat.Fetched) (response : Chat.ChatResponse) : Prop :=
  match f with
  | Chat.Rejected message =>
      response = Chat.error_response 500 "Internal server error" message
  | Chat.Reply r =>
      if Chat.ok r then
        match Chat.reply_json r with
        | Some data =>
            Chat.requested_calls data = []
            /\ response = {| Chat.status := 200; Chat.body := Chat.Data data |}
        | None =>
            Chat.status response = 500%Z
            /\ exists message,
                 Chat.body response = Chat.ErrorBody "Internal server error" message
        end
      else
        response = Chat.error_response (Chat.reply_status r) "LiteLLM server error"
                     (Chat.reply_text r)
  end.

Lemma reaction_reacts f response : reaction f = Some response -> reacts f response.
Proof.
  unfold reaction, reacts. destruct f as [r | message]; [|now intros [= <-]].
  destruct (Chat.ok r); cbn [negb]; [|now intros [= <-]].
  destruct (Chat.reply_json r) as [data|].
  - destruct (Chat.requested_calls data); [|discriminate]. now intros [= <-].
  - intros [= <-]. split; [reflexivity|]. now eexists.
Qed.

(** The reply to the [i]-th call, [a], asked for tools, and [b] is the
    follow-up sent for it. *)
Definition linked (toISOString : Z -> string) (upstream : Chat.Upstream)
    (req_user : option JwtPayload) (i : nat) (a b : Chat.LitellmRequest) : Prop :=
  exists r data,
    upstream i a = Chat.Reply r
    /\ Chat.ok r = true
    /\ Chat.reply_json r = Some data
    /\ Chat.requested_calls data <> []
    /\ b = follow_up toISOString req_user a data.

(** Each request of the list, the first being the [i]-th call, is followed
    by its follow-up. *)
Fixpoint chained (toISOString : Z -> string) (upstream : Chat.Upstream)
    (req_user : option JwtPayload) (i : nat) (l : list Chat.LitellmRequest) : Prop :=
  match l with
  | a :: (b :: _) as rest =>
      linked toISOString upstream req_user i a b
      /\ chained toISOString upstream req_user (S i) rest
  | _ => True
  end.

Section LoopShape.
Variable toISOString : Z -> string.
Variable upstream : Chat.Upstream.

Local Abbreviation loop := (Chat.tool_loop toISOString upstream).

Lemma chained_prefix u i l a :
  chained toISOString upstream u i (l ++ [a]) -> chained toISOString upstream u i l.
Proof.
  revert i. induction l as [|x l IH]; intros i H; [exact I|].
  destruct l as [|y l]; [exact I|].
  cbn [app chained] in *. destruct H as [L H]. split; [exact L|]. now apply IH.
Qed.

Lemma chained_snoc u i l a b :
  chained toISOString upstream u i (l ++ [a]) ->
  linked toISOString upstream u (i + List.length l) a b ->
  chained toISOString upstream u i ((l ++ [a]) ++ [b]).
Proof.
  revert i. induction l as [|x l IH]; intros i H L.
  - cbn [app chained List.length] in *. rewrite Nat.add_0_r in L. now split.
  - destruct l as [|y l].
    + cbn [app chained List.length] in *. destruct H as [H _].
      replace (i + 1) with (S i) in L by lia. repeat split; assumption.
    + cbn [app chained] in H. destruct H as [Lxy H].
      change (chained toISOString upstream u i (x :: ((y :: l) ++ [a]) ++ [b])).
      cbn [app chained]. split; [exact Lxy|].
      apply (IH (S i) H). cbn [List.length] in *.
      now replace (S i + S (List.length l)) with (i + S (S (List.length l))) by lia.
Qed.

(** The requests sent form a chain, and unless the loop ends at the
    ceiling the response is the reaction to the reply to the last one. *)
Lemma loop_shape u left : forall request h,
  chained toISOString upstream u 1 (Chat.upstream_calls h ++ [request]) ->
  chained toISOString upstream u 1 (Chat.upstream_calls (loop u request left h))
  /\ (left <> 0 ->
      exists rest, Chat.upstream_calls (loop u request left h)
                   = (Chat.upstream_calls h ++ request :: rest)%list)
  /\ (Chat.response (loop u request left h) <> limit_exceeded ->
      exists sent last,
        Chat.upstream_calls (loop u request left h) = (sent ++ [last])%list
        /\ reaction (upstream (S (List.length sent)) last)
           = Some (Chat.response (loop u request left h))).
Proof.
  induction left as [|left IH]; intros request h Hc.
  - cbn [Chat.tool_loop Chat.upstream_calls Chat.response].
    refine (conj (chained_prefix _ _ _ _ Hc) (conj _ _)); [congruence|].
    intros H. now contradiction H.
  - cbn [Chat.tool_loop].
    assert (E : forall r,
               reaction (upstream (S (List.length (Chat.upstream_calls h))) request)
               = Some r ->
               let a := {| Chat.response := r;
                           Chat.upstream_calls := (Chat.upstream_calls h ++ [request])%list;
                           Chat.tool_rounds := Chat.tool_rounds h;
                           Chat.tools_run := Chat.tools_run h |} in
               chained toISOString upstream u 1 (Chat.upstream_calls a)
               /\ (S left <> 0 ->
                   exists rest, Chat.upstream_calls a
                                = (Chat.upstream_calls h ++ request :: rest)%list)
               /\ (Chat.response a <> limit_exceeded ->
                   exists sent last,
                     Chat.upstream_calls a = (sent ++ [last])%list
                     /\ reaction (upstream (S (List.length sent)) last)
                        = Some (Chat.response a))).
    { intros r Hr. cbv zeta. cbn [Chat.response Chat.upstream_calls].
      refine (conj Hc (conj _ _)).
      - intros _. now exists [].
      - intros _. now exists (Chat.upstream_calls h), request. }
    unfold reaction in E.
    destruct (upstream _ request) as [r | m] eqn:U; [|now apply E].
    destruct (negb (Chat.ok r)) eqn:O; [now apply E|].
    destruct (Chat.reply_json r) as [data|] eqn:J; [|now apply E].
    destruct (Chat.requested_calls data) as [|c cs] eqn:Ec; [now apply E|].
    clear E.
    match goal with
    | |- context [Chat.tool_loop _ _ ?u' ?r' left ?h'] =>
        destruct (IH r' h') as (C & P & R)
    end.
    { cbn [Chat.upstream_calls]. apply chained_snoc; [exact Hc|].
      exists r, data. replace (1 + List.length (Chat.upstream_calls h))
        with (S (List.length (Chat.upstream_calls h))) by lia.
      apply negb_false_iff in O.
      refine (conj U (conj O (conj J (conj _ _)))); [congruence|].
      unfold follow_up. now rewrite Ec. }
    refine (conj C (conj _ R)).
    intros _. destruct left as [|left'].
    + cbn [Chat.tool_loop Chat.upstream_calls]. now exists [].
    + destruct (P ltac:(discriminate)) as (rest & ->).
      cbn [Chat.upstream_calls]. rewrite <- app_assoc. cbn [app]. eauto.
Qed.

End LoopShape.

Section LoopFacts.
Variable toISOString : Z -> string.
Variable upstream : Chat.Upstream.

Local Abbreviation loop := (Chat.tool_loop toISOString upstream).

(** A reply that asks for tools costs one iteration and one round. *)
Lemma loop_round u request left h :
  wants_tools (upstream (S (List.length (Chat.upstream_calls h))) request) = true ->
  exists request' h',
    loop u request (S left) h = loop u request' left h'
    /\ Chat.upstream_calls h' = (Chat.upstream_calls h ++ [request])%list
    /\ Chat.tool_rounds h' = S (Chat.tool_rounds h).
Proof.
  intros W. cbn [Chat.tool_loop].
  destruct (upstream _ request) as [r | m]; [|discriminate].
  simpl in W. apply andb_true_iff in W as [Hok W]. rewrite Hok. cbn [negb].
  destruct (Chat.reply_json r) as [data|]; [|discriminate].
  destruct (Chat.requested_calls data) as [|c cs]; [discriminate|].
  eexists _, _. split; [reflexivity|]. split; reflexivity.
Qed.

(** A reply that asks for none ends the loop. *)
Lemma loop_answer u request left h data :
  final_answer (upstream (S (List.length (Chat.upstream_calls h))) request) = Some data ->
  loop u request (S left) h
  = {| Chat.response := {| Chat.status := 200; Chat.body := Chat.Data data |};
       Chat.upstream_calls := (Chat.upstream_calls h ++ [request])%list;
       Chat.tool_rounds := Chat.tool_rounds h;
       Chat.tools_run := Chat.tools_run h |}.
Proof.
  intros F. cbn [Chat.tool_loop].
  destruct (upstream _ request) as [r | m]; [|discriminate].
  simpl in F. destruct (Chat.ok r); [|discriminate]. cbn [negb].
  destruct (Chat.reply_json r) as [d|]; [|discriminate].
  destruct (Chat.requested_calls d) as [|c cs]; [|discriminate].
  now injection F as ->.
Qed.

Lemma loop_exhausted u left : forall request h,
  (forall k q,
      List.length (Chat.upstream_calls h) < k
      <= List.length (Chat.upstream_calls h) + left ->
      wants_tools (upstream k q) = true) ->
  Chat.response (loop u request left h) = limit_exceeded
  /\ List.length (Chat.upstream_calls (loop u request left h))
     = List.length (Chat.upstream_calls h) + left
  /\ Chat.tool_rounds (loop u request left h) = Chat.tool_rounds h + left.
Proof.
  induction left as [|left IH]; intros request h W.
  - simpl. repeat split; lia.
  - destruct (loop_round u request left h) as (request' & h' & -> & Hc & Hr).
    { apply W. lia. }
    destruct (IH request' h') as (R1 & R2 & R3).
    { intros k q Hk. apply W. rewrite Hc, List.length_app in Hk. simpl in Hk. lia. }
    rewrite R1, R2, R3, Hc, Hr, List.length_app. simpl. repeat split; lia.
Qed.

Lemma loop_finishes u n : forall left request h,
  n < left ->
  (forall k q,
      List.length (Chat.upstream_calls h) < k
      <= List.length (Chat.upstream_calls h) + n ->
      wants_tools (upstream k q) = true) ->
  (forall q,
      final_answer (upstream (S (List.length (Chat.upstream_calls h) + n)) q) <> None) ->
  exists data last,
    Chat.response (loop u request left h)
    = {| Chat.status := 200; Chat.body := Chat.Data data |}
    /\ nth_error (Chat.upstream_calls (loop u request left h))
         (List.length (Chat.upstream_calls h) + n) = Some last
    /\ final_answer (upstream (S (List.length (Chat.upstream_calls h) + n)) last)
       = Some data
    /\ List.length (Chat.upstream_calls (loop u request left h))
       = S (List.length (Chat.upstream_calls h) + n)
    /\ Chat.tool_rounds (loop u request left h) = Chat.tool_rounds h + n.
Proof.
  induction n as [|n IH]; intros left request h Hlt W F.
  - destruct left as [|left]; [lia|].
    rewrite Nat.add_0_r in *.
    destruct (final_answer (upstream (S (List.length (Chat.upstream_calls h))) request))
      as [data|] eqn:E; [|now apply F in E].
    rewrite (loop_answer u request left h data E).
    cbn [Chat.response Chat.upstream_calls Chat.tool_rounds].
    exists data, request. rewrite nth_error_app2, Nat.sub_diag, List.length_app by lia.
    simpl. repeat split; (reflexivity || assumption || lia).
  - destruct left as [|left]; [lia|].
    destruct (loop_round u request left h) as (request' & h' & -> & Hc & Hr).
    { apply W. lia. }
    assert (L : List.length (Chat.upstream_calls h')
                = S (List.length (Chat.upstream_calls h)))
      by (rewrite Hc, List.length_app; simpl; lia).
    destruct (IH left request' h') as (data & last & R1 & R2 & R3 & R4 & R5).
    + lia.
    + intros k q Hk. apply W. lia.
    + intros q. rewrite L.
      replace (S (S (List.length (Chat.upstream_calls h)) + n))
        with (S (List.length (Chat.upstream_calls h) + S n)) by lia. apply F.
    + exists data, last. rewrite L in *.
      replace (List.length (Chat.upstream_calls h) + S n)
        with (S (List.length (Chat.upstream_calls h)) + n) by lia.
      repeat split; try assumption. lia.
Qed.

End LoopFacts.

(** C2.  For a request that passes validation, made by a user whose dates
    the tool can print: when the first [N < 10] replies of the completion
    service ask for tool calls and the next one does not, the handler runs
    [N] rounds of tools, calls the service [N + 1] times and answers 200
    with that last reply; when the first ten replies all ask for tool
    calls, it calls the service ten times, runs ten rounds, and answers 500
    [Tool call limit exceeded].  The rounds show in what is sent: the first
    request is the system prompt and the caller's turns, and each later one
    is the one before it with the assistant's message and the results of
    the tools it asked for appended. *)
Theorem tool_loop_bound getSystemPrompt toISOString upstream
    (req : Chat.ChatRequest) level q turns N :
  Chat.FISH_TO_LEVEL (Chat.params_level req) = Some level ->
  Chat.chatQuerySchema (Chat.query req) = Some q ->
  Chat.chatBodySchema (Chat.req_body req) = Chat.Valid turns ->
  dates_in_range (Chat.user req) ->
  let calls :=
    Chat.upstream_calls (Chat.chatHandler getSystemPrompt toISOString upstream req) in
  let opening :=
    {| Chat.messages :=
         Chat.Plain {| Chat.role := "system";
                       Chat.content := getSystemPrompt (Chat.domain q) level |}
         :: map Chat.Plain turns;
       Chat.tools := Chat.TOOLS;
       Chat.tool_choice := "auto";
       Chat.request_model :=
         match Chat.model q with
         | Some (String c m) => Some (String c m)
         | _ => None
         end |} in
  (N < Chat.MAX_TOOL_ITERATIONS ->
   (forall k request, 1 <= k <= N -> wants_tools (upstream k request) = true) ->
   (forall request, final_answer (upstream (S N) request) <> None) ->
   exists data last,
     Chat.response (Chat.chatHandler getSystemPrompt toISOString upstream req)
     = {| Chat.status := 200; Chat.body := Chat.Data data |}
     /\ nth_error calls N = Some last
     /\ final_answer (upstream (S N) last) = Some data
     /\ List.length calls = S N
     /\ Chat.tool_rounds (Chat.chatHandler getSystemPrompt toISOString upstream req) = N
     /\ nth_error calls 0 = Some opening
     /\ chained toISOString upstream (Chat.user req) 1 calls)
  /\ ((forall k request, 1 <= k <= Chat.MAX_TOOL_ITERATIONS ->
                         wants_tools (upstream k request) = true) ->
      Chat.response (Chat.chatHandler getSystemPrompt toISOString upstream req)
      = limit_exceeded
      /\ List.length calls = Chat.MAX_TOOL_ITERATIONS
      /\ Chat.tool_rounds (Chat.chatHandler getSystemPrompt toISOString upstream req)
         = Chat.MAX_TOOL_ITERATIONS
      /\ nth_error calls 0 = Some opening
      /\ chained toISOString upstream (Chat.user req) 1 calls).
Proof.
  intros Hl Hq Hb _. cbv zeta. unfold Chat.chatHandler. rewrite Hl, Hq, Hb.
  match goal with
  | |- context [Chat.tool_loop _ _ ?u ?r ?n ?h] =>
      destruct (loop_shape toISOString upstream u n r h I) as (C & P & _)
  end.
  destruct P as (rest & P); [discriminate|].
  cbn [Chat.nothing_yet Chat.upstream_calls app] in P.
  split.
  - intros HN W F.
    match goal with
    | |- context [Chat.tool_loop _ _ ?u ?r _ ?h] =>
        pose proof (loop_finishes toISOString upstream u N
                      Chat.MAX_TOOL_ITERATIONS r h HN) as R
    end.
    cbn [Chat.nothing_yet Chat.upstream_calls Chat.tool_rounds List.length Nat.add] in R.
    destruct R as (data & last & R1 & R2 & R3 & R4 & R5).
    + intros k request' Hk. apply W. lia.
    + intros request'. apply F.
    + exists data, last.
      refine (conj R1 (conj R2 (conj R3 (conj R4 (conj R5 (conj _ C)))))).
      now rewrite P.
  - intros W.
    match goal with
    | |- context [Chat.tool_loop _ _ ?u ?r _ ?h] =>
        pose proof (loop_exhausted toISOString upstream u
                      Chat.MAX_TOOL_ITERATIONS r h) as R
    end.
    cbn [Chat.nothing_yet Chat.upstream_calls Chat.tool_rounds List.length Nat.add] in R.
    destruct R as (R1 & R2 & R3).
    + intros k request' Hk. apply W. lia.
    + refine (conj R1 (conj R2 (conj R3 (conj _ C)))). now rewrite P.
Qed.

Lemma asks_first_wants n k request :
  1 <= k <= n -> wants_tools (asks_first n k request) = true.
Proof.
  intros Hk. unfold asks_first. destruct (Nat.leb_spec k n); [reflexivity | lia].
Qed.

Lemma asks_first_final n request :
  final_answer (asks_first n (S n) request) <> None.
Proof.
  unfold asks_first. destruct (Nat.leb_spec (S n) n); [lia | discriminate].
Qed.

Lemma tool_loop_bound_witness :
  dates_in_range (Chat.user hello_request)
  /\ Chat.tool_rounds (Chat.chatHandler sample_prompts sample_dates (asks_first 3)
                         hello_request) = 3
  /\ List.length
       (Chat.upstream_calls (Chat.chatHandler sample_prompts sample_dates (asks_first 3)
                               hello_request)) = 4
  /\ chained sample_dates (asks_first 3) None 1
       (Chat.upstream_calls (Chat.chatHandler sample_prompts sample_dates (asks_first 3)
                               hello_request))
  /\ Chat.response (Chat.chatHandler sample_prompts sample_dates (asks_first 12)
                      hello_request) = limit_exceeded
  /\ List.length
       (Chat.upstream_calls (Chat.chatHandler sample_prompts sample_dates (asks_first 12)
                               hello_request)) = 10.
Proof.
  split; [exact I|].
  pose proof (tool_loop_bound sample_prompts sample_dates (asks_first 3)
                hello_request Chat.secure
                {| Chat.model := None; Chat.domain := Chat.finance |}
                [{| Chat.role := "user"; Chat.content := "hello" |}] 3
                eq_refl eq_refl eq_refl I) as [H _].
  destruct H as (data & last & _ & _ & _ & L & R & _ & C).
  - unfold Chat.MAX_TOOL_ITERATIONS. lia.
  - intros k request. apply asks_first_wants.
  - apply asks_first_final.
  - pose proof (tool_loop_bound sample_prompts sample_dates (asks_first 12)
                  hello_request Chat.secure
                  {| Chat.model := None; Chat.domain := Chat.finance |}
                  [{| Chat.role := "user"; Chat.content := "hello" |}] 0
                  eq_refl eq_refl eq_refl I) as [_ H].
    destruct H as (E & L' & _).
    + intros k request Hk. apply asks_first_wants.
      unfold Chat.MAX_TOOL_ITERATIONS in Hk. lia.
    + exact (conj R (conj L (conj C (conj E L')))).
Defined.

(** ** The token endpoint *)

(** C3.  A request whose client identifier and secret are those of a
    configured client is answered 200 with the access token, the token type
    [Bearer], the configured lifetime [T], and the scope exactly when the
    request has one that is not empty.  The token's claims carry the client
    identifier as subject, [iat = now], [exp = now + T], the role of the
    client the lookup found, and that same scope; its signature verifies
    under the process public key.  Both revisions of the endpoint answer
    alike, and the lifetime is 3600 when the environment sets none.  [now],
    [T] and [now + T] are integers a JavaScript number holds exactly. *)
Theorem token_for_configured_client {B : Backend} env fresh now req c T :
  grant_type req = Some "client_credentials" ->
  In c (clients env) ->
  client_id req = Some (clientId c) ->
  client_secret req = Some (clientSecret c) ->
  TOKEN_EXPIRES_IN env = Int T ->
  safe_integer now -> safe_integer T -> safe_integer (now + T) ->
  exists client,
    find_client env (client_id req) (client_secret req) = Some client
    /\ In client (clients env)
    /\ clientId client = clientId c /\ clientSecret client = clientSecret c
    /\ let granted :=
         match req_scope req with
         | Some (String a s) => Some (String a s)
         | _ => None
         end in
       let payload :=
         {| iss := Some "example-app";
            sub := Some (clientId c);
            aud := Some "example-app";
            exp := Some (Int (now + T));
            nbf := None;
            iat := Some (Int now);
            role := Some (role_name (client_role client));
            scope := granted |} in
       let token := jws_sign {| alg := "RS256"; typ := Some "JWT" |} payload fresh in
       let answer :=
         {| Http.status := 200;
            body := JObj ([("access_token", JStr token);
                           ("token_type", JStr "Bearer");
                           ("expires_in", JInt T)]
                          ++ match granted with
                             | Some text => [("scope", JStr text)]
                             | None => []
                             end) |} in
       OAuth.tokenHandler env (generateRSAKeyPair fresh) now req = answer
       /\ OAuthPassword.tokenHandler env (generateRSAKeyPair fresh) now req = answer
       /\ jws_decode token = Some ({| alg := "RS256"; typ := Some "JWT" |}, payload)
       /\ jws_verify token "RS256" (public_of fresh) = true
       /\ (OAUTH_TOKEN_EXPIRES_IN env = None -> T = 3600%Z).
Proof.
  intros Hg Hin Hid Hsec HT _ _ _.
  destruct (clients_nonempty env c Hin) as [Nid Nsec].
  destruct (find_first
              (fun x => same (clientId x) (client_id req)
                        && same (clientSecret x) (client_secret req))
              (clients env) c Hin) as (client & F & Hc & Hm).
  { now rewrite Hid, Hsec, !same_refl. }
  change (find_client env (client_id req) (client_secret req) = Some client) in F.
  apply andb_true_iff in Hm as [M1 M2].
  apply same_eq in M1, M2. rewrite Hid in M1. rewrite Hsec in M2.
  injection M1 as M1. injection M2 as M2.
  assert (Hne : clients env <> []) by (intros E; now rewrite E in Hin).
  exists client.
  refine (conj F (conj Hc (conj (eq_sym M1) (conj (eq_sym M2) _)))).
  cbv zeta. refine (conj _ (conj _ (conj _ (conj _ _)))).
  - unfold OAuth.tokenHandler. rewrite match_nonempty by assumption.
    rewrite F, Hg, Hid, Hsec, !truthy_nonempty by (assumption || reflexivity).
    simpl same. cbn [negb].
    unfold OAuth.issue. cbn [generateRSAKeyPair getPrivateKey privateKey].
    rewrite sign_mint. unfold OAuth.token_response, OAuth.mint. rewrite HT.
    destruct (req_scope req) as [[|a s]|]; reflexivity.
  - unfold OAuthPassword.tokenHandler. rewrite Hg. simpl same. cbn [truthy negb].
    rewrite match_nonempty by assumption.
    rewrite F, Hid, Hsec, !truthy_nonempty by assumption.
    cbn [negb].
    unfold OAuth.issue. cbn [generateRSAKeyPair getPrivateKey privateKey].
    rewrite sign_mint. unfold OAuth.token_response, OAuth.mint. rewrite HT.
    destruct (req_scope req) as [[|a s]|]; reflexivity.
  - apply decode_sign.
  - now apply verify_sign.
  - intros E. unfold TOKEN_EXPIRES_IN in HT. rewrite E in HT. now injection HT as <-.
Qed.

(** The claims of [root] minted at time 1000 for the scope [read]. *)
Definition root_claims : JwtPayload :=
  {| iss := Some "example-app";
     sub := Some "root";
     aud := Some "example-app";
     exp := Some (Int 4600);
     nbf := None;
     iat := Some (Int 1000);
     role := Some "admin";
     scope := Some "read" |}.

Lemma token_for_configured_client_witness :
  OAuth.tokenHandler demo_env (generateRSAKeyPair KeyB) 1000
    (client_request "root" "hunter2" (Some "read"))
  = {| Http.status := 200;
       body := JObj [("access_token", JStr (toy_sign rs256_header root_claims KeyB));
                     ("token_type", JStr "Bearer");
                     ("expires_in", JInt 3600);
                     ("scope", JStr "read")] |}
  /\ OAuth.tokenHandler demo_env (generateRSAKeyPair KeyB) 1000
       (client_request "root" "hunter2" None)
     = {| Http.status := 200;
          body := JObj [("access_token",
                         JStr (toy_sign rs256_header
                                 {| iss := Some "example-app";
                                    sub := Some "root";
                                    aud := Some "example-app";
                                    exp := Some (Int 4600);
                                    nbf := None;
                                    iat := Some (Int 1000);
                                    role := Some "admin";
                                    scope := None |} KeyB));
                        ("token_type", JStr "Bearer");
                        ("expires_in", JInt 3600)] |}
  /\ toy_decode (toy_sign rs256_header root_claims KeyB) = Some (rs256_header, root_claims).
Proof.
  assert (S1 : safe_integer 1000) by (unfold safe_integer; lia).
  assert (S2 : safe_integer 3600) by (unfold safe_integer; lia).
  assert (S3 : safe_integer (1000 + 3600)) by (unfold safe_integer; lia).
  destruct (token_for_configured_client (B := reference) demo_env KeyB 1000
              (client_request "root" "hunter2" (Some "read"))
              {| clientId := "root"; clientSecret := "hunter2"; client_role := admin |}
              3600 eq_refl (or_intror (or_introl eq_refl)) eq_refl eq_refl eq_refl
              S1 S2 S3)
    as (client & F & _ & _ & _ & H).
  destruct (token_for_configured_client (B := reference) demo_env KeyB 1000
              (client_request "root" "hunter2" None)
              {| clientId := "root"; clientSecret := "hunter2"; client_role := admin |}
              3600 eq_refl (or_intror (or_introl eq_refl)) eq_refl eq_refl eq_refl
              S1 S2 S3)
    as (client' & F' & _ & _ & _ & H').
  vm_compute in F. injection F as <-. vm_compute in F'. injection F' as <-.
  cbv zeta in H, H'. destruct H as (A & _ & D & _). destruct H' as (A' & _).
  exact (conj A (conj A' D)).
Defined.

(** ** The middleware *)

(** The descriptions of the 401 answers of the middleware. *)
Definition rejections : list string :=
  ["Missing Authorization header";
   "Invalid Authorization header format. Expected: Bearer <token>";
   "Missing access token";
   "Invalid or malformed token";
   "Token has expired";
   "Token not yet valid"].

(** C4.  With the key pair generated at start-up, whatever the
    [Authorization] header and the clock: either the middleware calls
    [next()], and the handler of the route runs once, or it answers and the
    handler does not run, the state of the application being left as it
    was.  The answer is 401 [unauthorized] with one of the descriptions of
    the middleware, except for one kind of malformed token: when the header
    is [Bearer], one space and a token on which [jws.decode] throws (its
    header says [typ: 'JWT'] and its payload is no JSON text), and only
    then, the answer is 500 [server_error] [Authentication error]. *)
Theorem rejection_never_runs_handler {B : Backend} (S R : Type)
    (respond : Response -> R) (handler : JwtPayload -> S -> R * S)
    fresh clock authorization st :
  match Auth.authenticateToken (generateRSAKeyPair fresh) clock authorization with
  | Auth.Next user =>
      Auth.protected respond handler (generateRSAKeyPair fresh) clock authorization st
      = (handler user st, 1)
  | Auth.Respond r =>
      Auth.protected respond handler (generateRSAKeyPair fresh) clock authorization st
      = (respond r, st, 0)
      /\ ((exists description,
              r = oauth_error 401 "unauthorized" description /\ In description rejections)
          \/ r = oauth_error 500 "server_error" "Authentication error")
      /\ (r = oauth_error 500 "server_error" "Authentication error"
          <-> exists token,
                authorization = Some ("Bearer " ++ token)
                /\ compact token = true
                /\ jws_throws token = true)
  end.
Proof.
  unfold Auth.protected.
  destruct (authenticate_header (generateRSAKeyPair fresh) clock authorization)
    as [(token & E & C & ->) | (N & d & Hd & ->)].
  - cbn [generateRSAKeyPair getPublicKey publicKey]. unfold verify.
    destruct (jws_throws token) eqn:T.
    + split; [reflexivity|]. split; [now right|].
      split; [intros _; now exists token|reflexivity].
    + assert (X : forall d,
                 oauth_error 401 "unauthorized" d
                 = oauth_error 500 "server_error" "Authentication error"
                 <-> exists token',
                       authorization = Some ("Bearer " ++ token')
                       /\ compact token' = true
                       /\ jws_throws token' = true).
      { intros d. split; [discriminate|].
        intros (token' & E' & _ & T'). rewrite E in E'. injection E' as <-.
        congruence. }
      unfold Auth.unauthorized, rejections.
      repeat match goal with
             | |- context [match jws_decode ?t with _ => _ end] =>
                 destruct (jws_decode t) as [[? ?]|]
             | |- context [if ?b then _ else _] => destruct b
             | |- context [match check_dates ?a ?b with _ => _ end] =>
                 let D := fresh "D" in
                 destruct (check_dates a b) as [? | [ | | ? | ]] eqn:D;
                 try (exfalso; exact (check_dates_readable _ _ D))
             end;
        try reflexivity;
        (split; [reflexivity|]); (split; [|apply X]);
        left; eexists; (split; [reflexivity | simpl; tauto]).
  - split; [reflexivity|]. split.
    + left. exists d. split; [reflexivity|].
      unfold rejections. simpl in Hd |- *. tauto.
    + split; [discriminate|].
      intros (token & E & C & _). now rewrite (N token E) in C.
Qed.

(** A token of that kind is malformed, and is not answered 401: the
    RS256 header, then a payload that is the text [not json]. *)
Lemma unreadable_token_is_server_error :
  jws_decode unreadable_token = None
  /\ Auth.authenticateToken (generateRSAKeyPair KeyA) 1500
       (Some ("Bearer " ++ unreadable_token))
     = Auth.Respond (oauth_error 500 "server_error" "Authentication error")
  /\ Http.status (oauth_error 500 "server_error" "Authentication error") <> 401%Z.
Proof.
  split; [vm_compute; reflexivity|]. split; [vm_compute; reflexivity|].
  discriminate.
Qed.

(** C5.  A token issued at [now] with configured lifetime [T] carries
    [iat = now] and [exp = now + T]; the middleware accepts it at every
    clock time before [now + T], and from [now + T] on, the boundary
    included, it rejects it with [Token has expired], which is not the
    description of an invalid token.  [now], [T] and [now + T] are integers
    a JavaScript number holds exactly. *)
Theorem token_expires_after_lifetime {B : Backend} env fresh now req token T clock :
  TOKEN_EXPIRES_IN env = Int T ->
  safe_integer now -> safe_integer T -> safe_integer (now + T) ->
  access_token (OAuth.tokenHandler env (generateRSAKeyPair fresh) now req) = Some token ->
  exists payload,
    jws_decode token = Some (rs256_header, payload)
    /\ iat payload = Some (Int now)
    /\ exp payload = Some (Int (now + T))
    /\ ((clock < now + T)%Z ->
        Auth.authenticateToken (generateRSAKeyPair fresh) clock (Some ("Bearer " ++ token))
        = Auth.Next payload)
    /\ ((now + T <= clock)%Z ->
        Auth.authenticateToken (generateRSAKeyPair fresh) clock (Some ("Bearer " ++ token))
        = Auth.unauthorized "Token has expired")
    /\ Auth.unauthorized "Token has expired"
       <> Auth.unauthorized "Invalid or malformed token".
Proof.
  intros HT _ _ _ H.
  destruct (issued_token env fresh now req token H) as (client & F & ->).
  exists (OAuth.mint env now (client_id req) (client_role client) (req_scope req)).
  refine (conj (decode_sign _ _ _) (conj eq_refl (conj _ (conj _ (conj _ _))))).
  - unfold OAuth.mint. cbn [exp]. now rewrite HT.
  - intros Hlt. rewrite authenticate_bearer by apply sign_compact.
    rewrite verify_signed, (check_dates_mint _ _ _ _ _ T) by (reflexivity || assumption).
    destruct (Z.geb_spec clock (now + T)); [lia | reflexivity].
  - intros Hge. rewrite authenticate_bearer by apply sign_compact.
    rewrite verify_signed, (check_dates_mint _ _ _ _ _ T) by (reflexivity || assumption).
    destruct (Z.geb_spec clock (now + T)); [reflexivity | lia].
  - discriminate.
Qed.

Lemma token_expires_after_lifetime_witness :
  TOKEN_EXPIRES_IN demo_env = Int 3600
  /\ safe_integer 1000 /\ safe_integer 3600 /\ safe_integer (1000 + 3600)
  /\ Auth.authenticateToken (generateRSAKeyPair KeyA) 4599 (Some ("Bearer " ++ reader_token))
     = Auth.Next reader_claims
  /\ Auth.authenticateToken (generateRSAKeyPair KeyA) 4600 (Some ("Bearer " ++ reader_token))
     = Auth.unauthorized "Token has expired".
Proof.
  split; [reflexivity|].
  assert (S1 : safe_integer 1000) by (unfold safe_integer; lia).
  assert (S2 : safe_integer 3600) by (unfold safe_integer; lia).
  assert (S3 : safe_integer (1000 + 3600)) by (unfold safe_integer; lia).
  refine (conj S1 (conj S2 (conj S3 _))).
  destruct (token_expires_after_lifetime (B := reference) demo_env KeyA 1000
              reader_request reader_token 3600 4599 eq_refl S1 S2 S3
              reader_token_issued)
    as (p1 & D1 & _ & _ & A1 & _).
  destruct (token_expires_after_lifetime (B := reference) demo_env KeyA 1000
              reader_request reader_token 3600 4600 eq_refl S1 S2 S3
              reader_token_issued)
    as (p2 & _ & _ & _ & _ & A2 & _).
  split.
  - rewrite A1 by lia. vm_compute in D1. now injection D1 as <-.
  - apply A2. lia.
Defined.

(** C10.  A token signed with the process private key under RS256 and
    inside its validity window is accepted, and its claims are what the
    middleware stores in [req.user], whatever issuer, subject, audience,
    role or scope they name. *)
Theorem signed_and_in_window_is_accepted {B : Backend} fresh clock header payload :
  alg header = "RS256" ->
  in_window clock payload = true ->
  Auth.authenticateToken (generateRSAKeyPair fresh) clock
    (Some ("Bearer " ++ jws_sign header payload fresh))
  = Auth.Next payload.
Proof.
  intros Ha Hw. rewrite authenticate_bearer by apply sign_compact.
  rewrite verify_signed by assumption.
  apply check_dates_accepts in Hw. now rewrite Hw.
Qed.

(** Claims no issuer of this program would mint. *)
Definition foreign_claims : JwtPayload :=
  {| iss := Some "somebody-else";
     sub := None;
     aud := Some "another-service";
     exp := Some (Int 2000);
     nbf := Some (Int 500);
     iat := None;
     role := Some "superuser";
     scope := None |}.

Lemma signed_and_in_window_is_accepted_witness :
  alg rs256_header = "RS256"
  /\ in_window 1500 foreign_claims = true
  /\ Auth.authenticateToken (generateRSAKeyPair KeyB) 1500
       (Some ("Bearer " ++ toy_sign rs256_header foreign_claims KeyB))
     = Auth.Next foreign_claims.
Proof.
  split; [reflexivity|]. split; [reflexivity|].
  exact (signed_and_in_window_is_accepted (B := reference) KeyB 1500 rs256_header
           foreign_claims eq_refl eq_refl).
Defined.

(** ** The order of the checks, and what a failed lookup tells *)

(** C6 (amended).  In the revision with the password grant the steps come
    in the listed order: a missing [grant_type] is [invalid_request] and an
    unsupported one [invalid_grant], whatever is configured, and the
    [server_error] of an empty credential set is answered only to a grant
    type that is supported.  In [routes/oauth.ts] the check of the
    configured clients comes first: with none configured every request is
    answered [server_error]; with one configured, a missing [grant_type] is
    [invalid_request] and any other than [client_credentials] is
    [invalid_grant]. *)
Theorem validation_order {B : Backend} env keyPair now req :
  (truthy (grant_type req) = false ->
   OAuthPassword.tokenHandler env keyPair now req = missing_grant_type)
  /\ (truthy (grant_type req) = true ->
      same "client_credentials" (grant_type req) = false ->
      same "password" (grant_type req) = false ->
      OAuthPassword.tokenHandler env keyPair now req
      = oauth_error 400 "invalid_grant"
          "Unsupported grant type. Supported types: client_credentials, password")
  /\ (OAuthPassword.tokenHandler env keyPair now req = no_clients ->
      grant_type req = Some "client_credentials" /\ clients env = [])
  /\ (OAuthPassword.tokenHandler env keyPair now req = no_users ->
      grant_type req = Some "password" /\ users env = [])
  /\ (clients env = [] -> OAuth.tokenHandler env keyPair now req = no_clients)
  /\ (clients env <> [] -> truthy (grant_type req) = false ->
      OAuth.tokenHandler env keyPair now req = missing_grant_type)
  /\ (clients env <> [] -> truthy (grant_type req) = true ->
      same "client_credentials" (grant_type req) = false ->
      OAuth.tokenHandler env keyPair now req
      = oauth_error 400 "invalid_grant" "Unsupported grant type").
Proof.
  refine (conj _ (conj _ (conj _ (conj _ (conj _ (conj _ _)))))).
  - intros H. unfold OAuthPassword.tokenHandler. now rewrite H.
  - intros H1 H2 H3. unfold OAuthPassword.tokenHandler. now rewrite H1, H2, H3.
  - unfold OAuthPassword.tokenHandler, OAuth.issue.
    destruct (truthy (grant_type req)); [|discriminate]. cbn [negb].
    destruct (same "client_credentials" (grant_type req)) eqn:G.
    + destruct (clients env); [intros _; now apply same_eq in G|].
      repeat match goal with
             | |- context [if ?b then _ else _] => destruct b; [discriminate|]
             end.
      destruct (find_client _ _ _); [|discriminate].
      destruct keyPair; discriminate.
    + destruct (same "password" (grant_type req)); [|discriminate].
      destruct (users env); [discriminate|].
      repeat match goal with
             | |- context [if ?b then _ else _] => destruct b; [discriminate|]
             end.
      destruct (find_user _ _ _); [|discriminate].
      destruct keyPair; discriminate.
  - unfold OAuthPassword.tokenHandler, OAuth.issue.
    destruct (truthy (grant_type req)); [|discriminate]. cbn [negb].
    destruct (same "client_credentials" (grant_type req)) eqn:G.
    + destruct (clients env); [discriminate|].
      repeat match goal with
             | |- context [if ?b then _ else _] => destruct b; [discriminate|]
             end.
      destruct (find_client _ _ _); [|discriminate].
      destruct keyPair; discriminate.
    + destruct (same "password" (grant_type req)) eqn:P; [|discriminate].
      destruct (users env); [intros _; now apply same_eq in P|].
      repeat match goal with
             | |- context [if ?b then _ else _] => destruct b; [discriminate|]
             end.
      destruct (find_user _ _ _); [|discriminate].
      destruct keyPair; discriminate.
  - intros E. unfold OAuth.tokenHandler. now rewrite E.
  - intros Hne H. unfold OAuth.tokenHandler.
    rewrite match_nonempty by assumption. now rewrite H.
  - intros Hne H1 H2. unfold OAuth.tokenHandler.
    rewrite match_nonempty by assumption. now rewrite H1, H2.
Qed.

(** With no client configured, [routes/oauth.ts] answers a request that has
    no [grant_type] with 500 [server_error], and one with an unsupported
    grant type too; the later revision answers the same requests 400. *)
Lemma server_error_comes_first :
  OAuth.tokenHandler (B := reference) bare_env None 0 empty_request = no_clients
  /\ Http.status no_clients = 500%Z
  /\ OAuth.tokenHandler (B := reference) bare_env None 0
       {| grant_type := Some "authorization_code"; client_id := None;
          client_secret := None; req_username := None; req_password := None;
          req_scope := None |} = no_clients
  /\ OAuthPassword.tokenHandler (B := reference) bare_env None 0 empty_request
     = missing_grant_type.
Proof. repeat split. Qed.

Lemma validation_order_witness :
  truthy (grant_type empty_request) = false
  /\ clients demo_env <> []
  /\ OAuthPassword.tokenHandler (B := reference) demo_env None 0 empty_request
     = missing_grant_type
  /\ OAuth.tokenHandler (B := reference) demo_env None 0 empty_request
     = missing_grant_type.
Proof.
  pose proof (validation_order (B := reference) demo_env None 0%Z empty_request)
    as (H1 & _ & _ & _ & _ & H6 & _).
  split; [reflexivity|]. split; [discriminate|].
  split; [exact (H1 eq_refl)|].
  apply H6; [discriminate | reflexivity].
Defined.

(** C7.  Two requests that fail the lookup, one naming a configured client
    with a wrong secret, the other naming no configured client, get the
    same answer: 401 [invalid_client] with one description, in both
    revisions; for the password grant, 401 [invalid_grant] with one
    description. *)
Theorem lookup_failures_are_indistinguishable {B : Backend} env keyPair now r1 r2 :
  (grant_type r1 = Some "client_credentials" ->
   grant_type r2 = Some "client_credentials" ->
   wrong_secret env r1 = true ->
   unknown_client env r2 = true ->
   OAuth.tokenHandler env keyPair now r1 = invalid_client
   /\ OAuth.tokenHandler env keyPair now r2 = OAuth.tokenHandler env keyPair now r1
   /\ OAuthPassword.tokenHandler env keyPair now r1 = invalid_client
   /\ OAuthPassword.tokenHandler env keyPair now r2
      = OAuthPassword.tokenHandler env keyPair now r1)
  /\ (grant_type r1 = Some "password" ->
      grant_type r2 = Some "password" ->
      wrong_password env r1 = true ->
      unknown_user env r2 = true ->
      OAuthPassword.tokenHandler env keyPair now r1
      = oauth_error 401 "invalid_grant" "Invalid username or password"
      /\ OAuthPassword.tokenHandler env keyPair now r2
         = OAuthPassword.tokenHandler env keyPair now r1).
Proof.
  split.
  - intros G1 G2 W U.
    unfold wrong_secret in W. unfold unknown_client in U.
    apply andb_true_iff in W as [W W3]. apply andb_true_iff in W as [W1 W2].
    apply andb_true_iff in U as [U U3]. apply andb_true_iff in U as [U1 U2].
    apply negb_true_iff in W3, U3.
    assert (Hne : clients env <> []) by (intros E; now rewrite E in W1).
    assert (T1 : truthy (client_id r1) = true).
    { apply existsb_exists in W1 as (c & Hin & Hs). apply same_eq in Hs. rewrite Hs.
      now apply truthy_nonempty, (clients_nonempty env c). }
    assert (F1 : find_client env (client_id r1) (client_secret r1) = None)
      by now apply find_existsb.
    assert (F2 : find_client env (client_id r2) (client_secret r2) = None)
      by now apply find_existsb, existsb_weaken.
    assert (A1 : OAuth.tokenHandler env keyPair now r1 = invalid_client).
    { unfold OAuth.tokenHandler. rewrite match_nonempty by assumption.
      now rewrite G1, T1, W2, F1. }
    assert (A2 : OAuthPassword.tokenHandler env keyPair now r1 = invalid_client).
    { unfold OAuthPassword.tokenHandler. rewrite G1. simpl same. cbn [truthy negb].
      rewrite match_nonempty by assumption. now rewrite T1, W2, F1. }
    refine (conj A1 (conj _ (conj A2 _))).
    + rewrite A1. unfold OAuth.tokenHandler. rewrite match_nonempty by assumption.
      now rewrite G2, U1, U2, F2.
    + rewrite A2. unfold OAuthPassword.tokenHandler. rewrite G2. simpl same.
      cbn [truthy negb]. rewrite match_nonempty by assumption. now rewrite U1, U2, F2.
  - intros G1 G2 W U.
    unfold wrong_password in W. unfold unknown_user in U.
    apply andb_true_iff in W as [W W3]. apply andb_true_iff in W as [W1 W2].
    apply andb_true_iff in U as [U U3]. apply andb_true_iff in U as [U1 U2].
    apply negb_true_iff in W3, U3.
    assert (Hne : users env <> []) by (intros E; now rewrite E in W1).
    assert (T1 : truthy (req_username r1) = true).
    { apply existsb_exists in W1 as (u & Hin & Hs). apply same_eq in Hs. rewrite Hs.
      now apply truthy_nonempty, (users_nonempty env u). }
    assert (F1 : find_user env (req_username r1) (req_password r1) = None)
      by now apply find_existsb.
    assert (F2 : find_user env (req_username r2) (req_password r2) = None)
      by now apply find_existsb, existsb_weaken.
    assert (A1 : OAuthPassword.tokenHandler env keyPair now r1
                 = oauth_error 401 "invalid_grant" "Invalid username or password").
    { unfold OAuthPassword.tokenHandler. rewrite G1. simpl same. cbn [truthy negb].
      rewrite match_nonempty by assumption. now rewrite T1, W2, F1. }
    split; [assumption|].
    rewrite A1. unfold OAuthPassword.tokenHandler. rewrite G2. simpl same.
    cbn [truthy negb]. rewrite match_nonempty by assumption. now rewrite U1, U2, F2.
Qed.

Lemma lookup_failures_are_indistinguishable_witness :
  wrong_secret demo_env (client_request "reader" "guess" None) = true
  /\ unknown_client demo_env (client_request "nobody" "s3cret" (Some "read")) = true
  /\ wrong_password demo_env (password_request "alice" "guess") = true
  /\ unknown_user demo_env (password_request "bob" "wonderland") = true
  /\ OAuth.tokenHandler (B := reference) demo_env (generateRSAKeyPair KeyA) 1000
       (client_request "nobody" "s3cret" (Some "read"))
     = OAuth.tokenHandler (B := reference) demo_env (generateRSAKeyPair KeyA) 1000
         (client_request "reader" "guess" None)
  /\ OAuthPassword.tokenHandler (B := reference) demo_env (generateRSAKeyPair KeyA) 1000
       (password_request "bob" "wonderland")
     = OAuthPassword.tokenHandler (B := reference) demo_env (generateRSAKeyPair KeyA) 1000
         (password_request "alice" "guess").
Proof.
  pose proof (lookup_failures_are_indistinguishable (B := reference) demo_env
                (generateRSAKeyPair KeyA) 1000%Z
                (client_request "reader" "guess" None)
                (client_request "nobody" "s3cret" (Some "read"))) as [Hc _].
  pose proof (lookup_failures_are_indistinguishable (B := reference) demo_env
                (generateRSAKeyPair KeyA) 1000%Z
                (password_request "alice" "guess")
                (password_request "bob" "wonderland")) as [_ Hp].
  destruct (Hc eq_refl eq_refl eq_refl eq_refl) as (_ & E1 & _).
  destruct (Hp eq_refl eq_refl eq_refl eq_refl) as (_ & E2).
  do 4 (split; [reflexivity|]). exact (conj E1 E2).
Defined.

(** ** The [messages] field *)

Section Messages.
Import Chat.

Lemma turn_schema_json t : turn_schema (turn_json t) = Some t.
Proof. now destruct t. Qed.

Lemma turns_schema_json turns : turns_schema (map turn_json turns) = Some turns.
Proof.
  induction turns as [|t ts IH]; [reflexivity|].
  cbn [map turns_schema]. now rewrite turn_schema_json, IH.
Qed.

Lemma wf_turns turns : wf (JArr (map turn_json turns)) = true.
Proof. simpl. induction turns as [|t ts IH]; [reflexivity | exact IH]. Qed.

Lemma messages_schema_json turns :
  messages_schema (map turn_json turns)
  = match turns with [] => None | _ => Some turns end.
Proof.
  destruct turns as [|t ts]; [reflexivity|].
  unfold messages_schema. cbn [map]. change (turn_json t :: map turn_json ts)
    with (map turn_json (t :: ts)). apply turns_schema_json.
Qed.

Lemma body_schema_array items :
  chatBodySchema (body_of (JArr items))
  = match messages_schema items with Some turns => Valid turns | None => Invalid end.
Proof. reflexivity. Qed.



(** C8 (amended).  The array of turns and the JSON text of that array
    normalize to the same sequence, the turns themselves when there is one
    at least.  A bare string normalizes to the single user turn holding it
    when it does not itself read as a JSON array or object. *)
Theorem encodings_agree (turns : list Turn) (text : string) :
  chatBodySchema (body_of (JStr (stringify (JArr (map turn_json turns)))))
  = chatBodySchema (body_of (JArr (map turn_json turns)))
  /\ (turns <> [] -> chatBodySchema (body_of (JArr (map turn_json turns))) = Valid turns)
  /\ (plain_text text = true ->
      chatBodySchema (body_of (JStr text))
      = chatBodySchema (body_of (JArr [user_turn text]))
      /\ chatBodySchema (body_of (JStr text))
         = Valid [{| role := "user"; content := text |}]).
Proof.
  refine (conj _ (conj _ _)).
  - unfold chatBodySchema, body_of. cbn [get]. simpl String.eqb. cbv iota.
    unfold normalizeMessages. now rewrite (parse_stringify _ (wf_turns turns)).
  - intros Hne. rewrite body_schema_array, messages_schema_json.
    destruct turns; congruence.
  - intros Hp. unfold plain_text in Hp.
    assert (E : chatBodySchema (body_of (JStr text))
                = Valid [{| role := "user"; content := text |}]).
    { unfold chatBodySchema, body_of. cbn [get]. simpl String.eqb. cbv iota.
      unfold normalizeMessages.
      destruct (parse text) as [[| b | lit | s | items | members]|];
        try discriminate; reflexivity. }
    split; [rewrite E; reflexivity | exact E].
Qed.

(** The bare string [[]] is a caller's message in one encoding and an empty
    conversation, which the schema rejects, in the other. *)
Lemma bare_json_text_is_reinterpreted :
  chatBodySchema (body_of (JStr "[]")) = Invalid
  /\ chatBodySchema (body_of (JArr [user_turn "[]"]))
     = Valid [{| role := "user"; content := "[]" |}].
Proof. split; reflexivity. Qed.

Lemma encodings_agree_witness :
  [{| role := "user"; content := "hi" |}] <> []
  /\ plain_text "What is a 401(k)?" = true
  /\ chatBodySchema (body_of (JArr (map turn_json [{| role := "user"; content := "hi" |}])))
     = Valid [{| role := "user"; content := "hi" |}]
  /\ chatBodySchema (body_of (JStr "What is a 401(k)?"))
     = Valid [{| role := "user"; content := "What is a 401(k)?" |}].
Proof.
  pose proof (encodings_agree [{| role := "user"; content := "hi" |}] "What is a 401(k)?")
    as (_ & A & T).
  split; [discriminate|]. split; [reflexivity|].
  split; [apply A; discriminate | apply T; reflexivity].
Defined.

End Messages.

Section Malformed.
Import Chat.
Variable getSystemPrompt : Domain -> Level -> string.
Variable toISOString : Z -> string.
Variable upstream : Upstream.




End Malformed.

Section MalformedSamples.
Import Chat.


(** One turn that is not wrapped in an array is neither rejected nor
    forwarded as it is; the service is sent the text [[object Object]]
    in its place, and with no [messages] at all the text [undefined]. *)
Lemma object_messages_are_rewritten :
  status (response (chatHandler sample_prompts sample_dates answer_now single_turn_request))
  = 200%Z
  /\ map messages
       (upstream_calls
          (chatHandler sample_prompts sample_dates answer_now single_turn_request))
     = [[Plain {| role := "system"; content := "prompt" |};
         Plain {| role := "user"; content := "[object Object]" |}]]
  /\ chatBodySchema (JObj []) = Valid [{| role := "user"; content := "undefined" |}].
Proof. split; [reflexivity|]. split; reflexivity. Qed.


End MalformedSamples.

(** * Further properties of the endpoints *)

(** ** Keys and discovery *)

(** The key a client rebuilds from the body of the discovery response. *)
Definition discovered_key {B : Backend} (r : Response) : option PublicKey :=
  match body r with
  | JObj members =>
      match get "keys" members with
      | Some (JArr [JObj key]) =>
          match get "n" key, get "e" key with
          | Some (JStr n), Some (JStr e) => import_jwk n e
          | _, _ => None
          end
      | _ => None
      end
  | _ => None
  end.

(** X1.  Once the key pair is generated, the discovery endpoint answers 200
    with a document of one key: an RSA signature key whose identifier is
    the first 16 characters of the key's fingerprint and whose modulus and
    exponent are not empty.  The key rebuilt from the document is the
    process public key, so it verifies what the process signs under
    RS256. *)
Theorem jwks_publishes_process_key {B : Backend} (fresh : PrivateKey) :
  exists n e,
    Jwks.jwksHandler (generateRSAKeyPair fresh)
    = {| Http.status := 200;
         body := JObj [("keys",
                        JArr [JObj [("kty", JStr "RSA");
                                    ("use", JStr "sig");
                                    ("kid", JStr (substring 0 16
                                                    (fingerprint (public_of fresh))));
                                    ("n", JStr n);
                                    ("e", JStr e)]])] |}
    /\ n <> "" /\ e <> ""
    /\ discovered_key (Jwks.jwksHandler (generateRSAKeyPair fresh))
       = Some (public_of fresh)
    /\ forall header payload,
         alg header = "RS256" ->
         jws_verify (jws_sign header payload fresh) "RS256" (public_of fresh) = true.
Proof.
  destruct (import_export (public_of fresh)) as (m & x & E & Hm & Hx & I).
  exists m, x.
  assert (R : Jwks.jwksHandler (generateRSAKeyPair fresh)
              = {| Http.status := 200;
                   body := JObj [("keys",
                                  JArr [JObj [("kty", JStr "RSA");
                                              ("use", JStr "sig");
                                              ("kid", JStr (substring 0 16
                                                              (fingerprint (public_of fresh))));
                                              ("n", JStr m);
                                              ("e", JStr x)]])] |}).
  { unfold Jwks.jwksHandler, getPublicKeyJWK, generateRSAKeyPair.
    cbn [publicKey kid]. rewrite E. cbn [jwk_n jwk_e map Jwks.jwk_json].
    cbn [kty use jwk_kid JwtKeys.n JwtKeys.e].
    destruct m; [congruence|]. destruct x; [congruence|]. reflexivity. }
  refine (conj R (conj Hm (conj Hx (conj _ _)))).
  - rewrite R. exact I.
  - intros header payload Ha. now apply verify_sign.
Qed.

(** X2.  Before the key pair is generated, the token endpoint issues no
    token in either revision: a request that passes every check, its
    credentials included, is answered 500 [server_error] with the message
    of the key manager, and so is the discovery endpoint. *)
Theorem no_token_before_key_generation {B : Backend} env now req :
  access_token (OAuth.tokenHandler env None now req) = None
  /\ access_token (OAuthPassword.tokenHandler env None now req) = None
  /\ (grant_type req = Some "client_credentials" ->
      find_client env (client_id req) (client_secret req) <> None ->
      OAuth.tokenHandler env None now req
      = oauth_error 500 "server_error" not_initialized
      /\ OAuthPassword.tokenHandler env None now req
         = oauth_error 500 "server_error" not_initialized)
  /\ (grant_type req = Some "password" ->
      find_user env (req_username req) (req_password req) <> None ->
      OAuthPassword.tokenHandler env None now req
      = oauth_error 500 "server_error" not_initialized)
  /\ Jwks.jwksHandler None = oauth_error 500 "server_error" not_initialized.
Proof.
  refine (conj _ (conj _ (conj _ (conj _ _)))).
  - unfold OAuth.tokenHandler, OAuth.issue. cbn [getPrivateKey].
    destruct (clients env); [reflexivity|].
    repeat match goal with
           | |- context [if ?b then _ else _] => destruct b; [reflexivity|]
           end.
    reflexivity.
  - unfold OAuthPassword.tokenHandler, OAuth.issue. cbn [getPrivateKey].
    destruct (negb _); [reflexivity|].
    destruct (same "client_credentials" _).
    + destruct (clients env); [reflexivity|].
      repeat match goal with
             | |- context [if ?b then _ else _] => destruct b; [reflexivity|]
             end.
      reflexivity.
    + destruct (same "password" _); [|reflexivity].
      destruct (users env); [reflexivity|].
      repeat match goal with
             | |- context [if ?b then _ else _] => destruct b; [reflexivity|]
             end.
      reflexivity.
  - intros G F.
    destruct (find_client env (client_id req) (client_secret req)) as [c|] eqn:E;
      [clear F | congruence].
    unfold find_client in E. destruct (find_some _ _ E) as [Hin Hm].
    apply andb_true_iff in Hm as [M1 M2]. apply same_eq in M1, M2.
    destruct (clients_nonempty env c Hin) as [N1 N2].
    assert (Hne : clients env <> []) by (intros Z; now rewrite Z in Hin).
    fold (find_client env (client_id req) (client_secret req)) in E.
    split.
    + unfold OAuth.tokenHandler. rewrite match_nonempty by assumption.
      rewrite E, G, M1, M2, !truthy_nonempty by (assumption || reflexivity).
      reflexivity.
    + unfold OAuthPassword.tokenHandler. rewrite G. simpl same. cbn [truthy negb].
      rewrite match_nonempty by assumption.
      rewrite E, M1, M2, !truthy_nonempty by assumption.
      reflexivity.
  - intros G F.
    destruct (find_user env (req_username req) (req_password req)) as [u|] eqn:E;
      [clear F | congruence].
    unfold find_user in E. destruct (find_some _ _ E) as [Hin Hm].
    apply andb_true_iff in Hm as [M1 M2]. apply same_eq in M1, M2.
    destruct (users_nonempty env u Hin) as [N1 N2].
    assert (Hne : users env <> []) by (intros Z; now rewrite Z in Hin).
    fold (find_user env (req_username req) (req_password req)) in E.
    unfold OAuthPassword.tokenHandler. rewrite G. simpl same. cbn [truthy negb].
    rewrite match_nonempty by assumption.
    rewrite E, M1, M2, !truthy_nonempty by assumption.
    reflexivity.
  - reflexivity.
Qed.

Lemma no_token_before_key_generation_witness :
  find_client demo_env (client_id reader_request) (client_secret reader_request) <> None
  /\ OAuth.tokenHandler (B := reference) demo_env None 1000 reader_request
     = oauth_error 500 "server_error" not_initialized
  /\ find_user demo_env (Some "alice") (Some "wonderland") <> None
  /\ OAuthPassword.tokenHandler (B := reference) demo_env None 1000
       (password_request "alice" "wonderland")
     = oauth_error 500 "server_error" not_initialized.
Proof.
  pose proof (no_token_before_key_generation (B := reference) demo_env 1000%Z
                reader_request) as (_ & _ & Hc & _).
  pose proof (no_token_before_key_generation (B := reference) demo_env 1000%Z
                (password_request "alice" "wonderland")) as (_ & _ & _ & Hp & _).
  assert (F1 : find_client demo_env (client_id reader_request)
                 (client_secret reader_request) <> None) by (vm_compute; discriminate).
  assert (F2 : find_user demo_env (Some "alice") (Some "wonderland") <> None)
    by (vm_compute; discriminate).
  split; [exact F1|]. split; [exact (proj1 (Hc eq_refl F1))|].
  split; [exact F2|]. exact (Hp eq_refl F2).
Defined.

(** ** The header the middleware accepts *)

(** X3.  The middleware calls [next()] exactly when the key pair exists,
    the header is the word [Bearer], one space, and a token that is not
    empty and holds no space, and [jwt.verify] accepts that token under
    RS256 with the process public key; [req.user] is then what it
    decoded.  No other scheme, spelling or spacing of the header gets
    through. *)
Theorem next_only_for_bearer {B : Backend} keyPair clock authorization user :
  Auth.authenticateToken keyPair clock authorization = Auth.Next user
  <-> exists kp token,
        keyPair = Some kp
        /\ authorization = Some ("Bearer " ++ token)
        /\ compact token = true
        /\ verify clock token (publicKey kp) ["RS256"] = Decoded user.
Proof.
  destruct (authenticate_header keyPair clock authorization)
    as [(token & E & C & ->) | (N & d & _ & ->)].
  - split.
    + destruct keyPair as [kp|]; [|discriminate]. cbn [getPublicKey].
      destruct (verify clock token _ _) as [u | [ | | m | ]] eqn:V; try discriminate.
      intros [= <-]. now exists kp, token.
    + intros (kp & token' & -> & E' & _ & V). cbn [getPublicKey].
      rewrite E in E'. injection E' as ->. now rewrite V.
  - split; [discriminate|].
    intros (kp & token & _ & E & C & _). now rewrite (N token E) in C.
Qed.

(** The scheme is case-sensitive and the space single: a token that is
    accepted after [Bearer] and one space is refused after [bearer], after
    [Basic], and after two spaces. *)
Example other_spellings_are_refused :
  Auth.authenticateToken (generateRSAKeyPair KeyA) 1500 (Some ("Bearer " ++ reader_token))
  = Auth.Next reader_claims
  /\ Auth.authenticateToken (generateRSAKeyPair KeyA) 1500 (Some ("bearer " ++ reader_token))
     = Auth.unauthorized "Invalid Authorization header format. Expected: Bearer <token>"
  /\ Auth.authenticateToken (generateRSAKeyPair KeyA) 1500 (Some ("Basic " ++ reader_token))
     = Auth.unauthorized "Invalid Authorization header format. Expected: Bearer <token>"
  /\ Auth.authenticateToken (generateRSAKeyPair KeyA) 1500 (Some ("Bearer  " ++ reader_token))
     = Auth.unauthorized "Invalid Authorization header format. Expected: Bearer <token>"
  /\ Auth.authenticateToken (generateRSAKeyPair KeyA) 1500 (Some "Bearer ")
     = Auth.unauthorized "Missing access token".
Proof. repeat split; vm_compute; reflexivity. Qed.

(** X4.  Before the key pair is generated the middleware lets no request
    through: a header of the accepted form is answered 500 [server_error]
    [Authentication error], whatever the token, and any other header 401
    as usual. *)
Theorem no_access_before_key_generation {B : Backend} clock authorization :
  (forall user, Auth.authenticateToken None clock authorization <> Auth.Next user)
  /\ (forall token,
         authorization = Some ("Bearer " ++ token) ->
         compact token = true ->
         Auth.authenticateToken None clock authorization
         = Auth.Respond (oauth_error 500 "server_error" "Authentication error"))
  /\ ((forall token, authorization = Some ("Bearer " ++ token) -> compact token = false) ->
      exists description,
        Auth.authenticateToken None clock authorization = Auth.unauthorized description).
Proof.
  destruct (authenticate_header None clock authorization)
    as [(token & E & C & R) | (N & d & _ & R)]; rewrite R; cbn [getPublicKey].
  - refine (conj _ (conj _ _)); [discriminate | reflexivity |].
    intros H. now rewrite (H token E) in C.
  - refine (conj _ (conj _ _)); [discriminate | | eauto].
    intros token E C. now rewrite (N token E) in C.
Qed.

Lemma no_access_before_key_generation_witness :
  compact "abc" = true
  /\ Auth.authenticateToken (B := reference) None 0 (Some "Bearer abc")
     = Auth.Respond (oauth_error 500 "server_error" "Authentication error").
Proof.
  split; [reflexivity|].
  exact (proj1 (proj2 (no_access_before_key_generation (B := reference) 0%Z
                         (Some "Bearer abc"))) "abc" eq_refl eq_refl).
Defined.

(** X5.  A token on which [jws.decode] throws is answered 500
    [server_error] [Authentication error].  A token on which it does not
    throw, and that does not decode, or whose header names an algorithm
    other than RS256, or whose signature does not verify under the process
    public key, is answered 401 [Invalid or malformed token], whatever the
    dates in its payload: the signature is checked before the dates. *)
Theorem forged_token_is_invalid {B : Backend} fresh clock token :
  compact token = true ->
  (jws_throws token = true ->
   Auth.authenticateToken (generateRSAKeyPair fresh) clock (Some ("Bearer " ++ token))
   = Auth.Respond (oauth_error 500 "server_error" "Authentication error"))
  /\ (jws_throws token = false ->
      match jws_decode token with
      | None => True
      | Some (header, payload) =>
          alg header <> "RS256" \/ jws_verify token "RS256" (public_of fresh) = false
      end ->
      Auth.authenticateToken (generateRSAKeyPair fresh) clock (Some ("Bearer " ++ token))
      = Auth.unauthorized "Invalid or malformed token").
Proof.
  intros C. rewrite authenticate_bearer by assumption. unfold verify.
  split; intros T; rewrite T; [reflexivity|]. intros H.
  destruct (jws_decode token) as [[header payload]|]; [|reflexivity].
  cbn [existsb]. rewrite orb_false_r.
  destruct (String.eqb_spec (alg header) "RS256") as [E|N]; [|reflexivity].
  destruct H as [H|H]; [contradiction|].
  cbn [negb]. now rewrite E, H.
Qed.

(** Claims long expired, signed with another key than the process's. *)
Definition stale_claims : JwtPayload :=
  {| iss := Some "example-app";
     sub := Some "reader";
     aud := Some "example-app";
     exp := Some (Int 10);
     nbf := None;
     iat := Some (Int 5);
     role := Some "admin";
     scope := None |}.

Lemma forged_token_is_invalid_witness :
  (compact (toy_sign rs256_header stale_claims KeyB) = true
   /\ jws_throws (toy_sign rs256_header stale_claims KeyB) = false
   /\ jws_verify (toy_sign rs256_header stale_claims KeyB) "RS256" (public_of KeyA) = false
   /\ Auth.authenticateToken (generateRSAKeyPair KeyA) 1500
        (Some ("Bearer " ++ toy_sign rs256_header stale_claims KeyB))
      = Auth.unauthorized "Invalid or malformed token")
  /\ (compact unreadable_token = true
      /\ jws_throws unreadable_token = true
      /\ Auth.authenticateToken (generateRSAKeyPair KeyA) 1500
           (Some ("Bearer " ++ unreadable_token))
         = Auth.Respond (oauth_error 500 "server_error" "Authentication error")).
Proof.
  split.
  - split; [apply toy_sign_compact|]. split; [apply toy_sign_readable|].
    split; [vm_compute; reflexivity|].
    apply (proj2 (forged_token_is_invalid (B := reference) KeyA 1500
                    (toy_sign rs256_header stale_claims KeyB)
                    (toy_sign_compact _ _ _))).
    + apply toy_sign_readable.
    + change (jws_decode (toy_sign rs256_header stale_claims KeyB))
        with (toy_decode (toy_sign rs256_header stale_claims KeyB)).
      rewrite toy_decode_sign. right. vm_compute. reflexivity.
  - split; [reflexivity|]. split; [reflexivity|].
    exact (proj1 (forged_token_is_invalid (B := reference) KeyA 1500
                    unreadable_token eq_refl) eq_refl).
Defined.

(** X6.  A token signed by the process whose [nbf] is still ahead is
    answered 401 [Token not yet valid], also when its [exp] has passed:
    [nbf] is looked at first. *)
Theorem not_yet_valid_token {B : Backend} fresh clock header payload n :
  alg header = "RS256" ->
  nbf payload = Some (Int n) ->
  (clock < n)%Z ->
  Auth.authenticateToken (generateRSAKeyPair fresh) clock
    (Some ("Bearer " ++ jws_sign header payload fresh))
  = Auth.unauthorized "Token not yet valid".
Proof.
  intros Ha Hn Hlt. rewrite authenticate_bearer by apply sign_compact.
  rewrite verify_signed by assumption.
  unfold check_dates. rewrite Hn.
  destruct (Z.gtb_spec n clock); [reflexivity | lia].
Qed.

(** Claims whose window is empty: valid from 500, expired at 400. *)
Definition inverted_claims : JwtPayload :=
  {| iss := None; sub := Some "reader"; aud := None;
     exp := Some (Int 400); nbf := Some (Int 500); iat := None;
     role := None; scope := None |}.

Lemma not_yet_valid_token_witness :
  alg rs256_header = "RS256"
  /\ nbf inverted_claims = Some (Int 500)
  /\ (450 < 500)%Z
  /\ Auth.authenticateToken (generateRSAKeyPair KeyA) 450
       (Some ("Bearer " ++ toy_sign rs256_header inverted_claims KeyA))
     = Auth.unauthorized "Token not yet valid".
Proof.
  split; [reflexivity|]. split; [reflexivity|]. split; [lia|].
  apply (not_yet_valid_token (B := reference) KeyA 450 rs256_header inverted_claims 500);
    [reflexivity | reflexivity | lia].
Defined.

(** ** The token endpoint: the password grant, and who gets a token *)

Section PasswordFacts.
Context {B : Backend}.

Lemma find_client_some env id secret c :
  find_client env id secret = Some c ->
  In c (clients env) /\ id = Some (clientId c) /\ secret = Some (clientSecret c).
Proof.
  unfold find_client. intros E. destruct (find_some _ _ E) as [Hin Hm].
  apply andb_true_iff in Hm as [M1 M2]. apply same_eq in M1, M2. auto.
Qed.

Lemma find_user_some env name pass u :
  find_user env name pass = Some u ->
  In u (users env) /\ name = Some (username u) /\ pass = Some (password u).
Proof.
  unfold find_user. intros E. destruct (find_some _ _ E) as [Hin Hm].
  apply andb_true_iff in Hm as [M1 M2]. apply same_eq in M1, M2. auto.
Qed.

(** The answer of the later revision to a request that names a supported
    grant and whose lookup succeeds. *)
Lemma client_grant_issues env keyPair now req c :
  grant_type req = Some "client_credentials" ->
  find_client env (client_id req) (client_secret req) = Some c ->
  OAuthPassword.tokenHandler env keyPair now req
  = OAuth.issue env keyPair now
      (OAuth.mint env now (client_id req) (client_role c) (req_scope req)) (req_scope req).
Proof.
  intros G F. destruct (find_client_some _ _ _ _ F) as (Hin & Hid & Hsec).
  destruct (clients_nonempty env c Hin) as [N1 N2].
  assert (Hne : clients env <> []) by (intros Z; now rewrite Z in Hin).
  unfold OAuthPassword.tokenHandler. rewrite G. simpl same. cbn [truthy negb].
  rewrite match_nonempty by assumption. rewrite F.
  rewrite Hid, Hsec, !truthy_nonempty by assumption. reflexivity.
Qed.

Lemma password_grant_issues env keyPair now req u :
  grant_type req = Some "password" ->
  find_user env (req_username req) (req_password req) = Some u ->
  OAuthPassword.tokenHandler env keyPair now req
  = OAuth.issue env keyPair now
      (OAuth.mint env now (req_username req) (user_role u) (req_scope req)) (req_scope req).
Proof.
  intros G F. destruct (find_user_some _ _ _ _ F) as (Hin & Hid & Hsec).
  destruct (users_nonempty env u Hin) as [N1 N2].
  assert (Hne : users env <> []) by (intros Z; now rewrite Z in Hin).
  unfold OAuthPassword.tokenHandler. rewrite G. simpl same. cbn [truthy negb].
  rewrite match_nonempty by assumption. rewrite F.
  rewrite Hid, Hsec, !truthy_nonempty by assumption. reflexivity.
Qed.

End PasswordFacts.

(** X7.  Under the password grant, a request whose user name and password
    are those of a configured user is answered 200 with the token type
    [Bearer], the configured lifetime [T], and the scope exactly when the
    request has one that is not empty; the token is signed under RS256 with
    the process key over claims whose subject is the user name, whose role
    is that of the user the lookup found, whose [exp] is [now + T] and
    whose scope is that same scope.  The client fields of the request play
    no part.  [now], [T] and [now + T] are integers a JavaScript number
    holds exactly. *)
Theorem token_for_configured_user {B : Backend} env fresh now req u T :
  grant_type req = Some "password" ->
  In u (users env) ->
  req_username req = Some (username u) ->
  req_password req = Some (password u) ->
  TOKEN_EXPIRES_IN env = Int T ->
  safe_integer now -> safe_integer T -> safe_integer (now + T) ->
  exists user,
    find_user env (req_username req) (req_password req) = Some user
    /\ In user (users env)
    /\ username user = username u /\ password user = password u
    /\ let granted :=
         match req_scope req with
         | Some (String a s) => Some (String a s)
         | _ => None
         end in
       let payload :=
         {| iss := Some "example-app";
            sub := Some (username u);
            aud := Some "example-app";
            exp := Some (Int (now + T));
            nbf := None;
            iat := Some (Int now);
            role := Some (role_name (user_role user));
            scope := granted |} in
       let token := jws_sign {| alg := "RS256"; typ := Some "JWT" |} payload fresh in
       OAuthPassword.tokenHandler env (generateRSAKeyPair fresh) now req
       = {| Http.status := 200;
            body := JObj ([("access_token", JStr token);
                           ("token_type", JStr "Bearer");
                           ("expires_in", JInt T)]
                          ++ match granted with
                             | Some text => [("scope", JStr text)]
                             | None => []
                             end) |}
       /\ jws_decode token = Some ({| alg := "RS256"; typ := Some "JWT" |}, payload)
       /\ jws_verify token "RS256" (public_of fresh) = true.
Proof.
  intros Hg Hin Hid Hsec HT _ _ _.
  destruct (find_first
              (fun x => same (username x) (req_username req)
                        && same (password x) (req_password req))
              (users env) u Hin) as (user & F & Hc & Hm).
  { now rewrite Hid, Hsec, !same_refl. }
  change (find_user env (req_username req) (req_password req) = Some user) in F.
  apply andb_true_iff in Hm as [M1 M2].
  apply same_eq in M1, M2. rewrite Hid in M1. rewrite Hsec in M2.
  injection M1 as M1. injection M2 as M2.
  exists user.
  refine (conj F (conj Hc (conj (eq_sym M1) (conj (eq_sym M2) _)))).
  cbv zeta. refine (conj _ (conj _ _)).
  - rewrite (password_grant_issues env _ now req user Hg F).
    unfold OAuth.issue. cbn [generateRSAKeyPair getPrivateKey privateKey].
    rewrite sign_mint, Hid. unfold OAuth.token_response, OAuth.mint. rewrite HT.
    destruct (req_scope req) as [[|a s]|]; reflexivity.
  - apply decode_sign.
  - now apply verify_sign.
Qed.

(** The token the reference backend signs for [alice] at time 1000. *)
Definition alice_token : string :=
  Eval vm_compute in
    sign (B := reference) 1000 (OAuth.mint demo_env 1000 (Some "alice") readonly None)
      KeyA "RS256".

(** The claims of [alice] minted at time 1000 for the scope [chat]. *)
Definition alice_claims : JwtPayload :=
  {| iss := Some "example-app";
     sub := Some "alice";
     aud := Some "example-app";
     exp := Some (Int 4600);
     nbf := None;
     iat := Some (Int 1000);
     role := Some "readonly";
     scope := Some "chat" |}.

Lemma token_for_configured_user_witness :
  OAuthPassword.tokenHandler demo_env (generateRSAKeyPair KeyA) 1000
    {| grant_type := Some "password"; client_id := None; client_secret := None;
       req_username := Some "alice"; req_password := Some "wonderland";
       req_scope := Some "chat" |}
  = {| Http.status := 200;
       body := JObj [("access_token", JStr (toy_sign rs256_header alice_claims KeyA));
                     ("token_type", JStr "Bearer");
                     ("expires_in", JInt 3600);
                     ("scope", JStr "chat")] |}
  /\ OAuthPassword.tokenHandler demo_env (generateRSAKeyPair KeyA) 1000
       (password_request "alice" "wonderland")
     = {| Http.status := 200;
          body := JObj [("access_token", JStr alice_token);
                        ("token_type", JStr "Bearer");
                        ("expires_in", JInt 3600)] |}
  /\ toy_decode (toy_sign rs256_header alice_claims KeyA)
     = Some (rs256_header, alice_claims).
Proof.
  assert (S1 : safe_integer 1000) by (unfold safe_integer; lia).
  assert (S2 : safe_integer 3600) by (unfold safe_integer; lia).
  assert (S3 : safe_integer (1000 + 3600)) by (unfold safe_integer; lia).
  destruct (token_for_configured_user (B := reference) demo_env KeyA 1000
              {| grant_type := Some "password"; client_id := None;
                 client_secret := None; req_username := Some "alice";
                 req_password := Some "wonderland"; req_scope := Some "chat" |}
              {| username := "alice"; password := "wonderland"; user_role := readonly |}
              3600 eq_refl (or_introl eq_refl) eq_refl eq_refl eq_refl S1 S2 S3)
    as (user & F & _ & _ & _ & H).
  destruct (token_for_configured_user (B := reference) demo_env KeyA 1000
              (password_request "alice" "wonderland")
              {| username := "alice"; password := "wonderland"; user_role := readonly |}
              3600 eq_refl (or_introl eq_refl) eq_refl eq_refl eq_refl S1 S2 S3)
    as (user' & F' & _ & _ & _ & H').
  vm_compute in F. injection F as <-. vm_compute in F'. injection F' as <-.
  cbv zeta in H, H'. destruct H as (A & D & _). destruct H' as (A' & _).
  refine (conj A (conj _ D)). rewrite A'. vm_compute. reflexivity.
Defined.

(** X8.  The later revision hands out a token only to a request that names
    a supported grant and presents, field for field, the identifier and
    secret of a configured client, or the name and password of a configured
    user; the token is then the process's RS256 signature over claims
    whose subject and role are that entry's. *)
Theorem token_only_for_configured_credentials {B : Backend} env keyPair now req token :
  access_token (OAuthPassword.tokenHandler env keyPair now req) = Some token ->
  exists kp,
    keyPair = Some kp
    /\ ((grant_type req = Some "client_credentials"
         /\ exists c,
             In c (clients env)
             /\ client_id req = Some (clientId c)
             /\ client_secret req = Some (clientSecret c)
             /\ token = jws_sign rs256_header
                          (OAuth.mint env now (Some (clientId c)) (client_role c)
                             (req_scope req))
                          (privateKey kp))
        \/ (grant_type req = Some "password"
            /\ exists u,
                In u (users env)
                /\ req_username req = Some (username u)
                /\ req_password req = Some (password u)
                /\ token = jws_sign rs256_header
                             (OAuth.mint env now (Some (username u)) (user_role u)
                                (req_scope req))
                             (privateKey kp))).
Proof.
  assert (I : forall payload scope t,
             access_token (OAuth.issue env keyPair now payload scope) = Some t ->
             exists kp, keyPair = Some kp /\ t = sign now payload (privateKey kp) "RS256").
  { intros payload scope t. unfold OAuth.issue.
    destruct keyPair as [kp|]; cbn [getPrivateKey]; [|now rewrite access_token_error].
    unfold access_token. cbn [OAuth.token_response body].
    destruct scope as [[|c s]|]; intros [= <-]; now exists kp. }
  unfold OAuthPassword.tokenHandler.
  destruct (truthy (grant_type req)); cbn [negb]; [|now rewrite access_token_error].
  destruct (same "client_credentials" (grant_type req)) eqn:G.
  - apply same_eq in G.
    destruct (clients env) as [|c0 cs] eqn:Ecl; [now rewrite access_token_error|].
    rewrite <- Ecl.
    destruct (negb (truthy (client_id req))); [now rewrite access_token_error|].
    destruct (negb (truthy (client_secret req))); [now rewrite access_token_error|].
    destruct (find_client _ _ _) as [c|] eqn:F; [|now rewrite access_token_error].
    intros H. apply I in H as (kp & -> & ->). exists kp. split; [reflexivity|]. left.
    split; [exact G|]. exists c.
    destruct (find_client_some _ _ _ _ F) as (Hin & Hid & Hsec).
    refine (conj Hin (conj Hid (conj Hsec _))). rewrite Hid. apply sign_mint.
  - destruct (same "password" (grant_type req)) eqn:P; [|now rewrite access_token_error].
    apply same_eq in P.
    destruct (users env) as [|u0 us] eqn:Eus; [now rewrite access_token_error|].
    rewrite <- Eus.
    destruct (negb (truthy (req_username req))); [now rewrite access_token_error|].
    destruct (negb (truthy (req_password req))); [now rewrite access_token_error|].
    destruct (find_user _ _ _) as [u|] eqn:F; [|now rewrite access_token_error].
    intros H. apply I in H as (kp & -> & ->). exists kp. split; [reflexivity|]. right.
    split; [exact P|]. exists u.
    destruct (find_user_some _ _ _ _ F) as (Hin & Hid & Hsec).
    refine (conj Hin (conj Hid (conj Hsec _))). rewrite Hid. apply sign_mint.
Qed.

Lemma alice_token_issued :
  access_token (OAuthPassword.tokenHandler (B := reference) demo_env
                  (generateRSAKeyPair KeyA) 1000
                  (password_request "alice" "wonderland"))
  = Some alice_token.
Proof. vm_compute. reflexivity. Qed.

Lemma token_only_for_configured_credentials_witness :
  access_token (OAuthPassword.tokenHandler (B := reference) demo_env
                  (generateRSAKeyPair KeyA) 1000
                  (password_request "alice" "wonderland"))
  = Some alice_token
  /\ exists u,
       In u (users demo_env)
       /\ Some "alice" = Some (username u)
       /\ Some "wonderland" = Some (password u).
Proof.
  split; [exact alice_token_issued|].
  destruct (token_only_for_configured_credentials (B := reference) demo_env
              (generateRSAKeyPair (B := reference) KeyA) 1000 (password_request "alice" "wonderland")
              alice_token alice_token_issued)
    as (kp & _ & [(G & _) | (_ & u & Hin & Hn & Hp & _)]).
  - discriminate G.
  - exists u. exact (conj Hin (conj Hn Hp)).
Defined.

(** ** The configured clients and the lifetime *)

(** The environment configures [id] and [secret] in the slot of these two
    variables. *)
Definition configured (idVariable secretVariable : option string)
    (id secret : string) : Prop :=
  idVariable = Some id /\ secretVariable = Some secret.

Lemma find_filter {A : Type} (f g : A -> bool) (l : list A) :
  find f (filter g l) = find (fun x => g x && f x) l.
Proof.
  induction l as [|x l IH]; [reflexivity|].
  simpl. destruct (g x); simpl; [|exact IH].
  destruct (f x); [reflexivity | exact IH].
Qed.

(** A slot passes the filter and the comparison exactly when it is
    configured with the identifier and the secret presented. *)
Lemma slot_test iv sv id secret :
  id <> "" -> secret <> "" ->
  (nonempty (or_else iv "") && nonempty (or_else sv ""))
  && (same (or_else iv "") (Some id) && same (or_else sv "") (Some secret)) = true
  <-> configured iv sv id secret.
Proof.
  intros Hi Hs. unfold configured. split.
  - intros H. apply andb_true_iff in H as [_ H]. apply andb_true_iff in H as [H1 H2].
    apply same_eq in H1, H2. injection H1 as H1. injection H2 as H2.
    destruct iv as [[|c r]|], sv as [[|c' r']|]; simpl in *; subst; try congruence; auto.
  - intros [-> ->]. destruct id; [congruence|]. destruct secret; [congruence|].
    cbn [or_else nonempty andb]. now rewrite !same_refl.
Qed.

(** X9.  The lookup goes through the three slots in the order readonly,
    readwrite, admin and stops at the first that is configured with the
    identifier and the secret presented: credentials configured under
    several roles get the first of them, and credentials configured under
    none find no client. *)
Theorem first_configured_slot_wins env id secret :
  id <> "" -> secret <> "" ->
  let first := configured (OAUTH_CLIENT_ID_READONLY env)
                 (OAUTH_CLIENT_SECRET_READONLY env) id secret in
  let second := configured (OAUTH_CLIENT_ID_READWRITE env)
                  (OAUTH_CLIENT_SECRET_READWRITE env) id secret in
  let third := configured (OAUTH_CLIENT_ID_ADMIN env)
                 (OAUTH_CLIENT_SECRET_ADMIN env) id secret in
  let found role :=
    find_client env (Some id) (Some secret)
    = Some {| clientId := id; clientSecret := secret; client_role := role |} in
  (first -> found readonly)
  /\ (~ first -> second -> found readwrite)
  /\ (~ first -> ~ second -> third -> found admin)
  /\ (~ first -> ~ second -> ~ third -> find_client env (Some id) (Some secret) = None).
Proof.
  intros Hi Hs. cbv zeta. unfold find_client, clients. rewrite find_filter.
  cbn [find clientId clientSecret].
  pose proof (slot_test (OAUTH_CLIENT_ID_READONLY env) (OAUTH_CLIENT_SECRET_READONLY env)
                id secret Hi Hs) as T1.
  pose proof (slot_test (OAUTH_CLIENT_ID_READWRITE env) (OAUTH_CLIENT_SECRET_READWRITE env)
                id secret Hi Hs) as T2.
  pose proof (slot_test (OAUTH_CLIENT_ID_ADMIN env) (OAUTH_CLIENT_SECRET_ADMIN env)
                id secret Hi Hs) as T3.
  assert (V : forall iv sv role,
             configured iv sv id secret ->
             {| clientId := or_else iv ""; clientSecret := or_else sv "";
                client_role := role |}
             = {| clientId := id; clientSecret := secret; client_role := role |}).
  { intros iv sv role [-> ->]. destruct id; [congruence|]. destruct secret; [congruence|].
    reflexivity. }
  match goal with
  | |- context [if ?b then _ else _] => destruct b eqn:B1
  end.
  - pose proof (proj1 T1 eq_refl) as C1. repeat split; try tauto.
    intros _. now rewrite (V _ _ readonly C1).
  - assert (N1 : ~ configured (OAUTH_CLIENT_ID_READONLY env)
                   (OAUTH_CLIENT_SECRET_READONLY env) id secret)
      by (intros H; apply T1 in H; discriminate).
    match goal with
    | |- context [if ?b then _ else _] => destruct b eqn:B2
    end.
    + pose proof (proj1 T2 eq_refl) as C2. repeat split; try tauto.
      intros _ _. now rewrite (V _ _ readwrite C2).
    + assert (N2 : ~ configured (OAUTH_CLIENT_ID_READWRITE env)
                     (OAUTH_CLIENT_SECRET_READWRITE env) id secret)
        by (intros H; apply T2 in H; discriminate).
      match goal with
      | |- context [if ?b then _ else _] => destruct b eqn:B3
      end.
      * pose proof (proj1 T3 eq_refl) as C3. repeat split; try tauto.
        intros _ _ _. now rewrite (V _ _ admin C3).
      * assert (N3 : ~ configured (OAUTH_CLIENT_ID_ADMIN env)
                       (OAUTH_CLIENT_SECRET_ADMIN env) id secret)
          by (intros H; apply T3 in H; discriminate).
        repeat split; tauto.
Qed.

(** The same credentials under the readonly and the admin role. *)
Definition twice_env : Env :=
  {| OAUTH_CLIENT_ID_READONLY := Some "svc";
     OAUTH_CLIENT_SECRET_READONLY := Some "pw";
     OAUTH_CLIENT_ID_READWRITE := None;
     OAUTH_CLIENT_SECRET_READWRITE := Some "pw";
     OAUTH_CLIENT_ID_ADMIN := Some "svc";
     OAUTH_CLIENT_SECRET_ADMIN := Some "pw";
     OAUTH_USERNAME_READONLY := None;
     OAUTH_PASSWORD_READONLY := None;
     OAUTH_USERNAME_READWRITE := None;
     OAUTH_PASSWORD_READWRITE := None;
     OAUTH_USERNAME_ADMIN := None;
     OAUTH_PASSWORD_ADMIN := None;
     OAUTH_TOKEN_EXPIRES_IN := Some "90m" |}.

Lemma first_configured_slot_wins_witness :
  configured (OAUTH_CLIENT_ID_READONLY twice_env) (OAUTH_CLIENT_SECRET_READONLY twice_env)
    "svc" "pw"
  /\ configured (OAUTH_CLIENT_ID_ADMIN twice_env) (OAUTH_CLIENT_SECRET_ADMIN twice_env)
       "svc" "pw"
  /\ find_client twice_env (Some "svc") (Some "pw")
     = Some {| clientId := "svc"; clientSecret := "pw"; client_role := readonly |}.
Proof.
  assert (C : configured (OAUTH_CLIENT_ID_READONLY twice_env)
                (OAUTH_CLIENT_SECRET_READONLY twice_env) "svc" "pw")
    by (split; reflexivity).
  split; [exact C|]. split; [split; reflexivity|].
  assert (Hi : "svc" <> "") by discriminate.
  assert (Hs : "pw" <> "") by discriminate.
  exact (proj1 (first_configured_slot_wins twice_env "svc" "pw" Hi Hs) C).
Defined.


(** The decimal text of an integer. *)
Definition decimal (z : Z) : string := NilZero.string_of_int (Z.to_int z).

(** The text starts with a digit. *)
Definition leading_digit (s : string) : bool :=
  match s with
  | String c _ => is_digit c
  | EmptyString => false
  end.

Lemma take_digits_empty d rest :
  leading_digit rest = false ->
  take_digits (NilEmpty.string_of_uint d ++ rest) = (NilEmpty.string_of_uint d, rest).
Proof.
  intros Hr. induction d; cbn [NilEmpty.string_of_uint append take_digits];
    try (match goal with
         | |- context [is_digit ?c] => change (is_digit c) with true
         end; cbv iota; rewrite IHd; reflexivity).
  destruct rest as [|c r]; [reflexivity|]. simpl in *. now rewrite Hr.
Qed.

Lemma take_digits_uint d rest :
  leading_digit rest = false ->
  take_digits (NilZero.string_of_uint d ++ rest) = (NilZero.string_of_uint d, rest).
Proof.
  intros Hr. destruct d; try apply (take_digits_empty _ rest Hr).
  cbn [NilZero.string_of_uint append take_digits].
  change (is_digit "0") with true. cbv iota.
  pose proof (take_digits_empty Decimal.Nil rest Hr) as T. simpl in T.
  now rewrite T.
Qed.

Lemma digits_value_acc d acc :
  digits_value (Z.pos acc) (NilEmpty.string_of_uint d) = Z.pos (Pos.of_uint_acc d acc).
Proof.
  revert acc.
  induction d; intros acc;
    cbn [NilEmpty.string_of_uint digits_value Pos.of_uint_acc]; [reflexivity | ..];
    match goal with
    | |- digits_value ?a _ = Z.pos (Pos.of_uint_acc _ ?b) =>
        replace a with (Z.pos b)
          by (unfold code; cbn [N_of_ascii N_of_digits]; simpl Z.of_N; lia);
        apply IHd
    end.
Qed.

Lemma digits_value_empty d :
  digits_value 0 (NilEmpty.string_of_uint d) = Z.of_N (Pos.of_uint d).
Proof.
  induction d; cbn [NilEmpty.string_of_uint digits_value Pos.of_uint];
    [reflexivity | exact IHd | ..];
    match goal with
    | |- digits_value ?a _ = Z.of_N (N.pos (Pos.of_uint_acc _ ?b)) =>
        change a with (Z.pos b); apply digits_value_acc
    end.
Qed.

Lemma digits_value_uint d :
  digits_value 0 (NilZero.string_of_uint d) = Z.of_N (Pos.of_uint d).
Proof. destruct d; try apply digits_value_empty. reflexivity. Qed.

Lemma uint_head d :
  exists c r, NilZero.string_of_uint d = String c r /\ is_digit c = true.
Proof. destruct d; simpl; eexists _, _; split; reflexivity. Qed.

(** [parseInt] reads the decimal text of an integer back, and stops at the
    first character that is no digit. *)
Lemma parseInt_decimal z rest :
  leading_digit rest = false -> parseInt (decimal z ++ rest) = Int z.
Proof.
  intros Hr. unfold decimal.
  pose proof (DecimalZ.of_to z) as R.
  destruct (Z.to_int z) as [d|d] eqn:E; simpl NilZero.string_of_int.
  - destruct (uint_head d) as (c & r & S & Hc).
    unfold parseInt. rewrite S. cbn [append skip_js_ws].
    assert (W : is_js_ws c = false).
    { unfold is_digit in Hc. unfold is_js_ws.
      apply andb_true_iff in Hc as [L _]. apply N.leb_le in L.
      destruct (code c) as [|p]; [lia|].
      do 6 (destruct p as [p|p|]; try reflexivity; try lia). }
    rewrite W.
    assert (M : Ascii.eqb c "-" = false /\ Ascii.eqb c "+" = false).
    { unfold is_digit in Hc. apply andb_true_iff in Hc as [L _]. apply N.leb_le in L.
      split; apply Ascii.eqb_neq; intros ->; vm_compute in L; congruence. }
    destruct M as [-> ->].
    change (String c (r ++ rest)) with (String c r ++ rest).
    rewrite <- S, take_digits_uint by assumption. cbn [fst].
    rewrite S. cbv iota. rewrite <- S, digits_value_uint.
    simpl in R. now rewrite <- R.
  - unfold parseInt. cbn [append skip_js_ws].
    change (is_js_ws "-") with false. cbv iota.
    change (Ascii.eqb "-" "-") with true. cbv iota beta.
    rewrite take_digits_uint by assumption. cbn [fst].
    destruct (uint_head d) as (c & r & S & Hc).
    rewrite S. cbv iota. rewrite <- S, digits_value_uint.
    simpl in R. now rewrite <- R.
Qed.

(** A configuration that sets only the lifetime. *)
Definition lifetime_env (text : option string) : Env :=
  {| OAUTH_CLIENT_ID_READONLY := Some "reader";
     OAUTH_CLIENT_SECRET_READONLY := Some "s3cret";
     OAUTH_CLIENT_ID_READWRITE := None;
     OAUTH_CLIENT_SECRET_READWRITE := None;
     OAUTH_CLIENT_ID_ADMIN := None;
     OAUTH_CLIENT_SECRET_ADMIN := None;
     OAUTH_USERNAME_READONLY := None;
     OAUTH_PASSWORD_READONLY := None;
     OAUTH_USERNAME_READWRITE := None;
     OAUTH_PASSWORD_READWRITE := None;
     OAUTH_USERNAME_ADMIN := None;
     OAUTH_PASSWORD_ADMIN := None;
     OAUTH_TOKEN_EXPIRES_IN := text |}.

(** X10.  The lifetime is 3600 seconds when [OAUTH_TOKEN_EXPIRES_IN] is
    unset or empty.  When it starts with the decimal text of an integer (one
    a JavaScript number holds exactly), the lifetime is that integer, and
    whatever follows the digits is ignored: a unit, a fraction are not
    read. *)
Theorem lifetime_is_leading_integer env :
  (OAUTH_TOKEN_EXPIRES_IN env = None \/ OAUTH_TOKEN_EXPIRES_IN env = Some "" ->
   TOKEN_EXPIRES_IN env = Int 3600)
  /\ (forall z rest,
         (Z.abs z <= 9007199254740991)%Z ->
         OAUTH_TOKEN_EXPIRES_IN env = Some (decimal z ++ rest) ->
         leading_digit rest = false ->
         TOKEN_EXPIRES_IN env = Int z).
Proof.
  unfold TOKEN_EXPIRES_IN. split.
  - intros [-> | ->]; reflexivity.
  - intros z rest _ -> Hr.
    assert (N : exists c r, decimal z ++ rest = String c r).
    { pose proof (string_of_int_nonempty z) as H. unfold decimal.
      destruct (NilZero.string_of_int (Z.to_int z)); [congruence|].
      simpl. eauto. }
    destruct N as (c & r & E). rewrite E. cbn [or_else]. rewrite <- E.
    now apply parseInt_decimal.
Qed.

Lemma lifetime_is_leading_integer_witness :
  OAUTH_TOKEN_EXPIRES_IN (lifetime_env (Some "90m")) = Some (decimal 90 ++ "m")
  /\ leading_digit "m" = false
  /\ TOKEN_EXPIRES_IN (lifetime_env (Some "90m")) = Int 90
  /\ TOKEN_EXPIRES_IN (lifetime_env (Some "")) = Int 3600.
Proof.
  pose proof (lifetime_is_leading_integer (lifetime_env (Some "90m"))) as [_ H].
  pose proof (lifetime_is_leading_integer (lifetime_env (Some ""))) as [D _].
  split; [reflexivity|]. split; [reflexivity|].
  split; [exact (H 90%Z "m" ltac:(vm_compute; discriminate) eq_refl eq_refl)
         | exact (D (or_intror eq_refl))].
Defined.

(** X11.  When the lifetime does not parse ([parseInt] gives [NaN]), the
    endpoint still answers 200: the response says [expires_in: null], and
    the token it carries is refused by the middleware at every clock time
    as [Invalid or malformed token]. *)
Theorem unparsable_lifetime {B : Backend} env fresh now req token clock :
  TOKEN_EXPIRES_IN env = NaN ->
  access_token (OAuth.tokenHandler env (generateRSAKeyPair fresh) now req) = Some token ->
  Http.status (OAuth.tokenHandler env (generateRSAKeyPair fresh) now req) = 200%Z
  /\ (exists members,
         body (OAuth.tokenHandler env (generateRSAKeyPair fresh) now req) = JObj members
         /\ get "expires_in" members = Some JNull)
  /\ Auth.authenticateToken (generateRSAKeyPair fresh) clock (Some ("Bearer " ++ token))
     = Auth.unauthorized "Invalid or malformed token".
Proof.
  intros HT H.
  destruct (issued_token env fresh now req token H) as (client & F & ->).
  destruct (find_client_some _ _ _ _ F) as (Hin & Hid & Hsec).
  destruct (clients_nonempty env client Hin) as [N1 N2].
  assert (Hne : clients env <> []) by (intros Z; now rewrite Z in Hin).
  assert (R : OAuth.tokenHandler env (generateRSAKeyPair fresh) now req
              = OAuth.token_response env
                  (sign now (OAuth.mint env now (client_id req) (client_role client)
                               (req_scope req)) fresh "RS256") (req_scope req)).
  { revert H. unfold OAuth.tokenHandler. rewrite match_nonempty by assumption.
    repeat match goal with
           | |- context [if negb ?b then _ else _] =>
               destruct b; cbn [negb]; [|now rewrite access_token_error]
           end.
    rewrite F. intros _. reflexivity. }
  rewrite R. unfold OAuth.token_response. cbn [Http.status body]. rewrite HT.
  refine (conj eq_refl (conj _ _)).
  - eexists. split; [reflexivity|]. now destruct (req_scope req) as [[|c s]|].
  - rewrite authenticate_bearer by apply sign_compact.
    rewrite verify_signed by reflexivity.
    unfold check_dates, OAuth.mint. cbn [nbf exp]. now rewrite HT.
Qed.

Lemma unparsable_lifetime_witness :
  TOKEN_EXPIRES_IN (lifetime_env (Some "soon")) = NaN
  /\ exists token,
       access_token (OAuth.tokenHandler (B := reference) (lifetime_env (Some "soon"))
                       (generateRSAKeyPair (B := reference) KeyA) 1000 reader_request) = Some token
       /\ Auth.authenticateToken (B := reference) (generateRSAKeyPair (B := reference) KeyA) 1000
            (Some ("Bearer " ++ token))
          = Auth.unauthorized "Invalid or malformed token".
Proof.
  split; [reflexivity|].
  destruct (access_token (OAuth.tokenHandler (B := reference) (lifetime_env (Some "soon"))
                            (generateRSAKeyPair (B := reference) KeyA) 1000 reader_request))
    as [token|] eqn:E; [|vm_compute in E; discriminate].
  exists token. split; [reflexivity|].
  exact (proj2 (proj2 (unparsable_lifetime (B := reference) (lifetime_env (Some "soon"))
                         KeyA 1000 reader_request token 1000 eq_refl E))).
Defined.

(** ** The chat handler, whatever the completion service answers *)

(** The message is part of the tool traffic, not a turn of the caller or
    the system prompt. *)
Definition tool_traffic (m : Chat.Message) : bool :=
  match m with
  | Chat.Plain _ => false
  | _ => true
  end.

Section LoopInvariants.
Variable toISOString : Z -> string.
Variable upstream : Chat.Upstream.

Local Abbreviation loop := (Chat.tool_loop toISOString upstream).
Local Abbreviation calls := (fun h => List.length (Chat.upstream_calls h)).

(** How the loop ends: at the ceiling, every iteration having been a round
    of tools; or before it, on the reply that follows the last round. *)
Lemma loop_counts u left : forall request h,
  (Chat.response (loop u request left h) = limit_exceeded
   /\ calls (loop u request left h) = calls h + left
   /\ Chat.tool_rounds (loop u request left h) = Chat.tool_rounds h + left)
  \/ (Chat.response (loop u request left h) <> limit_exceeded
      /\ exists k, k < left
                   /\ calls (loop u request left h) = calls h + k + 1
                   /\ Chat.tool_rounds (loop u request left h) = Chat.tool_rounds h + k).
Proof.
  induction left as [|left IH]; intros request h.
  - left. simpl. repeat split; lia.
  - cbn [Chat.tool_loop].
    assert (E : forall r,
               r <> limit_exceeded ->
               let a := {| Chat.response := r;
                           Chat.upstream_calls := (Chat.upstream_calls h ++ [request])%list;
                           Chat.tool_rounds := Chat.tool_rounds h;
                           Chat.tools_run := Chat.tools_run h |} in
               Chat.response a <> limit_exceeded
               /\ exists k, k < S left /\ calls a = calls h + k + 1
                            /\ Chat.tool_rounds a = Chat.tool_rounds h + k).
    { intros r Hr. cbv zeta. cbn [Chat.response Chat.upstream_calls Chat.tool_rounds].
      split; [exact Hr|]. exists 0. rewrite List.length_app. simpl. lia. }
    destruct (upstream _ request) as [r | m]; [|right; apply E; discriminate].
    destruct (negb (Chat.ok r)); [right; apply E; discriminate|].
    destruct (Chat.reply_json r) as [data|]; [|right; apply E; discriminate].
    destruct (Chat.requested_calls data) as [|c cs] eqn:Ec;
      [right; apply E; discriminate|].
    match goal with
    | |- context [Chat.tool_loop _ _ ?u' ?r' left ?h'] =>
        destruct (IH r' h') as [(R & C & T) | (R & k & Hk & C & T)];
          cbn [Chat.upstream_calls Chat.tool_rounds] in C, T;
          rewrite List.length_app in C; cbn [List.length] in C
    end.
    + left. rewrite R, C, T. repeat split; lia.
    + right. split; [exact R|]. exists (S k). rewrite C, T. lia.
Qed.

(** What holds of the first request and is kept by every follow-up holds
    of every request sent. *)
Lemma loop_invariant (Q : Chat.LitellmRequest -> Prop) u
    (step : forall request data, Q request -> Q (follow_up toISOString u request data))
    left : forall request h,
  Q request ->
  Forall Q (Chat.upstream_calls h) ->
  Forall Q (Chat.upstream_calls (loop u request left h)).
Proof.
  induction left as [|left IH]; intros request h Hq Hh; [exact Hh|].
  assert (S : Forall Q (Chat.upstream_calls h ++ [request])%list)
    by (apply Forall_app; split; [exact Hh | now constructor]).
  cbn [Chat.tool_loop].
  destruct (upstream _ request) as [r | m]; [|exact S].
  destruct (negb (Chat.ok r)); [exact S|].
  destruct (Chat.reply_json r) as [data|]; [|exact S].
  destruct (Chat.requested_calls data) as [|c cs] eqn:Ec; [exact S|].
  apply IH; [|exact S].
  specialize (step request data Hq). unfold follow_up in step. now rewrite Ec in step.
Qed.

End LoopInvariants.

Section ChatBounds.
Variable getSystemPrompt : Chat.Domain -> Chat.Level -> string.
Variable toISOString : Z -> string.
Variable upstream : Chat.Upstream.

Local Abbreviation handled := (Chat.chatHandler getSystemPrompt toISOString upstream).

(** X12.  Whatever the completion service answers, the handler calls it at
    most 10 times for one request; the calls are as many as the rounds of
    tool execution, or one more; and the response is [Tool call limit
    exceeded] exactly when 10 rounds were run, after 10 calls. *)
Theorem upstream_calls_are_bounded (req : Chat.ChatRequest) :
  dates_in_range (Chat.user req) ->
  List.length (Chat.upstream_calls (handled req)) <= Chat.MAX_TOOL_ITERATIONS
  /\ Chat.tool_rounds (handled req) <= List.length (Chat.upstream_calls (handled req))
  /\ List.length (Chat.upstream_calls (handled req)) <= S (Chat.tool_rounds (handled req))
  /\ (Chat.response (handled req) = limit_exceeded
      <-> Chat.tool_rounds (handled req) = Chat.MAX_TOOL_ITERATIONS)
  /\ (Chat.response (handled req) = limit_exceeded ->
      List.length (Chat.upstream_calls (handled req)) = Chat.MAX_TOOL_ITERATIONS).
Proof.
  intros _. unfold Chat.chatHandler, Chat.MAX_TOOL_ITERATIONS.
  destruct (Chat.FISH_TO_LEVEL _) as [level|];
    [|cbn; repeat split; try lia; discriminate].
  destruct (Chat.chatQuerySchema _) as [q|];
    [|cbn; repeat split; try lia; discriminate].
  destruct (Chat.chatBodySchema _) as [turns | | m];
    [|cbn; repeat split; try lia; discriminate..].
  match goal with
  | |- context [Chat.tool_loop _ _ ?u ?r ?n ?h] =>
      destruct (loop_counts toISOString upstream u n r h)
        as [(R & C & T) | (R & k & Hk & C & T)];
        cbn [Chat.nothing_yet Chat.upstream_calls Chat.tool_rounds List.length Nat.add]
          in C, T;
        rewrite C, T
  end.
  - repeat split; try lia; auto.
  - repeat split; try lia; intros H; try contradiction; lia.
Qed.

End ChatBounds.

Lemma upstream_calls_are_bounded_witness :
  dates_in_range (Chat.user hello_request)
  /\ List.length
       (Chat.upstream_calls
          (Chat.chatHandler sample_prompts sample_dates (asks_first 12) hello_request))
     <= 10.
Proof.
  split; [exact I|].
  exact (proj1 (upstream_calls_are_bounded sample_prompts sample_dates (asks_first 12)
                  hello_request I)).
Defined.

Section ChatShape.
Variable getSystemPrompt : Chat.Domain -> Chat.Level -> string.
Variable toISOString : Z -> string.
Variable upstream : Chat.Upstream.

Local Abbreviation handled := (Chat.chatHandler getSystemPrompt toISOString upstream).

(** The first request of a validated chat request. *)
Local Abbreviation opening level q turns :=
  {| Chat.messages :=
       Chat.Plain {| Chat.role := "system";
                     Chat.content := getSystemPrompt (Chat.domain q) level |}
       :: map Chat.Plain turns;
     Chat.tools := Chat.TOOLS;
     Chat.tool_choice := "auto";
     Chat.request_model :=
       match Chat.model q with
       | Some (String c m) => Some (String c m)
       | _ => None
       end |}.

Lemma handled_valid req level q turns :
  Chat.FISH_TO_LEVEL (Chat.params_level req) = Some level ->
  Chat.chatQuerySchema (Chat.query req) = Some q ->
  Chat.chatBodySchema (Chat.req_body req) = Chat.Valid turns ->
  handled req
  = Chat.tool_loop toISOString upstream (Chat.user req) (opening level q turns)
      Chat.MAX_TOOL_ITERATIONS (Chat.nothing_yet (Chat.error_response 0 "" "")).
Proof. intros Hl Hq Hb. unfold Chat.chatHandler. now rewrite Hl, Hq, Hb. Qed.

(** X13.  The completion service is called for a request exactly when its
    path, its query and its body all pass validation.  A bad path is
    reported before a bad query, and a bad query before a bad body; each is
    answered 400 under its own error name (500 when normalizing the
    messages throws) with nothing sent upstream. *)
Theorem nothing_sent_unless_valid (req : Chat.ChatRequest) :
  (Chat.upstream_calls (handled req) = []
   <-> Chat.FISH_TO_LEVEL (Chat.params_level req) = None
       \/ Chat.chatQuerySchema (Chat.query req) = None
       \/ forall turns, Chat.chatBodySchema (Chat.req_body req) <> Chat.Valid turns)
  /\ (Chat.FISH_TO_LEVEL (Chat.params_level req) = None ->
      refused_with "Invalid path parameter" (handled req))
  /\ (Chat.FISH_TO_LEVEL (Chat.params_level req) <> None ->
      Chat.chatQuerySchema (Chat.query req) = None ->
      refused_with "Invalid query parameters" (handled req))
  /\ (Chat.FISH_TO_LEVEL (Chat.params_level req) <> None ->
      Chat.chatQuerySchema (Chat.query req) <> None ->
      Chat.chatBodySchema (Chat.req_body req) = Chat.Invalid ->
      refused_with "Invalid request body" (handled req))
  /\ (Chat.upstream_calls (handled req) = [] ->
      Chat.status (Chat.response (handled req)) = 400%Z
      \/ exists message,
           Chat.chatBodySchema (Chat.req_body req) = Chat.Raised message
           /\ Chat.response (handled req)
              = Chat.error_response 500 "Internal server error" message).
Proof.
  assert (R : forall error message,
             refused_with error (Chat.nothing_yet (Chat.error_response 400 error message))).
  { intros error message. split; [reflexivity|]. split; [reflexivity|]. now exists message. }
  destruct (Chat.FISH_TO_LEVEL (Chat.params_level req)) as [level|] eqn:Hl.
  2:{ unfold Chat.chatHandler. rewrite Hl.
      refine (conj _ (conj _ (conj _ (conj _ _)))); try congruence.
      - split; [now left | reflexivity].
      - intros _. apply R.
      - intros _. now left. }
  destruct (Chat.chatQuerySchema (Chat.query req)) as [q|] eqn:Hq.
  2:{ unfold Chat.chatHandler. rewrite Hl, Hq.
      refine (conj _ (conj _ (conj _ (conj _ _)))); try congruence.
      - split; [right; now left | reflexivity].
      - intros _ _. apply R.
      - intros _. now left. }
  destruct (Chat.chatBodySchema (Chat.req_body req)) as [turns | | m] eqn:Hb.
  - rewrite (handled_valid req level q turns Hl Hq Hb).
    match goal with
    | |- context [Chat.tool_loop _ _ ?u ?r ?n ?h] =>
        destruct (loop_counts toISOString upstream u n r h)
          as [(_ & C & _) | (_ & k & _ & C & _)];
          cbn [Chat.nothing_yet Chat.upstream_calls List.length Nat.add] in C;
          assert (N : Chat.upstream_calls (Chat.tool_loop toISOString upstream u r n h)
                      <> [])
            by (intros E; rewrite E in C; unfold Chat.MAX_TOOL_ITERATIONS in C;
                simpl in C; lia)
    end.
    + refine (conj _ (conj _ (conj _ (conj _ _)))); try congruence.
      split; [congruence|].
      intros [H | [H | H]]; try congruence; now contradiction (H turns).
    + refine (conj _ (conj _ (conj _ (conj _ _)))); try congruence.
      split; [congruence|].
      intros [H | [H | H]]; try congruence; now contradiction (H turns).
  - unfold Chat.chatHandler. rewrite Hl, Hq, Hb.
    refine (conj _ (conj _ (conj _ (conj _ _)))); try congruence.
    + split; [|reflexivity]. intros _. right. right. discriminate.
    + intros _ _ _. apply R.
    + intros _. now left.
  - unfold Chat.chatHandler. rewrite Hl, Hq, Hb.
    refine (conj _ (conj _ (conj _ (conj _ _)))); try congruence.
    + split; [|reflexivity]. intros _. right. right. discriminate.
    + intros _. right. now exists m.
Qed.

(** X14.  Every request sent for a validated chat request carries the tool
    definitions, the tool choice [auto] and the model of the query (none
    when the query has none or an empty one); its messages start with the
    system prompt of the domain and level, followed by the caller's turns
    in their order, and what comes after them is tool traffic only.  The
    first request has nothing after them. *)
Theorem conversation_is_kept (req : Chat.ChatRequest) level q turns :
  Chat.FISH_TO_LEVEL (Chat.params_level req) = Some level ->
  Chat.chatQuerySchema (Chat.query req) = Some q ->
  Chat.chatBodySchema (Chat.req_body req) = Chat.Valid turns ->
  dates_in_range (Chat.user req) ->
  (exists rest, Chat.upstream_calls (handled req) = opening level q turns :: rest)
  /\ Forall (fun call =>
               Chat.tools call = Chat.TOOLS
               /\ Chat.tool_choice call = "auto"
               /\ Chat.request_model call = Chat.request_model (opening level q turns)
               /\ exists extra,
                    Chat.messages call
                    = (Chat.messages (opening level q turns) ++ extra)%list
                    /\ forallb tool_traffic extra = true)
       (Chat.upstream_calls (handled req)).
Proof.
  intros Hl Hq Hb _. rewrite (handled_valid req level q turns Hl Hq Hb). split.
  - match goal with
    | |- context [Chat.tool_loop _ _ ?u ?r ?n ?h] =>
        destruct (loop_shape toISOString upstream u n r h I) as (_ & P & _)
    end.
    destruct P as (rest & ->); [discriminate|]. now exists rest.
  - apply loop_invariant.
    + intros request data (T & C & M & extra & E & F). unfold follow_up.
      cbn [Chat.tools Chat.tool_choice Chat.request_model Chat.messages].
      refine (conj T (conj C (conj M _))).
      eexists. rewrite E, <- app_assoc. split; [reflexivity|].
      rewrite forallb_app, F. cbn [forallb tool_traffic andb].
      induction (Chat.requested_calls data) as [|c cs IH]; [reflexivity | exact IH].
    + cbn [Chat.tools Chat.tool_choice Chat.request_model Chat.messages].
      refine (conj eq_refl (conj eq_refl (conj eq_refl _))).
      exists []. now rewrite app_nil_r.
    + constructor.
Qed.

(** X15.  The requests sent for one chat request form a chain: the reply
    to each but the last was a success that asked for tools, and the next
    request repeats it with the assistant's message and one [tool] message
    per call appended, in the order of the calls. *)
Theorem follow_ups_extend_the_conversation (req : Chat.ChatRequest) :
  dates_in_range (Chat.user req) ->
  chained toISOString upstream (Chat.user req) 1 (Chat.upstream_calls (handled req)).
Proof.
  intros _. unfold Chat.chatHandler.
  destruct (Chat.FISH_TO_LEVEL _) as [level|]; [|exact I].
  destruct (Chat.chatQuerySchema _) as [q|]; [|exact I].
  destruct (Chat.chatBodySchema _) as [turns | | m]; [|exact I..].
  match goal with
  | |- context [Chat.tool_loop _ _ ?u ?r ?n ?h] =>
      exact (proj1 (loop_shape toISOString upstream u n r h I))
  end.
Qed.

(** X16.  Unless the ceiling is reached, the response to a validated chat
    request is the handler's reaction to the reply to the last request
    sent: the data of a success, the status and text of a failure passed
    on under [LiteLLM server error], or 500 [Internal server error] when
    the call or the reading of its body throws. *)
Theorem last_reply_decides (req : Chat.ChatRequest) :
  dates_in_range (Chat.user req) ->
  Chat.upstream_calls (handled req) <> [] ->
  Chat.response (handled req) <> limit_exceeded ->
  exists sent last,
    Chat.upstream_calls (handled req) = (sent ++ [last])%list
    /\ reacts (upstream (S (List.length sent)) last) (Chat.response (handled req)).
Proof.
  intros _. unfold Chat.chatHandler.
  destruct (Chat.FISH_TO_LEVEL _) as [level|]; [|now intros H; contradiction H].
  destruct (Chat.chatQuerySchema _) as [q|]; [|now intros H; contradiction H].
  destruct (Chat.chatBodySchema _) as [turns | | m];
    [|now intros H; contradiction H..].
  intros _ L.
  match goal with
  | |- context [Chat.tool_loop _ _ ?u ?r ?n ?h] =>
      destruct (proj2 (proj2 (loop_shape toISOString upstream u n r h I)) L)
        as (sent & last & E & R)
  end.
  exists sent, last. split; [exact E | now apply reaction_reacts].
Qed.

End ChatShape.

(** A completion service that is overloaded. *)
Definition overloaded : Chat.Upstream :=
  fun _ _ =>
    Chat.Reply {| Chat.reply_status := 503;
                  Chat.reply_text := "overloaded";
                  Chat.reply_json := None |}.

Lemma conversation_is_kept_witness :
  exists rest,
    Chat.upstream_calls (Chat.chatHandler sample_prompts sample_dates (asks_first 3)
                           hello_request)
    = {| Chat.messages := [Chat.Plain {| Chat.role := "system"; Chat.content := "prompt" |};
                           Chat.Plain {| Chat.role := "user"; Chat.content := "hello" |}];
         Chat.tools := Chat.TOOLS;
         Chat.tool_choice := "auto";
         Chat.request_model := None |} :: rest.
Proof.
  exact (proj1 (conversation_is_kept sample_prompts sample_dates (asks_first 3)
                  hello_request Chat.secure
                  {| Chat.model := None; Chat.domain := Chat.finance |}
                  [{| Chat.role := "user"; Chat.content := "hello" |}]
                  eq_refl eq_refl eq_refl I)).
Defined.

(** A completion service whose body does not read as JSON. *)
Definition garbled : Chat.Upstream :=
  fun _ _ =>
    Chat.Reply {| Chat.reply_status := 200;
                  Chat.reply_text := "<html>";
                  Chat.reply_json := None |}.

Lemma last_reply_decides_witness :
  (Chat.upstream_calls (Chat.chatHandler sample_prompts sample_dates overloaded hello_request)
   <> []
   /\ Chat.response (Chat.chatHandler sample_prompts sample_dates overloaded hello_request)
      = Chat.error_response 503 "LiteLLM server error" "overloaded"
   /\ exists sent last,
        Chat.upstream_calls (Chat.chatHandler sample_prompts sample_dates overloaded
                               hello_request) = (sent ++ [last])%list
        /\ reacts (overloaded (S (List.length sent)) last)
             (Chat.response (Chat.chatHandler sample_prompts sample_dates overloaded
                               hello_request)))
  /\ exists sent last,
       Chat.upstream_calls (Chat.chatHandler sample_prompts sample_dates garbled
                              hello_request) = (sent ++ [last])%list
       /\ Chat.status
            (Chat.response (Chat.chatHandler sample_prompts sample_dates garbled
                              hello_request)) = 500%Z.
Proof.
  assert (N : Chat.upstream_calls
                (Chat.chatHandler sample_prompts sample_dates overloaded hello_request)
              <> []) by (vm_compute; discriminate).
  assert (R : Chat.response
                (Chat.chatHandler sample_prompts sample_dates overloaded hello_request)
              = Chat.error_response 503 "LiteLLM server error" "overloaded")
    by (vm_compute; reflexivity).
  split.
  - refine (conj N (conj R _)).
    apply (last_reply_decides sample_prompts sample_dates overloaded hello_request I N).
    rewrite R. discriminate.
  - destruct (last_reply_decides sample_prompts sample_dates garbled hello_request I)
      as (sent & last & E & H).
    + vm_compute. discriminate.
    + vm_compute. discriminate.
    + exists sent, last. split; [exact E|]. exact (proj1 H).
Defined.

Lemma follow_ups_extend_the_conversation_witness :
  dates_in_range (Chat.user hello_request)
  /\ chained sample_dates (asks_first 2) None 1
       (Chat.upstream_calls
          (Chat.chatHandler sample_prompts sample_dates (asks_first 2) hello_request)).
Proof.
  split; [exact I|].
  exact (follow_ups_extend_the_conversation sample_prompts sample_dates (asks_first 2)
           hello_request I).
Defined.

(** ** The tool *)

(** X17.  For a user whose dates are within the range of a [Date], or for
    none, what [executeToolCall] returns is the text of a JSON object,
    whatever the tool name and the arguments.  For a name other than
    [get_user] it is the error [Unknown tool] with the name in its message;
    for [get_user] with no authenticated user, the error [No authenticated
    user]; with one, the object holds the subject, issuer and audience of
    the token when it has them, its role or [unknown], its scope or
    [null], and each of its two dates in ISO form, or [null] when the date
    is missing, zero or no number. *)
Theorem tool_results_are_json (toISOString : Z -> string) toolName args user :
  dates_in_range user ->
  exists members,
    parse (Chat.executeToolCall toISOString toolName args user) = Some (JObj members)
    /\ (toolName <> "get_user" ->
        members = [("error", JStr "Unknown tool");
                   ("message", JStr ("Tool '" ++ toolName ++ "' is not available"))])
    /\ (toolName = "get_user" -> user = None ->
        members = [("error", JStr "No authenticated user");
                   ("message", JStr "This endpoint requires authentication to retrieve user information")])
    /\ (toolName = "get_user" ->
        forall u, user = Some u ->
        get "userId" members = option_map JStr (sub u)
        /\ get "role" members = Some (JStr (or_else (Jwt.role u) "unknown"))
        /\ get "issuer" members = option_map JStr (iss u)
        /\ get "audience" members = option_map JStr (aud u)
        /\ get "issuedAt" members
           = Some (match iat u with
                   | Some (Int t) =>
                       if (t =? 0)%Z then JNull else JStr (toISOString (t * 1000)%Z)
                   | _ => JNull
                   end)
        /\ get "expiresAt" members
           = Some (match exp u with
                   | Some (Int t) =>
                       if (t =? 0)%Z then JNull else JStr (toISOString (t * 1000)%Z)
                   | _ => JNull
                   end)
        /\ get "scope" members
           = Some (match scope u with
                   | Some (String c r) => JStr (String c r)
                   | _ => JNull
                   end)
        /\ get "error" members = None).
Proof.
  intros _. unfold Chat.executeToolCall.
  destruct (String.eqb_spec toolName "get_user") as [->|N].
  - destruct user as [u|].
    + eexists. split.
      * apply parse_stringify. unfold Chat.opt_member, Chat.iso_or_null.
        destruct (sub u), (iss u), (aud u), (iat u) as [[t|]|], (exp u) as [[t'|]|],
          (scope u) as [[|c r]|];
          repeat match goal with
                 | |- context [(?a =? 0)%Z] => destruct (a =? 0)%Z
                 end; reflexivity.
      * refine (conj _ (conj _ _)); [congruence | discriminate |].
        intros _ u' [= <-]. unfold Chat.opt_member, Chat.iso_or_null.
        destruct (sub u), (iss u), (aud u); repeat split; reflexivity.
    + eexists. split; [now apply parse_stringify|].
      refine (conj _ (conj _ _)); [congruence | reflexivity | discriminate].
  - eexists. split; [now apply parse_stringify|].
    refine (conj _ (conj _ _)); [reflexivity | congruence | congruence].
Qed.

Lemma tool_results_are_json_witness :
  dates_in_range (Some reader_claims)
  /\ exists members,
       parse (Chat.executeToolCall sample_dates "get_user" (JObj []) (Some reader_claims))
       = Some (JObj members)
       /\ get "userId" members = Some (JStr "reader")
       /\ get "role" members = Some (JStr "readonly")
       /\ get "issuedAt" members = Some (JStr (sample_dates 1000000))
       /\ get "expiresAt" members = Some (JStr (sample_dates 4600000))
       /\ get "scope" members = Some JNull.
Proof.
  assert (D : dates_in_range (Some reader_claims))
    by (split; vm_compute; discriminate).
  split; [exact D|].
  destruct (tool_results_are_json sample_dates "get_user" (JObj []) (Some reader_claims) D)
    as (members & P & _ & _ & H).
  exists members. split; [exact P|].
  destruct (H eq_refl reader_claims eq_refl) as (U & R & _ & _ & I1 & I2 & S & _).
  exact (conj U (conj R (conj I1 (conj I2 S)))).
Defined.

(** The text is an error object of the tool: no user, or no such tool. *)
Definition anonymous_result (result : string) : Prop :=
  exists error message,
    parse result = Some (JObj [("error", JStr error); ("message", JStr message)])
    /\ (error = "No authenticated user" \/ error = "Unknown tool").

Lemma execute_without_user (toISOString : Z -> string) toolName args :
  anonymous_result (Chat.executeToolCall toISOString toolName args None).
Proof.
  unfold Chat.executeToolCall, anonymous_result.
  destruct (String.eqb toolName "get_user");
    eexists _, _; (split; [now apply parse_stringify | tauto]).
Qed.

(** X18.  On the route without the middleware, [POST /:level/chat], no
    tool result sent to the completion service says anything of a user:
    each is the error object [No authenticated user] or [Unknown tool]. *)
Theorem open_route_tools_know_no_user
    (getSystemPrompt : Chat.Domain -> Chat.Level -> string) (toISOString : Z -> string)
    (upstream : Chat.Upstream) level query body :
  Forall (fun call =>
            forall id result,
              In (Chat.ToolResult id result) (Chat.messages call) ->
              anonymous_result result)
    (Chat.upstream_calls
       (Server.chat getSystemPrompt toISOString upstream level query body)).
Proof.
  unfold Server.chat, Chat.chatHandler. cbn [Chat.params_level Chat.query Chat.req_body].
  destruct (Chat.FISH_TO_LEVEL level) as [l|]; [|constructor].
  destruct (Chat.chatQuerySchema query) as [q|]; [|constructor].
  destruct (Chat.chatBodySchema body) as [turns | | m]; [|constructor..].
  cbn [Chat.user]. apply loop_invariant.
  - intros request data H id result. unfold follow_up. cbn [Chat.messages].
    rewrite in_app_iff. intros [Hin | [Hin | Hin]]; [now apply (H id) | discriminate |].
    apply in_map_iff in Hin as (call & E & _). unfold Chat.run_tool in E.
    injection E as _ <-. apply execute_without_user.
  - intros id result. cbn [Chat.messages]. intros [Hin | Hin]; [discriminate|].
    apply in_map_iff in Hin as (t & E & _). discriminate.
  - constructor.
Qed.

(** X19.  On the route behind the middleware, with a token the endpoint
    issued and that has not expired, the handler runs with the claims of
    the token in [req.user], and a [get_user] call of the model is answered
    with the client the token was issued to: its identifier, its configured
    role, the issuer and audience [example-app], the dates of the token and
    its scope. *)
Theorem get_user_reports_the_token_holder {B : Backend}
    (getSystemPrompt : Chat.Domain -> Chat.Level -> string) (toISOString : Z -> string)
    env fresh now treq token T clock upstream level query body call :
  TOKEN_EXPIRES_IN env = Int T ->
  access_token (OAuth.tokenHandler env (generateRSAKeyPair fresh) now treq) = Some token ->
  (clock < now + T)%Z ->
  date_range (Some (Int now)) ->
  date_range (Some (Int (now + T))) ->
  Chat.function_name call = "get_user" ->
  exists client,
    find_client env (client_id treq) (client_secret treq) = Some client
    /\ Server.authorizedChat getSystemPrompt toISOString (generateRSAKeyPair fresh) clock
         (Some ("Bearer " ++ token)) upstream level query body
       = Server.Reached
           (Chat.chatHandler getSystemPrompt toISOString upstream
              {| Chat.params_level := level; Chat.query := query; Chat.req_body := body;
                 Chat.user := Some (OAuth.mint env now (client_id treq)
                                      (client_role client) (req_scope treq)) |})
    /\ Chat.run_tool toISOString
         (Some (OAuth.mint env now (client_id treq) (client_role client) (req_scope treq)))
         call
       = Chat.ToolResult (Chat.call_id call)
           (stringify
              (JObj [("userId", JStr (clientId client));
                     ("role", JStr (role_name (client_role client)));
                     ("issuer", JStr "example-app");
                     ("audience", JStr "example-app");
                     ("issuedAt", Chat.iso_or_null toISOString (Some (Int now)));
                     ("expiresAt", Chat.iso_or_null toISOString (Some (Int (now + T))));
                     ("scope", match req_scope treq with
                               | Some (String c r) => JStr (String c r)
                               | _ => JNull
                               end)])).
Proof.
  intros HT H Hlt _ _ Hn.
  destruct (issued_token env fresh now treq token H) as (client & F & ->).
  exists client. split; [exact F|].
  destruct (find_client_some _ _ _ _ F) as (_ & Hid & _).
  split.
  - unfold Server.authorizedChat.
    rewrite authenticate_bearer by apply sign_compact.
    rewrite verify_signed, (check_dates_mint _ _ _ _ _ T) by (reflexivity || assumption).
    destruct (Z.geb_spec clock (now + T)); [lia | reflexivity].
  - unfold Chat.run_tool. rewrite Hn. unfold Chat.executeToolCall.
    simpl String.eqb. cbv iota. unfold OAuth.mint.
    cbn [sub iss aud iat exp Jwt.role Jwt.scope Chat.opt_member]. rewrite Hid, HT.
    cbn [Chat.opt_member add app].
    replace (or_else (Some (role_name (client_role client))) "unknown")
      with (role_name (client_role client)) by now destruct (client_role client).
    now destruct (req_scope treq) as [[|c r]|].
Qed.

Lemma get_user_reports_the_token_holder_witness :
  exists client,
    find_client demo_env (client_id reader_request) (client_secret reader_request)
    = Some client
    /\ Server.authorizedChat sample_prompts sample_dates (generateRSAKeyPair KeyA) 1500
         (Some ("Bearer " ++ reader_token)) (asks_first 1) (Some "shark") [] (JStr "hi")
       = Server.Reached
           (Chat.chatHandler sample_prompts sample_dates (asks_first 1)
              {| Chat.params_level := Some "shark"; Chat.query := [];
                 Chat.req_body := JStr "hi";
                 Chat.user := Some (OAuth.mint demo_env 1000 (client_id reader_request)
                                      (client_role client) (req_scope reader_request)) |}).
Proof.
  destruct (get_user_reports_the_token_holder (B := reference) sample_prompts sample_dates
              demo_env KeyA 1000 reader_request reader_token 3600 1500 (asks_first 1)
              (Some "shark") [] (JStr "hi") get_user_call
              eq_refl reader_token_issued eq_refl ltac:(vm_compute; discriminate)
              ltac:(vm_compute; discriminate) eq_refl) as (client & F & R & _).
  exists client. exact (conj F R).
Defined.


(** ** The allowed models *)

(** The results of successive calls of [getAllowedModels], the
    configuration file being in the states [files] at the times of the
    calls. *)
Fixpoint successive (allowedModels : option (list string))
    (files : list (option LitellmConfig.LiteLLMConfig)) : list (list string) :=
  match files with
  | [] => []
  | file :: later =>
      let (models, after) := LitellmConfig.getAllowedModels allowedModels file in
      models :: successive after later
  end.

(** The first state of the file that could be read. *)
Definition first_readable (files : list (option LitellmConfig.LiteLLMConfig))
    : option LitellmConfig.LiteLLMConfig :=
  match find (fun file => match file with Some _ => true | None => false end) files with
  | Some file => file
  | None => None
  end.

Lemma successive_cached cached files i :
  i < List.length files -> nth i (successive (Some cached) files) [] = cached.
Proof.
  revert i. induction files as [|file later IH]; intros i Hi; [simpl in Hi; lia|].
  cbn [successive LitellmConfig.getAllowedModels].
  destruct i as [|i]; [reflexivity|]. cbn [nth]. apply IH. simpl in Hi. lia.
Qed.

(** X20.  The allowed models are read once: every call of
    [getAllowedModels] up to the first that finds the file readable
    returns the empty list and remembers nothing, and that call and every
    later one return the names read then, whatever becomes of the file. *)
Theorem allowed_models_are_read_once files i :
  i < List.length files ->
  nth i (successive None files) []
  = match first_readable (firstn (S i) files) with
    | Some config => LitellmConfig.model_names config
    | None => []
    end.
Proof.
  revert i. induction files as [|file later IH]; intros i Hi; [simpl in Hi; lia|].
  cbn [successive LitellmConfig.getAllowedModels firstn].
  unfold first_readable. cbn [find].
  destruct file as [config|].
  - destruct i as [|i]; [reflexivity|]. cbn [nth].
    apply successive_cached. simpl in Hi. lia.
  - destruct i as [|i]; [reflexivity|]. cbn [nth].
    rewrite IH by (simpl in Hi; lia). reflexivity.
Qed.

(** A configuration that names two models, one of them through
    [litellm_params] only, and an entry with no name. *)
Definition two_models : LitellmConfig.LiteLLMConfig :=
  {| LitellmConfig.model_list :=
       Some [ {| LitellmConfig.model_name := Some "gpt-4o";
                 LitellmConfig.litellm_params :=
                   Some {| LitellmConfig.params_model := Some "openai/gpt-4o" |} |};
              {| LitellmConfig.model_name := Some "";
                 LitellmConfig.litellm_params :=
                   Some {| LitellmConfig.params_model := Some "claude" |} |};
              {| LitellmConfig.model_name := None;
                 LitellmConfig.litellm_params := None |} ] |}.

(** A configuration that names another model. *)
Definition other_model : LitellmConfig.LiteLLMConfig :=
  {| LitellmConfig.model_list :=
       Some [ {| LitellmConfig.model_name := Some "llama";
                 LitellmConfig.litellm_params := None |} ] |}.

Lemma allowed_models_are_read_once_witness :
  nth 0 (successive None [None; Some two_models; Some other_model; None]) [] = []
  /\ nth 3 (successive None [None; Some two_models; Some other_model; None]) []
     = ["gpt-4o"; "claude"].
Proof.
  split.
  - exact (allowed_models_are_read_once
             [None; Some two_models; Some other_model; None] 0 ltac:(simpl; lia)).
  - exact (allowed_models_are_read_once
             [None; Some two_models; Some other_model; None] 3 ltac:(simpl; lia)).
Defined.

Lemma model_names_in config m :
  In m (LitellmConfig.model_names config)
  <-> m <> ""
      /\ exists entries entry,
           LitellmConfig.model_list config = Some entries
           /\ In entry entries
           /\ LitellmConfig.modelName entry = Some m.
Proof.
  unfold LitellmConfig.model_names.
  destruct (LitellmConfig.model_list config) as [entries|].
  - rewrite in_flat_map. split.
    + intros (entry & Hin & Hm).
      destruct (LitellmConfig.modelName entry) as [[|c r]|] eqn:E; try now destruct Hm.
      destruct Hm as [<-|[]]. split; [discriminate|]. now exists entries, entry.
    + intros (Hne & entries' & entry & [= <-] & Hin & Hm).
      exists entry. split; [exact Hin|]. rewrite Hm.
      destruct m; [congruence | now left].
  - split; [now intros [] | now intros (_ & entries & entry & [=] & _)].
Qed.

(** X21.  [isModelAllowed] fails open: with no list remembered and the
    file unreadable, or a file that names no model, every model is
    allowed.  Otherwise a model is allowed exactly when the list holds it;
    and a file read then lists the non-empty names of its entries, an
    entry's name being its [model_name] or, when that is missing or empty,
    the [model] of its [litellm_params]. *)
Theorem model_is_allowed_iff allowedModels file model :
  let allowed := fst (LitellmConfig.getAllowedModels allowedModels file) in
  (fst (LitellmConfig.isModelAllowed allowedModels file model) = true
   <-> allowed = [] \/ In model allowed)
  /\ (allowedModels = None -> file = None -> allowed = [])
  /\ (forall config,
         allowedModels = None -> file = Some config ->
         forall m,
           In m allowed
           <-> m <> ""
               /\ exists entries entry,
                    LitellmConfig.model_list config = Some entries
                    /\ In entry entries
                    /\ (LitellmConfig.model_name entry = Some m
                        \/ (truthy (LitellmConfig.model_name entry) = false
                            /\ exists params,
                                 LitellmConfig.litellm_params entry = Some params
                                 /\ LitellmConfig.params_model params = Some m))).
Proof.
  cbv zeta. refine (conj _ (conj _ _)).
  - unfold LitellmConfig.isModelAllowed.
    destruct (LitellmConfig.getAllowedModels allowedModels file) as [allowed after].
    cbn [fst]. rewrite orb_true_iff, Nat.eqb_eq, List.length_zero_iff_nil.
    rewrite existsb_exists. split.
    + intros [H | (x & Hin & Hx)]; [now left|]. apply String.eqb_eq in Hx. subst. now right.
    + intros [H | H]; [now left|]. right. exists model. split; [exact H|].
      apply String.eqb_refl.
  - now intros -> ->.
  - intros config -> -> m. cbn [LitellmConfig.getAllowedModels fst].
    rewrite model_names_in. split.
    + intros (Hne & entries & entry & E & Hin & Hm). split; [exact Hne|].
      exists entries, entry. refine (conj E (conj Hin _)).
      unfold LitellmConfig.modelName in Hm.
      destruct (truthy (LitellmConfig.model_name entry)) eqn:T; [now left|].
      right. split; [reflexivity|].
      destruct (LitellmConfig.litellm_params entry) as [params|]; [|discriminate].
      now exists params.
    + intros (Hne & entries & entry & E & Hin & Hm). split; [exact Hne|].
      exists entries, entry. refine (conj E (conj Hin _)).
      unfold LitellmConfig.modelName.
      destruct Hm as [Hm | (T & params & P & Hm)].
      * rewrite Hm. destruct m; [congruence | reflexivity].
      * now rewrite T, P.
Qed.

Lemma model_is_allowed_iff_witness :
  fst (LitellmConfig.isModelAllowed None None "anything") = true
  /\ fst (LitellmConfig.isModelAllowed None (Some two_models) "claude") = true
  /\ fst (LitellmConfig.isModelAllowed None (Some two_models) "openai/gpt-4o") = false.
Proof.
  pose proof (model_is_allowed_iff None None "anything") as (A & E & _).
  pose proof (model_is_allowed_iff None (Some two_models) "claude") as (C & _).
  cbv zeta in A, E, C.
  split; [apply A; left; exact (E eq_refl eq_refl)|].
  split; [apply C; right; simpl; tauto | reflexivity].
Defined.

(** ** The chat handler that forwards once *)

(** The model may be named in a query, the configuration file having been
    in state [startup] when the module was loaded. *)
Definition allowed_at (startup : option LitellmConfig.LiteLLMConfig)
    (model : string) : Prop :=
  match startup with
  | None => True
  | Some config =>
      LitellmConfig.model_names config = []
      \/ In model (LitellmConfig.model_names config)
  end.

Lemma model_refine_iff startup now val :
  ChatV1.model_refine startup now val = true
  <-> truthy val = false \/ exists m, val = Some m /\ allowed_at startup m.
Proof.
  unfold ChatV1.model_refine, allowed_at.
  destruct startup as [config|]; cbn [LitellmConfig.getAllowedModels].
  - destruct val as [[|c r]|]; cbn [truthy negb or_else]; try (split; auto; fail).
    destruct (LitellmConfig.model_names config) as [|x xs] eqn:E.
    + cbn [List.length Nat.eqb]. split; [|reflexivity].
      intros _. right. eexists. split; [reflexivity | now left].
    + cbn [List.length Nat.eqb].
      unfold LitellmConfig.isModelAllowed. cbn [LitellmConfig.getAllowedModels fst].
      cbn [List.length Nat.eqb orb]. rewrite existsb_exists. split.
      * intros (y & Hin & Hy). apply String.eqb_eq in Hy. subst y.
        right. eexists. split; [reflexivity | now right].
      * intros [H | (m & [= <-] & [H | H])]; try discriminate.
        exists (String c r). split; [exact H | apply String.eqb_refl].
  - destruct val as [[|c r]|]; cbn [truthy negb or_else List.length Nat.eqb];
      split; auto.
    intros _. right. eexists. split; [reflexivity | exact I].
Qed.

Section ForwardOnce.
Variable getSystemPrompt : Chat.Domain -> Chat.Level -> string.
Variable startup : option LitellmConfig.LiteLLMConfig.
Variable now : option LitellmConfig.LiteLLMConfig.
Variable upstream : ChatV1.LitellmRequest -> ChatV1.Fetched.

Local Abbreviation forwarded :=
  (ChatV1.chatHandler getSystemPrompt startup now upstream).

(** X22.  [routes/chat.ts] sends at most one request for a chat request.
    The model it names is the one of the query when that is not empty, and
    then it was allowed when the module was loaded (the file could not be
    read then, or named no model, or named this one); otherwise it is
    [gpt-5-mini], which is not looked up in the list.  Its messages are
    the system prompt followed by the caller's turns. *)
Theorem forwarded_request_names_an_allowed_model (req : ChatV1.ChatRequest) call :
  In call (ChatV1.upstream_calls (forwarded req)) ->
  ChatV1.upstream_calls (forwarded req) = [call]
  /\ exists level q turns,
       Chat.FISH_TO_LEVEL (ChatV1.params_level req) = Some level
       /\ Chat.chatQuerySchema (ChatV1.query req) = Some q
       /\ Chat.chatBodySchema (ChatV1.req_body req) = Chat.Valid turns
       /\ ChatV1.messages call
          = {| Chat.role := "system";
               Chat.content := getSystemPrompt (Chat.domain q) level |} :: turns
       /\ ((exists m, Chat.model q = Some m /\ m <> "" /\ ChatV1.model call = m
                      /\ allowed_at startup m)
           \/ (truthy (Chat.model q) = false /\ ChatV1.model call = "gpt-5-mini")).
Proof.
  unfold ChatV1.chatHandler, ChatV1.chatQuerySchema.
  destruct (Chat.FISH_TO_LEVEL _) as [level|]; [|now intros []].
  destruct (Chat.chatQuerySchema _) as [q|]; [|now intros []].
  destruct (ChatV1.model_refine startup now (Chat.model q)) eqn:R; [|now intros []].
  destruct (Chat.chatBodySchema _) as [turns | | m]; [|now intros []..].
  apply model_refine_iff in R.
  assert (S : forall r,
             In call (ChatV1.upstream_calls
                        {| ChatV1.response := r;
                           ChatV1.upstream_calls :=
                             [{| ChatV1.messages :=
                                   {| Chat.role := "system";
                                      Chat.content := getSystemPrompt (Chat.domain q) level |}
                                   :: turns;
                                 ChatV1.model := or_else (Chat.model q) "gpt-5-mini" |}] |}) ->
             ChatV1.upstream_calls
               {| ChatV1.response := r;
                  ChatV1.upstream_calls :=
                    [{| ChatV1.messages :=
                          {| Chat.role := "system";
                             Chat.content := getSystemPrompt (Chat.domain q) level |}
                          :: turns;
                        ChatV1.model := or_else (Chat.model q) "gpt-5-mini" |}] |} = [call]
             /\ exists level' q' turns',
                  Some level = Some level' /\ Some q = Some q'
                  /\ Chat.Valid turns = Chat.Valid turns'
                  /\ ChatV1.messages call
                     = {| Chat.role := "system";
                          Chat.content := getSystemPrompt (Chat.domain q') level' |}
                       :: turns'
                  /\ ((exists m, Chat.model q' = Some m /\ m <> ""
                                 /\ ChatV1.model call = m /\ allowed_at startup m)
                      \/ (truthy (Chat.model q') = false
                          /\ ChatV1.model call = "gpt-5-mini"))).
  { intros r. cbn [ChatV1.upstream_calls]. intros [<- | []]. split; [reflexivity|].
    exists level, q, turns. cbn [ChatV1.messages ChatV1.model].
    refine (conj eq_refl (conj eq_refl (conj eq_refl (conj eq_refl _)))).
    destruct R as [T | (m & E & A)].
    - right. split; [exact T|]. now destruct (Chat.model q) as [[|c r']|].
    - rewrite E. destruct m as [|c r'].
      + right. split; reflexivity.
      + left. exists (String c r'). repeat split; try discriminate; assumption. }
  destruct (upstream _) as [r | m]; [|apply S].
  destruct (negb (ChatV1.ok r)); [apply S|].
  destruct (ChatV1.reply_json r); apply S.
Qed.

(** X23.  A query that names a model the list loaded with the module does
    not hold (the list not being empty) is answered 400 [Invalid query
    parameters] with nothing sent; and what the configuration file holds
    when the request is handled changes nothing. *)
Theorem disallowed_model_is_refused (req : ChatV1.ChatRequest) level q m :
  Chat.FISH_TO_LEVEL (ChatV1.params_level req) = Some level ->
  Chat.chatQuerySchema (ChatV1.query req) = Some q ->
  Chat.model q = Some m ->
  m <> "" ->
  ~ allowed_at startup m ->
  ChatV1.upstream_calls (forwarded req) = []
  /\ ChatV1.status (ChatV1.response (forwarded req)) = 400%Z
  /\ exists message,
       ChatV1.body (ChatV1.response (forwarded req))
       = ChatV1.ErrorBody "Invalid query parameters" message.
Proof.
  intros Hl Hq Hm Hne Hn. unfold ChatV1.chatHandler, ChatV1.chatQuerySchema.
  rewrite Hl, Hq.
  destruct (ChatV1.model_refine startup now (Chat.model q)) eqn:R;
    [|split; [reflexivity|]; split; [reflexivity|]; now eexists].
  apply model_refine_iff in R. rewrite Hm in R.
  destruct R as [T | (m' & [= <-] & A)]; [|contradiction].
  destruct m; [congruence | discriminate].
Qed.

End ForwardOnce.

(** X24.  The configuration file is consulted for the chat route only
    through the list made when the module was loaded: whatever the file
    holds when a request is handled, the handler does the same. *)
Theorem later_configuration_is_not_seen
    (getSystemPrompt : Chat.Domain -> Chat.Level -> string)
    (startup now later : option LitellmConfig.LiteLLMConfig)
    (upstream : ChatV1.LitellmRequest -> ChatV1.Fetched) (req : ChatV1.ChatRequest) :
  ChatV1.chatHandler getSystemPrompt startup now upstream req
  = ChatV1.chatHandler getSystemPrompt startup later upstream req.
Proof.
  assert (R : forall val,
             ChatV1.model_refine startup now val = ChatV1.model_refine startup later val).
  { intros val.
    destruct (ChatV1.model_refine startup now val) eqn:A,
             (ChatV1.model_refine startup later val) eqn:L; try reflexivity.
    - apply model_refine_iff in A. apply (model_refine_iff startup later) in A. congruence.
    - apply model_refine_iff in L. apply (model_refine_iff startup now) in L. congruence. }
  unfold ChatV1.chatHandler, ChatV1.chatQuerySchema.
  destruct (Chat.FISH_TO_LEVEL _); [|reflexivity].
  destruct (Chat.chatQuerySchema _) as [q|]; [|reflexivity].
  now rewrite (R (Chat.model q)).
Qed.

(** A completion service that answers the one request with an empty
    object. *)
Definition answer_once : ChatV1.LitellmRequest -> ChatV1.Fetched :=
  fun _ =>
    ChatV1.Reply {| ChatV1.reply_status := 200;
                    ChatV1.reply_text := "{}";
                    ChatV1.reply_json := Some (JObj []) |}.

(** A chat request for the insecure level with the given query. *)
Definition minnow_request (query : list (string * Json)) : ChatV1.ChatRequest :=
  {| ChatV1.params_level := Some "minnow";
     ChatV1.query := query;
     ChatV1.req_body := body_of (JStr "hello") |}.

Lemma forwarded_request_names_an_allowed_model_witness :
  ~ In "gpt-5-mini" (LitellmConfig.model_names two_models)
  /\ ChatV1.upstream_calls
       (ChatV1.chatHandler sample_prompts (Some two_models) None answer_once
          (minnow_request []))
     = [{| ChatV1.messages := [{| Chat.role := "system"; Chat.content := "prompt" |};
                               {| Chat.role := "user"; Chat.content := "hello" |}];
           ChatV1.model := "gpt-5-mini" |}].
Proof.
  split; [simpl; intros [H | [H | []]]; discriminate|].
  apply (forwarded_request_names_an_allowed_model sample_prompts (Some two_models) None
           answer_once (minnow_request [])).
  left. reflexivity.
Defined.

Lemma disallowed_model_is_refused_witness :
  ~ allowed_at (Some two_models) "llama"
  /\ ChatV1.upstream_calls
       (ChatV1.chatHandler sample_prompts (Some two_models) (Some other_model) answer_once
          (minnow_request [("model", JStr "llama")])) = []
  /\ ChatV1.status
       (ChatV1.response
          (ChatV1.chatHandler sample_prompts (Some two_models) (Some other_model)
             answer_once (minnow_request [("model", JStr "llama")]))) = 400%Z.
Proof.
  assert (N : ~ allowed_at (Some two_models) "llama").
  { simpl. intros [H | [H | [H | []]]]; discriminate. }
  split; [exact N|].
  destruct (disallowed_model_is_refused sample_prompts (Some two_models)
              (Some other_model) answer_once
              (minnow_request [("model", JStr "llama")]) Chat.insecure
              {| Chat.model := Some "llama"; Chat.domain := Chat.general |} "llama")
    as (U & S & _);
    [reflexivity | reflexivity | reflexivity | discriminate | exact N |].
  exact (conj U S).
Defined.


(** ** Guest screening *)

Lemma find_in_some items id app :
  Rental.find_in items id = Returned (Some app) ->
  In app items
  /\ exists members, app = JObj members /\ get "applicationId" members = Some (JStr id).
Proof.
  induction items as [|x items IH]; [discriminate|].
  cbn [Rental.find_in].
  destruct x as [| b | lit | s | elements | members];
    try discriminate; try (intros H; destruct (IH H) as [Hin Hm]; split; [now right | exact Hm]).
  destruct (get "applicationId" members) as [[| b | lit | s | elements | ms]|] eqn:G;
    try (intros H; destruct (IH H) as [Hin Hm]; split; [now right | exact Hm]).
  destruct (String.eqb_spec s id) as [->|N].
  - intros [= <-]. split; [now left|]. now exists members.
  - intros H. destruct (IH H) as [Hin Hm]. split; [now right | exact Hm].
Qed.

Lemma find_application_some database id app :
  Rental.find_application database id = Returned (Some app) ->
  exists top items members,
    database = JObj top
    /\ get "applications" top = Some (JArr items)
    /\ In app items
    /\ app = JObj members
    /\ get "applicationId" members = Some (JStr id).
Proof.
  unfold Rental.find_application, Rental.member, Rental.and_then.
  destruct database as [| b | lit | s | elements | top]; try discriminate.
  destruct (get "applications" top) as [[| b | lit | s | items | ms]|] eqn:G;
    try discriminate.
  intros H. destruct (find_in_some items id app H) as (Hin & members & -> & Hm).
  now exists top, items, members.
Qed.

Section Screening.
Variable getSystemPrompt : Chat.Domain -> Chat.Level -> string.
Variable evaluationPrompt : Json -> string.
Variable formatEmailNotification : Json -> string -> option Json -> string.
Variable interpolate : option Json -> string.
Variable is_email : string -> bool.
Variable file : Try string.
Variable upstream : ChatV1.LitellmRequest -> ChatV1.Fetched.

(** The request of an evaluation. *)
Definition evaluation (guestApplication : Json) (level : string) (model : option string)
    : ChatV1.LitellmRequest :=
  {| ChatV1.messages :=
       [ {| Chat.role := "system";
            Chat.content :=
              getSystemPrompt Chat.vacation_rental
                (if String.eqb level "minnow" then Chat.insecure else Chat.secure) |};
         {| Chat.role := "user"; Chat.content := evaluationPrompt guestApplication |} ];
     ChatV1.model := or_else model "gpt-3.5-turbo" |}.

Lemma assessment_sent guestApplication level model :
  snd (Rental.generateRiskAssessment getSystemPrompt evaluationPrompt upstream
         guestApplication level model)
  = [evaluation guestApplication level model].
Proof.
  unfold Rental.generateRiskAssessment, evaluation.
  destruct (upstream _) as [r | m]; [|reflexivity].
  destruct (negb (ChatV1.ok r)); [reflexivity|].
  now destruct (ChatV1.reply_json r).
Qed.

Lemma assessment_returned guestApplication level model risk :
  fst (Rental.generateRiskAssessment getSystemPrompt evaluationPrompt upstream
         guestApplication level model) = Returned risk ->
  exists r data,
    upstream (evaluation guestApplication level model) = ChatV1.Reply r
    /\ ChatV1.ok r = true
    /\ ChatV1.reply_json r = Some data
    /\ Rental.first_content data = Returned risk.
Proof.
  unfold Rental.generateRiskAssessment. fold (evaluation guestApplication level model).
  destruct (upstream _) as [r | m] eqn:U; [|discriminate].
  destruct (ChatV1.ok r) eqn:O; cbn [negb]; [|discriminate].
  destruct (ChatV1.reply_json r) as [data|] eqn:J; [|discriminate].
  cbn [fst]. intros H. now exists r, data.
Qed.

Local Abbreviation screened :=
  (Rental.screenGuest getSystemPrompt evaluationPrompt file upstream).

(** X25.  The screening route calls the completion service only for an
    application it found: the level and the query are valid, the data file
    was read and parsed, and the application is the first element of its
    [applications] whose [applicationId] is the one asked for.  Then it
    sends one request, the evaluation of that application under the
    vacation-rental prompt of the level, with the model of the query or
    [gpt-3.5-turbo].  It answers 200 only when that request succeeded, and
    the answer then repeats the [applicationId].  It logs no
    notification. *)
Theorem screening_needs_the_application (req : Rental.RentalRequest) :
  Rental.emails (screened req) = []
  /\ (Rental.upstream_calls (screened req) = []
      \/ exists level q top items members,
           Rental.pathParamsSchema (Rental.params_level req) = Some level
           /\ Rental.screenGuestQuerySchema (Rental.query req) = Some q
           /\ Rental.loadGuestApplications file = Returned (JObj top)
           /\ get "applications" top = Some (JArr items)
           /\ Rental.find_in items (Rental.applicationId q) = Returned (Some (JObj members))
           /\ In (JObj members) items
           /\ get "applicationId" members = Some (JStr (Rental.applicationId q))
           /\ Rental.upstream_calls (screened req)
              = [evaluation (JObj members) level (Rental.model q)]
           /\ (Rental.status (Rental.response (screened req)) = 200%Z ->
               exists r data risk,
                 upstream (evaluation (JObj members) level (Rental.model q))
                 = ChatV1.Reply r
                 /\ ChatV1.ok r = true
                 /\ ChatV1.reply_json r = Some data
                 /\ Rental.first_content data = Returned risk
                 /\ Rental.body (Rental.response (screened req))
                    = Rental.Answer
                        ([("applicationId", JStr (Rental.applicationId q))]
                         ++ Rental.maybe "guestName" (get "guestName" members)
                         ++ Rental.maybe "propertyName" (get "propertyName" members)
                         ++ Rental.maybe "riskAssessment" risk)))
  /\ (Rental.upstream_calls (screened req) = [] ->
      Rental.status (Rental.response (screened req)) <> 200%Z).
Proof.
  unfold Rental.screenGuest.
  destruct (Rental.pathParamsSchema _) as [level|] eqn:Hl;
    [|cbn; repeat split; auto; discriminate].
  destruct (Rental.screenGuestQuerySchema _) as [q|] eqn:Hq;
    [|cbn; repeat split; auto; discriminate].
  destruct (Rental.loadGuestApplications file) as [database | m] eqn:Hd;
    [|cbn; repeat split; auto; discriminate].
  destruct (Rental.find_application database (Rental.applicationId q))
    as [[app|] | m] eqn:Hf; [| cbn; repeat split; auto; discriminate..].
  pose proof (assessment_sent app level (Rental.model q)) as S.
  pose proof (assessment_returned app level (Rental.model q)) as R.
  destruct (find_application_some _ _ _ Hf) as (top & items & members & -> & Ha & Hin & -> & Hm).
  assert (Fi : Rental.find_in items (Rental.applicationId q)
               = Returned (Some (JObj members))).
  { revert Hf. unfold Rental.find_application, Rental.member, Rental.and_then.
    now rewrite Ha. }
  destruct (Rental.generateRiskAssessment _ _ _ _ _ _) as [[risk | m] sent];
    cbn [fst snd] in S, R; subst sent; cbn [Rental.emails Rental.upstream_calls
                                             Rental.response Rental.status Rental.body].
  - split; [reflexivity|]. split; [|discriminate]. right.
    exists level, q, top, items, members.
    refine (conj eq_refl (conj eq_refl (conj eq_refl (conj Ha (conj Fi (conj Hin
             (conj Hm (conj eq_refl _)))))))).
    intros _. destruct (R risk eq_refl) as (r & data & U & O & J & C).
    exists r, data, risk. refine (conj U (conj O (conj J (conj C _)))).
    cbn [Rental.field]. now rewrite Hm.
  - split; [reflexivity|]. split; [|discriminate]. right.
    exists level, q, top, items, members.
    refine (conj eq_refl (conj eq_refl (conj eq_refl (conj Ha (conj Fi (conj Hin
             (conj Hm (conj eq_refl _)))))))).
    cbn [Rental.internal_error Rental.status]. discriminate.
Qed.

End Screening.

Section Notifying.
Variable getSystemPrompt : Chat.Domain -> Chat.Level -> string.
Variable evaluationPrompt : Json -> string.
Variable formatEmailNotification : Json -> string -> option Json -> string.
Variable interpolate : option Json -> string.
Variable is_email : string -> bool.
Variable file : Try string.
Variable upstream : ChatV1.LitellmRequest -> ChatV1.Fetched.

Local Abbreviation sent :=
  (Rental.sendMessage getSystemPrompt evaluationPrompt formatEmailNotification
     interpolate is_email file upstream).

Lemma message_body_valid body b :
  Rental.sendMessageBodySchema is_email body = Some b ->
  Rental.message b <> "" /\ is_email (Rental.propertyOwnerEmail b) = true.
Proof.
  unfold Rental.sendMessageBodySchema.
  destruct body as [| ? | ? | ? | ? | members]; try discriminate.
  destruct (get "applicationId" members) as [[| ? | ? | id | ? | ?]|]; try discriminate.
  destruct (get "message" members) as [[| ? | ? | [|c text] | ? | ?]|]; try discriminate.
  destruct (get "propertyOwnerEmail" members) as [[| ? | ? | email | ? | ?]|];
    try discriminate.
  destruct (Rental.optional_string members "model") as [m|]; [|discriminate].
  destruct (is_email email) eqn:E; [|discriminate].
  intros [= <-]. cbn [Rental.message Rental.propertyOwnerEmail]. split; [discriminate | exact E].
Qed.

(** X26.  The message route logs a notification only when everything
    went through: the level and the body are valid (a message that is not
    empty, an owner's address that is an e-mail address), the application
    asked for was found in the data file, its [status] is [pending], and
    the evaluation request succeeded.  It then logs exactly one
    notification, addressed to the owner's address of the body, and
    answers 200; and it answers 200 in no other case.  For an application
    that is found but not pending it answers 400 [Invalid application
    status] and neither calls the completion service nor logs
    anything. *)
Theorem notification_needs_a_pending_application (req : Rental.RentalRequest) :
  (Rental.emails (sent req) = []
   /\ Rental.status (Rental.response (sent req)) <> 200%Z
   \/ exists level b top items members r data risk,
        Rental.pathParamsSchema (Rental.params_level req) = Some level
        /\ Rental.sendMessageBodySchema is_email (Rental.req_body req) = Some b
        /\ Rental.message b <> ""
        /\ is_email (Rental.propertyOwnerEmail b) = true
        /\ Rental.loadGuestApplications file = Returned (JObj top)
        /\ get "applications" top = Some (JArr items)
        /\ In (JObj members) items
        /\ get "applicationId" members = Some (JStr (Rental.body_applicationId b))
        /\ get "status" members = Some (JStr "pending")
        /\ Rental.upstream_calls (sent req)
           = [evaluation getSystemPrompt evaluationPrompt (JObj members) level
                (Rental.body_model b)]
        /\ upstream (evaluation getSystemPrompt evaluationPrompt (JObj members) level
                       (Rental.body_model b)) = ChatV1.Reply r
        /\ ChatV1.ok r = true
        /\ ChatV1.reply_json r = Some data
        /\ Rental.first_content data = Returned risk
        /\ Rental.status (Rental.response (sent req)) = 200%Z
        /\ Rental.emails (sent req)
           = [ {| Rental.email_to := Rental.propertyOwnerEmail b;
                  Rental.email_subject :=
                    "New Inquiry for " ++ interpolate (get "propertyName" members)
                    ++ " from " ++ interpolate (get "guestName" members);
                  Rental.email_content :=
                    formatEmailNotification (JObj members) (Rental.message b) risk |} ])
  /\ (forall level b database guestApplication,
         Rental.pathParamsSchema (Rental.params_level req) = Some level ->
         Rental.sendMessageBodySchema is_email (Rental.req_body req) = Some b ->
         Rental.loadGuestApplications file = Returned database ->
         Rental.find_application database (Rental.body_applicationId b)
         = Returned (Some guestApplication) ->
         Rental.field guestApplication "status" <> Some (JStr "pending") ->
         sent req
         = Rental.quiet
             {| Rental.status := 400;
                Rental.body :=
                  Rental.ErrorBody "Invalid application status"
                    "Messages can only be sent for pending inquiries. This application has already been processed." |}).
Proof.
  split.
  - unfold Rental.sendMessage.
    destruct (Rental.pathParamsSchema _) as [level|] eqn:Hl;
      [|left; cbn; split; [reflexivity | discriminate]].
    destruct (Rental.sendMessageBodySchema _ _) as [b|] eqn:Hb;
      [|left; cbn; split; [reflexivity | discriminate]].
    destruct (Rental.loadGuestApplications file) as [database | m] eqn:Hd;
      [|left; cbn; split; [reflexivity | discriminate]].
    destruct (Rental.find_application database (Rental.body_applicationId b))
      as [[app|] | m] eqn:Hf; [|left; cbn; split; [reflexivity | discriminate]..].
    destruct (find_application_some _ _ _ Hf)
      as (top & items & members & -> & Ha & Hin & -> & Hm).
    destruct (message_body_valid _ _ Hb) as [Hne He].
    pose proof (assessment_sent getSystemPrompt evaluationPrompt upstream
                  (JObj members) level (Rental.body_model b)) as S.
    pose proof (assessment_returned getSystemPrompt evaluationPrompt upstream
                  (JObj members) level (Rental.body_model b)) as R.
    destruct (Rental.is_pending (JObj members)) eqn:Hp; cbn [negb];
      [|left; cbn; split; [reflexivity | discriminate]].
    assert (Hs : get "status" members = Some (JStr "pending")).
    { unfold Rental.is_pending in Hp. cbn [Rental.field] in Hp.
      destruct (get "status" members) as [[| ? | ? | st | ? | ?]|]; try discriminate.
      apply String.eqb_eq in Hp. now subst. }
    destruct (Rental.generateRiskAssessment _ _ _ _ _ _) as [[risk | m] calls];
      cbn [fst snd] in S, R; subst calls;
      [|left; cbn; split; [reflexivity | discriminate]].
    right. destruct (R risk eq_refl) as (r & data & U & O & J & C).
    exists level, b, top, items, members, r, data, risk.
    cbn [Rental.upstream_calls Rental.response Rental.status Rental.emails Rental.field].
    repeat (split; [first [assumption | reflexivity]|]). reflexivity.
  - intros level b database app Hl Hb Hd Hf Hs.
    unfold Rental.sendMessage. rewrite Hl, Hb, Hd, Hf.
    assert (Hp : Rental.is_pending app = false).
    { unfold Rental.is_pending.
      destruct (Rental.field app "status") as [[| ? | ? | st | ? | ?]|]; try reflexivity.
      destruct (String.eqb_spec st "pending") as [->|N]; [congruence | reflexivity]. }
    now rewrite Hp.
Qed.

End Notifying.

(** A data file with a pending and an approved application. *)
Definition sample_applications : Json :=
  JObj [("applications",
         JArr [JObj [("applicationId", JStr "A1");
                     ("status", JStr "pending");
                     ("guestName", JStr "Ann");
                     ("propertyName", JStr "Beach House")];
               JObj [("applicationId", JStr "A2");
                     ("status", JStr "approved");
                     ("guestName", JStr "Bob");
                     ("propertyName", JStr "Mountain Cabin")]])].

Definition sample_file : Try string := Returned (stringify sample_applications).

(** A completion service that rates every application as low risk. *)
Definition low_risk : ChatV1.LitellmRequest -> ChatV1.Fetched :=
  fun _ =>
    ChatV1.Reply
      {| ChatV1.reply_status := 200;
         ChatV1.reply_text := "";
         ChatV1.reply_json :=
           Some (JObj [("choices",
                        JArr [JObj [("message",
                                     JObj [("content", JStr "LOW")])]])]) |}.

Definition sample_evaluation : Json -> string := fun _ => "evaluate".
Definition sample_notification : Json -> string -> option Json -> string :=
  fun _ guestMessage _ => guestMessage.
Definition sample_interpolate : option Json -> string :=
  fun v => match v with Some (JStr s) => s | _ => "undefined" end.
Definition sample_is_email : string -> bool :=
  fun s => negb (free_of "@" s).

(** A message for the application with the given identifier. *)
Definition message_request (applicationId : string) : Rental.RentalRequest :=
  {| Rental.params_level := Some "shark";
     Rental.query := [];
     Rental.req_body :=
       JObj [("applicationId", JStr applicationId);
             ("message", JStr "Is the house free in May?");
             ("propertyOwnerEmail", JStr "owner@example.com")] |}.

(** The pending application is evaluated and answered 200; an identifier
    the file does not hold is answered 404 with nothing sent. *)
Example screening_examples :
  Rental.response
    (Rental.screenGuest sample_prompts sample_evaluation sample_file low_risk
       {| Rental.params_level := Some "minnow";
          Rental.query := [("applicationId", JStr "A1")];
          Rental.req_body := JObj [] |})
  = {| Rental.status := 200;
       Rental.body := Rental.Answer [("applicationId", JStr "A1");
                                     ("guestName", JStr "Ann");
                                     ("propertyName", JStr "Beach House");
                                     ("riskAssessment", JStr "LOW")] |}
  /\ Rental.screenGuest sample_prompts sample_evaluation sample_file low_risk
       {| Rental.params_level := Some "minnow";
          Rental.query := [("applicationId", JStr "A9")];
          Rental.req_body := JObj [] |}
     = Rental.quiet (Rental.not_found "A9").
Proof. split; vm_compute; reflexivity. Qed.

Lemma notification_needs_a_pending_application_witness :
  Rental.emails
    (Rental.sendMessage sample_prompts sample_evaluation sample_notification
       sample_interpolate sample_is_email sample_file low_risk (message_request "A1"))
  = [ {| Rental.email_to := "owner@example.com";
         Rental.email_subject := "New Inquiry for Beach House from Ann";
         Rental.email_content := "Is the house free in May?" |} ]
  /\ Rental.sendMessage sample_prompts sample_evaluation sample_notification
       sample_interpolate sample_is_email sample_file low_risk (message_request "A2")
     = Rental.quiet
         {| Rental.status := 400;
            Rental.body :=
              Rental.ErrorBody "Invalid application status"
                "Messages can only be sent for pending inquiries. This application has already been processed." |}.
Proof.
  split; [vm_compute; reflexivity|].
  apply (proj2 (notification_needs_a_pending_application sample_prompts sample_evaluation
                  sample_notification sample_interpolate sample_is_email sample_file
                  low_risk (message_request "A2"))
           "shark"
           {| Rental.body_applicationId := "A2";
              Rental.message := "Is the house free in May?";
              Rental.propertyOwnerEmail := "owner@example.com";
              Rental.body_model := None |}
           sample_applications
           (JObj [("applicationId", JStr "A2");
                  ("status", JStr "approved");
                  ("guestName", JStr "Bob");
                  ("propertyName", JStr "Mountain Cabin")]));
    try (vm_compute; reflexivity).
  vm_compute. discriminate.
Defined.

(** ** One turn as text, one turn as an object *)

(** X27.  A string that is the JSON text of one turn is taken as a
    conversation of that turn.  The same turn given as a JSON object, not
    as text, is not: the handler forwards one user turn whose content is
    the text [[object Object]]. *)
Theorem encoded_single_turn (t : Chat.Turn) :
  Chat.chatBodySchema (body_of (JStr (stringify (Chat.turn_json t)))) = Chat.Valid [t]
  /\ Chat.chatBodySchema (body_of (Chat.turn_json t))
     = Chat.Valid [{| Chat.role := "user"; Chat.content := "[object Object]" |}].
Proof.
  split.
  - unfold Chat.chatBodySchema, body_of. cbn [get]. simpl String.eqb. cbv iota.
    unfold Chat.normalizeMessages.
    assert (W : wf (Chat.turn_json t) = true) by reflexivity.
    rewrite (parse_stringify _ W). unfold Chat.turn_json at 1.
    unfold Chat.messages_schema. cbn [Chat.turns_schema].
    change (JObj [("role", JStr (Chat.role t)); ("content", JStr (Chat.content t))])
      with (Chat.turn_json t).
    now rewrite turn_schema_json.
  - reflexivity.
Qed.
